(** * MAX Bot API client: the update decoder, the long-polling loop and
      the webhook handler

    A shallow embedding of [api.go] and of the transport in [client]
    ([request], [requestReader]), with the properties of the ingestion
    core proved over it.

    What lies outside the embedded files is kept as an interface:
    - package [schemes] (the wire structs and their tag constants) and
      [encoding/json] are the class [Wire]: one decoder per struct that
      the code hands to [json.Unmarshal], and the tag constants;
    - [net/http], the context and the clock are the record [Env]: scripted
      outcomes of the successive [httpClient.Do] calls and of the
      successive [select] statements that watch [ctx.Done()]. *)

From Stdlib Require Import ZArith String List Lia.
From stdpp Require Import base option list gmap strings pretty.

Local Open Scope string_scope.
Local Open Scope Z_scope.

(** ** Go values *)

(** [[]byte], [json.RawMessage] and [string] hold the same bytes. *)
Abbreviation RawMessage := string (only parsing).

(** [time.Duration]: a count of nanoseconds. *)
Abbreviation Duration := Z (only parsing).
Definition Second : Duration := 1000000000.

(** The [error] values that flow through the embedded code.  A
    [*TimeoutError] carries the address of the struct it points to, since
    [getUpdates] compares such a pointer with [==]. *)
Inductive error : Type :=
| TimeoutErrorPtr (addr : nat) (Op Reason : string)
| NetworkErrorPtr (Op : string) (Err : error)
| APIErrorPtr (Code : Z) (Message : string)
| SerializationErrorPtr (Op Type_ : string) (Err : error)
| HTTPStatusError (StatusCode : Z)
    (* fmt.Errorf("HTTP %d: %s", code, http.StatusText(code)) *)
| errorString (msg : string)
    (* fmt.Errorf without %w, the message rendered *)
| wrapError (msg : string) (err : error)
    (* fmt.Errorf(msg ++ ": %w", err) *)
| foreignError (msg : string)
    (* an error made by encoding/json, io or net/http *)
| ctxErr.
    (* ctx.Err() once the context is done *)

(** A Go call returning [(T, error)]: a value with a nil error, or an
    error. *)
Inductive result (A : Type) : Type :=
| Ok (a : A)
| Err (err : error).
Arguments Ok {A} a.
Arguments Err {A} err.

Definition is_Ok {A} (r : result A) : bool :=
  match r with Ok _ => true | Err _ => false end.

(** ** Package schemes, as far as the client touches it *)

Abbreviation UpdateType := string (only parsing).
Abbreviation AttachmentType := string (only parsing).

(** Modelled from the spec: [schemes.Update], the envelope shared by all
    updates, is declared outside the embedded files.  Its fields are those
    the code and its tests name: the type tag, the timestamp and the debug
    capture. *)
Record Update : Type := {
  Update_UpdateType : UpdateType;
  Update_Timestamp : Z;
  Update_DebugRaw : string
}.

(** Modelled from the spec: [schemes.Attachment], the envelope shared by
    all attachments, is declared outside the embedded files.  The common
    field of an attachment is its type tag (the tests build it as
    [schemes.Attachment{Type: ...}]). *)
Record Attachment : Type := {
  Attachment_Type : AttachmentType
}.

Definition GetUpdateType (u : Update) : UpdateType := Update_UpdateType u.
Definition GetAttachmentType (a : Attachment) : AttachmentType := Attachment_Type a.

(** The nine typed attachment structs of [attachmentTypeMap]. *)
Inductive AttachmentKind : Type :=
| AudioAttachment | ContactAttachment | FileAttachment | PhotoAttachment
| InlineKeyboardAttachment | LocationAttachment | ShareAttachment
| StickerAttachment | VideoAttachment.

(** The eight update structs that [processMessageAttachments] leaves to
    its default case. *)
Inductive PlainUpdateKind : Type :=
| MessageCallbackUpdate | MessageRemovedUpdate | BotAddedToChatUpdate
| BotRemovedFromChatUpdate | UserAddedToChatUpdate
| UserRemovedFromChatUpdate | BotStartedUpdate | ChatTitleChangedUpdate.

Section Structs.
(** The fields the client never reads or writes, whatever they are. *)
Variable Fields : Type.

(** A value behind [schemes.AttachmentInterface]: a pointer to the bare
    envelope, or to one of the typed structs. *)
Inductive AttachmentInterface : Type :=
| BaseAttachment (a : Attachment)
| TypedAttachment (k : AttachmentKind) (v : Fields).

(** [schemes.MessageBody], with the two fields that api.go reads and
    writes.  [RawAttachments] is a slice that may be nil ([None]). *)
Record MessageBody : Type := {
  MessageBody_RawAttachments : option (list RawMessage);
  MessageBody_Attachments : list AttachmentInterface;
  MessageBody_rest : Fields
}.

Record Message : Type := {
  Message_Body : MessageBody;
  Message_rest : Fields
}.

(** A value behind [schemes.UpdateInterface]: a pointer to one of the ten
    update structs, each with the envelope embedded. *)
Inductive UpdateInterface : Type :=
| MessageCreatedUpdate (u : Update) (m : Message)
| MessageEditedUpdate (u : Update) (m : Message)
| PlainUpdate (k : PlainUpdateKind) (u : Update) (v : Fields).

(** [schemes.UpdateList]: the raw updates and the optional marker
    ([*int64]). *)
Record UpdateList : Type := {
  UpdateList_Updates : list RawMessage;
  UpdateList_Marker : option Z
}.
End Structs.

Arguments BaseAttachment {Fields} a.
Arguments TypedAttachment {Fields} k v.
Arguments MessageBody_RawAttachments {Fields} _.
Arguments MessageBody_Attachments {Fields} _.
Arguments MessageBody_rest {Fields} _.
Arguments Build_MessageBody {Fields} _ _ _.
Arguments Message_Body {Fields} _.
Arguments Message_rest {Fields} _.
Arguments Build_Message {Fields} _ _.
Arguments MessageCreatedUpdate {Fields} u m.
Arguments MessageEditedUpdate {Fields} u m.
Arguments PlainUpdate {Fields} k u v.

(** The Go type of the struct behind an [UpdateInterface]. *)
Inductive UpdateGoType : Type :=
| TMessageCreatedUpdate
| TMessageEditedUpdate
| TPlain (k : PlainUpdateKind).

Definition TypeOf {Fields} (u : UpdateInterface Fields) : UpdateGoType :=
  match u with
  | MessageCreatedUpdate _ _ => TMessageCreatedUpdate
  | MessageEditedUpdate _ _ => TMessageEditedUpdate
  | PlainUpdate k _ _ => TPlain k
  end.

(** The envelope embedded in an update. *)
Definition envelope {Fields} (u : UpdateInterface Fields) : Update :=
  match u with
  | MessageCreatedUpdate e _ | MessageEditedUpdate e _ | PlainUpdate _ e _ => e
  end.

(** ** The wire interface *)

(** What the client imports from [schemes] and [encoding/json], and the
    two renderings of a [time.Duration] it uses.  Each decoder is
    [json.Unmarshal(data, p)] at one struct type: it takes the bytes and
    the value [p] points to, and gives the value left there, or the
    error. *)
Class Wire (Fields : Type) : Type := {
  zero : Fields;

  TypeMessageCallback : UpdateType;
  TypeMessageCreated : UpdateType;
  TypeMessageRemoved : UpdateType;
  TypeMessageEdited : UpdateType;
  TypeBotAdded : UpdateType;
  TypeBotRemoved : UpdateType;
  TypeUserAdded : UpdateType;
  TypeUserRemoved : UpdateType;
  TypeBotStarted : UpdateType;
  TypeChatTitleChanged : UpdateType;

  AttachmentAudio : AttachmentType;
  AttachmentContact : AttachmentType;
  AttachmentFile : AttachmentType;
  AttachmentImage : AttachmentType;
  AttachmentKeyboard : AttachmentType;
  AttachmentLocation : AttachmentType;
  AttachmentShare : AttachmentType;
  AttachmentSticker : AttachmentType;
  AttachmentVideo : AttachmentType;

  (* a map literal with two equal constant keys does not compile *)
  update_tags_NoDup :
    NoDup [TypeMessageCallback; TypeMessageCreated; TypeMessageRemoved;
           TypeMessageEdited; TypeBotAdded; TypeBotRemoved; TypeUserAdded;
           TypeUserRemoved; TypeBotStarted; TypeChatTitleChanged];
  attachment_tags_NoDup :
    NoDup [AttachmentAudio; AttachmentContact; AttachmentFile;
           AttachmentImage; AttachmentKeyboard; AttachmentLocation;
           AttachmentShare; AttachmentSticker; AttachmentVideo];

  unmarshal_Update : RawMessage -> Update -> result Update;
  unmarshal_MessageCreatedUpdate :
    RawMessage -> Update * Message Fields -> result (Update * Message Fields);
  unmarshal_MessageEditedUpdate :
    RawMessage -> Update * Message Fields -> result (Update * Message Fields);
  unmarshal_PlainUpdate :
    PlainUpdateKind -> RawMessage -> Update * Fields -> result (Update * Fields);
  unmarshal_Attachment : RawMessage -> Attachment -> result Attachment;
  unmarshal_TypedAttachment :
    AttachmentKind -> RawMessage -> Fields -> result Fields;
  unmarshal_UpdateList :
    RawMessage -> UpdateList -> result UpdateList;

  (* json.NewDecoder(body).Decode(apiErr) followed by apiErr.Error() *)
  decode_Error : RawMessage -> result string;
  (* int(d.Seconds()), a float64 computation *)
  Seconds_int : Duration -> Z;
  (* fmt.Sprintf("%v", d) *)
  Duration_String : Duration -> string
}.

(** ** The decoder of api.go *)

(** [client], with [httpClient.Timeout] for its [httpClient]. *)
Record client : Type := {
  key : string;
  version : string;
  httpClient_Timeout : Duration
}.

Record Api : Type := {
  api_client : client;
  timeout : Duration;
  pause : Duration;
  debug : bool
}.

Section Decoder.
Context {Fields : Type} {W : Wire Fields}.

Definition zero_Update : Update :=
  {| Update_UpdateType := ""; Update_Timestamp := 0; Update_DebugRaw := "" |}.
Definition zero_Attachment : Attachment := {| Attachment_Type := "" |}.
Definition zero_Message : Message Fields :=
  {| Message_Body := {| MessageBody_RawAttachments := None;
                        MessageBody_Attachments := [];
                        MessageBody_rest := zero |};
     Message_rest := zero |}.
Definition zero_UpdateList : UpdateList :=
  {| UpdateList_Updates := []; UpdateList_Marker := None |}.

(** [schemes.Update{DebugRaw: debugRaw}] *)
Definition Update_with_DebugRaw (debugRaw : string) : Update :=
  {| Update_UpdateType := ""; Update_Timestamp := 0; Update_DebugRaw := debugRaw |}.

Definition updateTypeMap : gmap UpdateType (string -> UpdateInterface Fields) :=
  list_to_map [
    (TypeMessageCallback, fun debugRaw =>
       PlainUpdate MessageCallbackUpdate (Update_with_DebugRaw debugRaw) zero);
    (TypeMessageCreated, fun debugRaw =>
       MessageCreatedUpdate (Update_with_DebugRaw debugRaw) zero_Message);
    (TypeMessageRemoved, fun debugRaw =>
       PlainUpdate MessageRemovedUpdate (Update_with_DebugRaw debugRaw) zero);
    (TypeMessageEdited, fun debugRaw =>
       MessageEditedUpdate (Update_with_DebugRaw debugRaw) zero_Message);
    (TypeBotAdded, fun debugRaw =>
       PlainUpdate BotAddedToChatUpdate (Update_with_DebugRaw debugRaw) zero);
    (TypeBotRemoved, fun debugRaw =>
       PlainUpdate BotRemovedFromChatUpdate (Update_with_DebugRaw debugRaw) zero);
    (TypeUserAdded, fun debugRaw =>
       PlainUpdate UserAddedToChatUpdate (Update_with_DebugRaw debugRaw) zero);
    (TypeUserRemoved, fun debugRaw =>
       PlainUpdate UserRemovedFromChatUpdate (Update_with_DebugRaw debugRaw) zero);
    (TypeBotStarted, fun debugRaw =>
       PlainUpdate BotStartedUpdate (Update_with_DebugRaw debugRaw) zero);
    (TypeChatTitleChanged, fun debugRaw =>
       PlainUpdate ChatTitleChangedUpdate (Update_with_DebugRaw debugRaw) zero)
  ].

Definition attachmentTypeMap : gmap AttachmentType (unit -> AttachmentInterface Fields) :=
  list_to_map [
    (AttachmentAudio, fun _ => TypedAttachment AudioAttachment zero);
    (AttachmentContact, fun _ => TypedAttachment ContactAttachment zero);
    (AttachmentFile, fun _ => TypedAttachment FileAttachment zero);
    (AttachmentImage, fun _ => TypedAttachment PhotoAttachment zero);
    (AttachmentKeyboard, fun _ => TypedAttachment InlineKeyboardAttachment zero);
    (AttachmentLocation, fun _ => TypedAttachment LocationAttachment zero);
    (AttachmentShare, fun _ => TypedAttachment ShareAttachment zero);
    (AttachmentSticker, fun _ => TypedAttachment StickerAttachment zero);
    (AttachmentVideo, fun _ => TypedAttachment VideoAttachment zero)
  ].

(** [json.Unmarshal(data, update)] with [update] an interface value:
    the struct behind the pointer is filled, its type stays. *)
Definition Unmarshal_update (data : RawMessage) (update : UpdateInterface Fields)
  : result (UpdateInterface Fields) :=
  match update with
  | MessageCreatedUpdate u m =>
      match unmarshal_MessageCreatedUpdate data (u, m) with
      | Ok (u', m') => Ok (MessageCreatedUpdate u' m')
      | Err err => Err err
      end
  | MessageEditedUpdate u m =>
      match unmarshal_MessageEditedUpdate data (u, m) with
      | Ok (u', m') => Ok (MessageEditedUpdate u' m')
      | Err err => Err err
      end
  | PlainUpdate k u v =>
      match unmarshal_PlainUpdate k data (u, v) with
      | Ok (u', v') => Ok (PlainUpdate k u' v')
      | Err err => Err err
      end
  end.

Definition Unmarshal_attachment (data : RawMessage) (attachment : AttachmentInterface Fields)
  : result (AttachmentInterface Fields) :=
  match attachment with
  | BaseAttachment a =>
      match unmarshal_Attachment data a with
      | Ok a' => Ok (BaseAttachment a')
      | Err err => Err err
      end
  | TypedAttachment k v =>
      match unmarshal_TypedAttachment k data v with
      | Ok v' => Ok (TypedAttachment k v')
      | Err err => Err err
      end
  end.

(** bytesToProperAttachment converts raw JSON bytes to the appropriate
    attachment type. *)
Definition bytesToProperAttachment (a : Api) (data : RawMessage)
  : result (AttachmentInterface Fields) :=
  match unmarshal_Attachment data zero_Attachment with
  | Err err => Err (wrapError "failed to unmarshal base attachment" err)
  | Ok baseAttachment =>
      let attachmentType := GetAttachmentType baseAttachment in
      match attachmentTypeMap !! attachmentType with
      | None =>
          (* Return base attachment for unknown types *)
          Ok (BaseAttachment baseAttachment)
      | Some constructor =>
          let attachment := constructor tt in
          match Unmarshal_attachment data attachment with
          | Err err =>
              Err (wrapError ("failed to unmarshal attachment of type " ++ attachmentType) err)
          | Ok attachment' => Ok attachment'
          end
      end
  end.

Definition append_Attachment (body : MessageBody Fields)
    (attachment : AttachmentInterface Fields) : MessageBody Fields :=
  {| MessageBody_RawAttachments := MessageBody_RawAttachments body;
     MessageBody_Attachments := (MessageBody_Attachments body ++ [attachment])%list;
     MessageBody_rest := MessageBody_rest body |}.

(** The [for _, rawAttachment := range ...] loop of
    [processMessageAttachments]: the body as the loop leaves it, and the
    error it returns with, if any. *)
Fixpoint range_RawAttachments (a : Api) (raws : list RawMessage)
    (body : MessageBody Fields) : MessageBody Fields * option error :=
  match raws with
  | [] => (body, None)
  | rawAttachment :: rest =>
      match bytesToProperAttachment a rawAttachment with
      | Err err => (body, Some (wrapError "failed to process attachment" err))
      | Ok attachment =>
          range_RawAttachments a rest (append_Attachment body attachment)
      end
  end.

Definition process_Message (a : Api) (m : Message Fields)
  : Message Fields * option error :=
  match MessageBody_RawAttachments (Message_Body m) with
  | Some raws =>
      let (body, err) := range_RawAttachments a raws (Message_Body m) in
      ({| Message_Body := body; Message_rest := Message_rest m |}, err)
  | None => (m, None)
  end.

(** processMessageAttachments processes attachments for message-type
    updates.  It works through the pointer [update]: the first component
    is the struct as the call leaves it, the second the returned error. *)
Definition processMessageAttachments (a : Api) (update : UpdateInterface Fields)
  : UpdateInterface Fields * option error :=
  match update with
  | MessageCreatedUpdate u m =>
      let (m', err) := process_Message a m in (MessageCreatedUpdate u m', err)
  | MessageEditedUpdate u m =>
      let (m', err) := process_Message a m in (MessageEditedUpdate u m', err)
  | _ => (update, None) (* No attachments to process *)
  end.

(** bytesToProperUpdate converts raw JSON bytes to the appropriate
    update type. *)
Definition bytesToProperUpdate (a : Api) (data : RawMessage)
  : result (UpdateInterface Fields) :=
  match unmarshal_Update data zero_Update with
  | Err err => Err (wrapError "failed to unmarshal base update" err)
  | Ok baseUpdate =>
      let debugRaw := if debug a then data else "" in
      let updateType := GetUpdateType baseUpdate in
      match updateTypeMap !! updateType with
      | None => Err (errorString ("unknown update type: " ++ updateType))
      | Some constructor =>
          let update := constructor debugRaw in
          match Unmarshal_update data update with
          | Err err =>
              Err (wrapError ("failed to unmarshal update of type " ++ updateType) err)
          | Ok update' =>
              match processMessageAttachments a update' with
              | (_, Some err) =>
                  Err (wrapError "failed to process message attachments" err)
              | (update'', None) => Ok update''
              end
          end
      end
  end.
End Decoder.


(** ** The world outside the client *)

Definition maxUpdatesLimit : Z := 50.
Definition maxRetries : Z := 3.
Definition StatusOK : Z := 200.
Definition StatusBadRequest : Z := 400.
Definition StatusMethodNotAllowed : Z := 405.
Definition StatusServiceUnavailable : Z := 503.
Definition MethodGet : string := "GET".
Definition MethodPost : string := "POST".

(** [url.Values]: a map from a key to the list of its values. *)
Abbreviation Values := (gmap string (list string)) (only parsing).

Definition Values_Set (k v : string) (m : Values) : Values := <[k := [v]]> m.
Definition Values_Add (k v : string) (m : Values) : Values :=
  <[k := (default [] (m !! k) ++ [v])%list]> m.

(** A response body: what [io.ReadAll] gives on it and what [Close]
    returns. *)
Record ReadCloser : Type := {
  ReadAll : result RawMessage;
  Close : option error
}.

(** What [httpClient.Do] returns: an error that is a [*url.Error]
    (answering [Timeout()]) or some other error, or a response. *)
Inductive DoOutcome : Type :=
| DoUrlError (Timeout : bool) (msg : string)
| DoOtherError (msg : string)
| DoResponse (StatusCode : Z) (Body : ReadCloser).

(** The environment of one run: the outcome of the n-th call of
    [httpClient.Do], whether the n-th [select] with a [<-ctx.Done()] case
    takes that case, and whether [http.NewRequestWithContext] rejects a
    request. *)
Record Env : Type := {
  env_Do : nat -> DoOutcome;
  env_Done : nat -> bool;
  env_NewRequest : string -> string -> Values -> option error
}.

Section Client.
Context {Fields : Type} {W : Wire Fields}.
Variable env : Env.

(** The effects of a run, in order. *)
Inductive Event : Type :=
| EvDo (method path : string) (query : Values) (body : option RawMessage)
| EvRetryLog (attempt : Z) (retryWait : Duration) (lastErr : error)
    (* log.Printf("Attempt %d failed, retrying in %v: %v", ...) *)
| EvFailedLog (err : error)
    (* log.Printf("failed to get updates: %v", err) *)
| EvCloseLog (closeErr : error)
| EvAfter (d : Duration)
    (* the case <-time.After(d) of a select was taken *)
| EvTick
    (* the case <-ticker.C was taken *)
| EvSend (update : UpdateInterface Fields)
    (* the case ch <- update was taken *)
| EvCtxDone
    (* the case <-ctx.Done() was taken *)
| EvCloseChan.
    (* close(ch) *)

(** The state threaded through the client: how many [TimeoutError]
    structs were allocated since the package was initialised, how many
    [Do] calls and [select]s happened, and the effects so far. *)
Record World : Type := {
  allocs : nat;
  do_calls : nat;
  selects : nat;
  trace : list Event
}.

Definition init_World : World :=
  {| allocs := 0; do_calls := 0; selects := 0; trace := [] |}.

Definition M (A : Type) : Type := World -> A * World.
Definition ret {A} (x : A) : M A := fun w => (x, w).
Definition bind {A B} (m : M A) (k : A -> M B) : M B :=
  fun w => let (x, w') := m w in k x w'.

Notation "x <- m ;; k" := (bind m (fun x => k))
  (at level 100, m at next level, right associativity).
Notation "m ;;; k" := (bind m (fun _ => k))
  (at level 100, right associativity).

Definition emit (e : Event) : M unit :=
  fun w => (tt, {| allocs := allocs w; do_calls := do_calls w;
                   selects := selects w; trace := (trace w ++ [e])%list |}).

(** A [select] between [<-ctx.Done()] and one other case whose effect is
    [other]: true when the [ctx.Done()] case is taken. *)
Definition select_Done (other : Event) : M bool :=
  fun w =>
    let done := env_Done env (selects w) in
    (done, {| allocs := allocs w; do_calls := do_calls w;
              selects := S (selects w);
              trace := (trace w ++ [if done then EvCtxDone else other])%list |}).

(** [cl.httpClient.Do(req)] *)
Definition httpClient_Do (method path : string) (query : Values)
    (body : option RawMessage) : M DoOutcome :=
  fun w =>
    (env_Do env (do_calls w),
     {| allocs := allocs w; do_calls := S (do_calls w);
        selects := selects w;
        trace := (trace w ++ [EvDo method path query body])%list |}).

(** The package variable [errLongPollTimeout] is the first [TimeoutError]
    allocated, at address 0; the n-th allocation of a run gets address
    n. *)
Definition errLongPollTimeout : error :=
  TimeoutErrorPtr 0 "long polling" "request timeout exceeded".

(** [err == errLongPollTimeout]: both sides are pointers to a
    [TimeoutError], equal when they point to the same struct. *)
Definition eq_errLongPollTimeout (err : error) : bool :=
  match err, errLongPollTimeout with
  | TimeoutErrorPtr addr _ _, TimeoutErrorPtr addr0 _ _ => Nat.eqb addr addr0
  | _, _ => false
  end.

(** ** The transport of [client] *)

(** [createTimeoutError]: [&TimeoutError{Op: op, Reason: reason}], a new
    struct. *)
Definition createTimeoutError (op reason : string) : M error :=
  fun w =>
    (TimeoutErrorPtr (S (allocs w)) op reason,
     {| allocs := S (allocs w); do_calls := do_calls w;
        selects := selects w; trace := trace w |}).

Definition requestReader (cl : client) (method path : string)
    (query : option Values) (reset : bool) (body : option RawMessage)
  : M (result ReadCloser) :=
  let query := default ∅ query in
  let query := if negb reset then Values_Set "access_token" (key cl) query else query in
  let query := Values_Set "v" (version cl) query in
  match env_NewRequest env method path query with
  | Some err => ret (Err (wrapError "failed to create request" err))
  | None =>
      resp <- httpClient_Do method path query body ;;
      match resp with
      | DoUrlError true _ =>
          err <- createTimeoutError (method ++ " " ++ path)
                   ("request timeout exceeded (" ++
                      Duration_String (httpClient_Timeout cl) ++ ")") ;;
          ret (Err err)
      | DoUrlError false msg | DoOtherError msg =>
          ret (Err (NetworkErrorPtr (method ++ " " ++ path) (foreignError msg)))
      | DoResponse StatusCode Body =>
          if negb (StatusCode =? StatusOK)%Z then
            let res :=
              match ReadAll Body with
              | Err _ => Err (HTTPStatusError StatusCode)
              | Ok data =>
                  match decode_Error data with
                  | Err _ => Err (HTTPStatusError StatusCode)
                  | Ok message => Err (APIErrorPtr StatusCode message)
                  end
              end in
            match Close Body with
            | Some closeErr => emit (EvCloseLog closeErr) ;;; ret res
            | None => ret res
            end
          else ret (Ok Body)
      end
  end.

(** [request]: [body] is nil, or a value with what [json.Marshal] gives on
    it. *)
Definition request (cl : client) (method path : string)
    (query : option Values) (reset : bool) (body : option (result RawMessage))
  : M (result ReadCloser) :=
  match body with
  | None => requestReader cl method path query reset None
  | Some (Err err) => ret (Err (SerializationErrorPtr "marshal" "request body" err))
  | Some (Ok data) => requestReader cl method path query reset (Some data)
  end.

(** ** Fetching updates *)

Record UpdatesParams : Type := {
  Limit : Z;
  Timeout : Duration;
  Marker : Z;
  Types : list string
}.

Definition zero_UpdatesParams : UpdatesParams :=
  {| Limit := 0; Timeout := 0; Marker := 0; Types := [] |}.

(** The query that [getUpdates] builds before it calls [request]. *)
Definition getUpdates_values (params : UpdatesParams) : Values :=
  let values : Values := ∅ in
  let values :=
    if 0 <? Limit params then Values_Set "limit" (pretty (Limit params)) values
    else values in
  let values :=
    if 0 <? Timeout params
    then Values_Set "timeout" (pretty (Seconds_int (Timeout params))) values
    else values in
  let values :=
    if 0 <? Marker params then Values_Set "marker" (pretty (Marker params)) values
    else values in
  fold_left (fun values t => Values_Add "types" t values) (Types params) values.

(** The deferred [body.Close()] of [getUpdates]. *)
Definition deferred_Close (body : ReadCloser) : M unit :=
  match Close body with
  | Some closeErr => emit (EvCloseLog closeErr)
  | None => ret tt
  end.

(** getUpdates fetches updates from the API. *)
Definition getUpdates (a : Api) (params : option UpdatesParams)
  : M (result UpdateList) :=
  let params := default zero_UpdatesParams params in
  let values := getUpdates_values params in
  r <- request (api_client a) MethodGet "updates" (Some values) false None ;;
  match r with
  | Err err =>
      if eq_errLongPollTimeout err then ret (Ok zero_UpdateList)
      else ret (Err (wrapError "failed to get updates" err))
  | Ok body =>
      match ReadAll body with
      | Err err =>
          deferred_Close body ;;;
          ret (Err (wrapError "failed to read response body" err))
      | Ok data =>
          match unmarshal_UpdateList data zero_UpdateList with
          | Err err =>
              deferred_Close body ;;;
              ret (Err (wrapError "failed to unmarshal updates" err))
          | Ok result => deferred_Close body ;;; ret (Ok result)
          end
      end
  end.

(** The [for attempt := ...] loop of [getUpdatesWithRetry] with [n]
    iterations still allowed by [attempt < maxRetries]. *)
Fixpoint retry_loop (a : Api) (params : option UpdatesParams) (n : nat)
    (attempt : Z) (lastErr : option error) : M (result UpdateList) :=
  match n with
  | O =>
      ret (Err (match lastErr with
                | Some err =>
                    wrapError ("failed after " ++ pretty maxRetries ++ " attempts") err
                | None =>
                    errorString ("failed after " ++ pretty maxRetries ++ " attempts: %!w(<nil>)")
                end))
  | S n' =>
      r <- getUpdates a params ;;
      match r with
      | Ok result => ret (Ok result)
      | Err lastErr =>
          if attempt <? maxRetries - 1 then
            let retryWait := Z.shiftl 1 attempt * Second in
            emit (EvRetryLog (attempt + 1) retryWait lastErr) ;;;
            done <- select_Done (EvAfter retryWait) ;;
            if done then ret (Err ctxErr)
            else retry_loop a params n' (attempt + 1) (Some lastErr)
          else retry_loop a params n' (attempt + 1) (Some lastErr)
      end
  end.

(** The waits between attempts, from attempt number [attempt] on, when
    [n] iterations are left and none succeeds. *)
Fixpoint backoff (attempt : Z) (n : nat) : list Duration :=
  match n with
  | O => []
  | S n' =>
      if attempt <? maxRetries - 1
      then Z.shiftl 1 attempt * Second :: backoff (attempt + 1) n'
      else backoff (attempt + 1) n'
  end.

(** The world after the log line and the elapsed wait of one retry. *)
Definition after_wait (attempt : Z) (lastErr : error) (w : World) : World :=
  snd (select_Done (EvAfter (Z.shiftl 1 attempt * Second))
         (snd (emit (EvRetryLog (attempt + 1) (Z.shiftl 1 attempt * Second) lastErr) w))).

Definition getUpdatesWithRetry (a : Api) (params : option UpdatesParams)
  : M (result UpdateList) :=
  let params := Some (default zero_UpdatesParams params) in
  retry_loop a params (Z.to_nat maxRetries) 0 None.

(** ** The retrieval loop of [GetUpdates] *)

(** The [for _, rawUpdate := range updateList.Updates] loop: true when it
    left the goroutine through [return]. *)
Fixpoint range_Updates (a : Api) (updates : list RawMessage) : M bool :=
  match updates with
  | [] => ret false
  | rawUpdate :: rest =>
      match bytesToProperUpdate a rawUpdate with
      | Err _ => range_Updates a rest (* continue *)
      | Ok update =>
          done <- select_Done (EvSend update) ;;
          if done then ret true else range_Updates a rest
      end
  end.

(** How one pass through the body of the inner [for] ends: at its end,
    with the marker for the next pass, by [break], or by [return]. *)
Inductive Flow : Type :=
| Next (marker : Z)
| Break
| Return.

(** The [&UpdatesParams{...}] built at the head of the inner [for]. *)
Definition GetUpdates_params (a : Api) (marker : Z) : UpdatesParams :=
  {| Limit := maxUpdatesLimit; Timeout := timeout a;
     Marker := marker; Types := [] |}.

Definition drain_once (a : Api) (marker : Z) : M Flow :=
  let params := GetUpdates_params a marker in
  r <- getUpdatesWithRetry a (Some params) ;;
  match r with
  | Err err => emit (EvFailedLog err) ;;; ret Break
  | Ok updateList =>
      if (length (UpdateList_Updates updateList) =? 0)%nat then ret Break
      else
        returned <- range_Updates a (UpdateList_Updates updateList) ;;
        if returned then ret Return
        else
          ret (Next (match UpdateList_Marker updateList with
                     | Some m => m
                     | None => marker
                     end))
  end.

(** Where the goroutine of [GetUpdates] stands: at the outer [select],
    at the head of the inner [for], or returned. *)
Inductive Phase : Type :=
| AtSelect
| AtDrain
| Stopped.

Record LoopState : Type := {
  phase : Phase;
  cursor : Z;
  world : World
}.

(** [var marker int64], before the first tick. *)
Definition GetUpdates_start (w : World) : LoopState :=
  {| phase := AtSelect; cursor := 0; world := w |}.

(** One move of the goroutine: the outer [select], or one pass through
    the body of the inner [for]. *)
Definition GetUpdates_step (a : Api) (s : LoopState) : LoopState :=
  match phase s with
  | Stopped => s
  | AtSelect =>
      let (done, w) := select_Done EvTick (world s) in
      if done then
        {| phase := Stopped; cursor := cursor s;
           world := snd (emit EvCloseChan w) |}
      else {| phase := AtDrain; cursor := cursor s; world := w |}
  | AtDrain =>
      let (flow, w) := drain_once a (cursor s) (world s) in
      match flow with
      | Next marker => {| phase := AtDrain; cursor := marker; world := w |}
      | Break => {| phase := AtSelect; cursor := cursor s; world := w |}
      | Return =>
          {| phase := Stopped; cursor := cursor s;
             world := snd (emit EvCloseChan w) |}
      end
  end.

(** The goroutine after [n] moves. *)
Definition GetUpdates_run (a : Api) (n : nat) (w : World) : LoopState :=
  Nat.iter n (GetUpdates_step a) (GetUpdates_start w).

(** ** The webhook handler *)

(** An inbound request: its method and what [io.ReadAll(r.Body)] gives. *)
Record Request : Type := {
  Method : string;
  Body : result RawMessage
}.

(** An open channel of updates as a sender finds it: the items sent on
    it so far, and how many more sends can proceed at once (the free slots
    of its buffer and the receivers parked on it; none for a nil
    channel). *)
Record Chan : Type := {
  chan_sent : list (UpdateInterface Fields);
  chan_room : nat
}.

(** [updates <- update] as a case of a [select]: the channel after the
    send when the send can proceed, [None] when it would block. *)
Definition chan_send (ch : Chan) (update : UpdateInterface Fields) : option Chan :=
  match chan_room ch with
  | S n => Some {| chan_sent := (chan_sent ch ++ [update])%list; chan_room := n |}
  | O => None
  end.

(** What the handler wrote to the [http.ResponseWriter]. *)
Record Response : Type := {
  StatusCode : Z;
  ResponseBody : string
}.

(** [http.Error(w, msg, code)]: the status, and the message on a line. *)
Definition http_Error (msg : string) (code : Z) : Response :=
  {| StatusCode := code;
     ResponseBody := msg ++ String (Ascii.ascii_of_nat 10) EmptyString |}.

(** GetHandler returns an http.HandlerFunc for webhook handling: the
    response written and the channel as the handler leaves it. *)
Definition GetHandler (a : Api) (updates : Chan) (r : Request) : Response * Chan :=
  if negb (String.eqb (Method r) MethodPost) then
    (http_Error "Method not allowed" StatusMethodNotAllowed, updates)
  else
    match Body r with
    | Err _ => (http_Error "Failed to read request body" StatusBadRequest, updates)
    | Ok body =>
        match bytesToProperUpdate a body with
        | Err _ => (http_Error "Failed to parse update" StatusBadRequest, updates)
        | Ok update =>
            match chan_send updates update with
            | Some updates' =>
                ({| StatusCode := StatusOK; ResponseBody := "" |}, updates')
            | None =>
                (http_Error "Updates channel is full" StatusServiceUnavailable, updates)
            end
        end
    end.
End Client.

Arguments EvDo {Fields} method path query body.
Arguments EvRetryLog {Fields} attempt retryWait lastErr.
Arguments EvFailedLog {Fields} err.
Arguments EvCloseLog {Fields} closeErr.
Arguments EvAfter {Fields} d.
Arguments EvTick {Fields}.
Arguments EvSend {Fields} update.
Arguments EvCtxDone {Fields}.
Arguments EvCloseChan {Fields}.

(** ** Reading a run *)

(** The waits that elapsed, the updates pushed on the channel and the
    queries sent, in order. *)
Definition waits {Fields} (tr : list (@Event Fields)) : list Duration :=
  omap (fun e => match e with EvAfter d => Some d | _ => None end) tr.

Definition sent {Fields} (tr : list (@Event Fields)) : list (UpdateInterface Fields) :=
  omap (fun e => match e with EvSend u => Some u | _ => None end) tr.

Definition queries {Fields} (tr : list (@Event Fields)) : list Values :=
  omap (fun e => match e with EvDo _ _ q _ => Some q | _ => None end) tr.

(** The batch that a [Do] outcome carries, when it is a 200 response
    whose body reads and decodes. *)
Definition outcome_batch `{W : Wire Fields} (o : DoOutcome) : option UpdateList :=
  match o with
  | DoResponse code body =>
      if code =? StatusOK then
        match ReadAll body with
        | Ok data =>
            match unmarshal_UpdateList data zero_UpdateList with
            | Ok l => Some l
            | Err _ => None
            end
        | Err _ => None
        end
      else None
  | _ => None
  end.

(** The marker that the endpoint reports in answer to the n-th call. *)
Definition response_marker `{W : Wire Fields} (env : Env) (n : nat) : option Z :=
  match outcome_batch (env_Do env n) with
  | Some l => UpdateList_Marker l
  | None => None
  end.

(** A failure of the transport or of the API that is not a request
    timeout: [Do] fails otherwise, or the status is not 200. *)
Definition other_failure (o : DoOutcome) : bool :=
  match o with
  | DoUrlError t _ => negb t
  | DoOtherError _ => true
  | DoResponse code _ => negb (code =? StatusOK)
  end.

(** The tag constant that [updateTypeMap] pairs with a Go type. *)
Definition update_tag `{W : Wire Fields} (t : UpdateGoType) : UpdateType :=
  match t with
  | TMessageCreatedUpdate => TypeMessageCreated
  | TMessageEditedUpdate => TypeMessageEdited
  | TPlain MessageCallbackUpdate => TypeMessageCallback
  | TPlain MessageRemovedUpdate => TypeMessageRemoved
  | TPlain BotAddedToChatUpdate => TypeBotAdded
  | TPlain BotRemovedFromChatUpdate => TypeBotRemoved
  | TPlain UserAddedToChatUpdate => TypeUserAdded
  | TPlain UserRemovedFromChatUpdate => TypeUserRemoved
  | TPlain BotStartedUpdate => TypeBotStarted
  | TPlain ChatTitleChangedUpdate => TypeChatTitleChanged
  end.

Definition update_tags `{W : Wire Fields} : list UpdateType :=
  [TypeMessageCallback; TypeMessageCreated; TypeMessageRemoved;
   TypeMessageEdited; TypeBotAdded; TypeBotRemoved; TypeUserAdded;
   TypeUserRemoved; TypeBotStarted; TypeChatTitleChanged].

Definition attachment_tags `{W : Wire Fields} : list AttachmentType :=
  [AttachmentAudio; AttachmentContact; AttachmentFile; AttachmentImage;
   AttachmentKeyboard; AttachmentLocation; AttachmentShare;
   AttachmentSticker; AttachmentVideo].

(** The message carried by an update, for the two variants that
    [processMessageAttachments] resolves. *)
Definition message_of {Fields} (u : UpdateInterface Fields) : option (Message Fields) :=
  match u with
  | MessageCreatedUpdate _ m | MessageEditedUpdate _ m => Some m
  | PlainUpdate _ _ _ => None
  end.

Definition raw_attachments {Fields} (u : UpdateInterface Fields) : list RawMessage :=
  match message_of u with
  | Some m => default [] (MessageBody_RawAttachments (Message_Body m))
  | None => []
  end.

Definition resolved_attachments {Fields} (u : UpdateInterface Fields)
  : list (AttachmentInterface Fields) :=
  match message_of u with
  | Some m => MessageBody_Attachments (Message_Body m)
  | None => []
  end.

Definition Message_with_Attachments {Fields} (m : Message Fields)
    (atts : list (AttachmentInterface Fields)) : Message Fields :=
  {| Message_Body :=
       {| MessageBody_RawAttachments := MessageBody_RawAttachments (Message_Body m);
          MessageBody_Attachments := atts;
          MessageBody_rest := MessageBody_rest (Message_Body m) |};
     Message_rest := Message_rest m |}.

(** The update with the resolved list of its body replaced, every other
    field kept. *)
Definition with_Attachments {Fields} (u : UpdateInterface Fields)
    (atts : list (AttachmentInterface Fields)) : UpdateInterface Fields :=
  match u with
  | MessageCreatedUpdate e m => MessageCreatedUpdate e (Message_with_Attachments m atts)
  | MessageEditedUpdate e m => MessageEditedUpdate e (Message_with_Attachments m atts)
  | PlainUpdate k e v => PlainUpdate k e v
  end.

(** The body with more attachments appended to its resolved list. *)
Definition append_Attachments {Fields} (body : MessageBody Fields)
    (atts : list (AttachmentInterface Fields)) : MessageBody Fields :=
  {| MessageBody_RawAttachments := MessageBody_RawAttachments body;
     MessageBody_Attachments := (MessageBody_Attachments body ++ atts)%list;
     MessageBody_rest := MessageBody_rest body |}.

(** The updates of a batch that decode, in the order of the batch. *)
Definition decoded `{W : Wire Fields} (a : Api) (updates : list RawMessage)
  : list (UpdateInterface Fields) :=
  omap (fun rawUpdate =>
          match bytesToProperUpdate a rawUpdate with
          | Ok update => Some update
          | Err _ => None
          end) updates.

(** The endpoint reports markers that never decrease, none below the
    zero at which the cursor starts. *)
Definition markers_nondecreasing `{W : Wire Fields} (env : Env) : Prop :=
  (forall i x, response_marker env i = Some x -> 0 <= x) /\
  (forall i j x y, (i <= j)%nat ->
     response_marker env i = Some x -> response_marker env j = Some y -> x <= y).

(** Every raw attachment decodes, to the attachment at the same place. *)
Definition all_decode `{W : Wire Fields} (a : Api) (raws : list RawMessage)
    (atts : list (AttachmentInterface Fields)) : Prop :=
  Forall2 (fun raw att => bytesToProperAttachment a raw = Ok att) raws atts.

(** ** A table-driven codec for examples

    A stand-in for [schemes] and [encoding/json] on a handful of named
    payloads, so that the definitions above can be run.  Each name stands
    for the JSON text described here; any other text is malformed.
    - [upd_bot_started]: an update with the tag bot_started;
    - [upd_created]: an update with the tag message_created whose body has
      three raw attachments, [att_image], [att_poll_a] and [att_image];
    - [upd_created_broken]: the same with [att_image_broken] in the second
      place;
    - [upd_edited_plain]: an update with the tag message_edited and no
      attachments;
    - [upd_poll]: an envelope with the tag poll_closed, which is not in
      [updateTypeMap];
    - [att_image]: an attachment with the tag image and a payload;
    - [att_image_broken]: the tag image with a payload that does not fit
      the struct of an image;
    - [att_poll_a], [att_poll_b]: two different texts with the tag poll,
      which is not in [attachmentTypeMap];
    - [list_two_5]: a response with the updates [upd_poll],
      [upd_bot_started] and the marker 5; [list_one_3],
      [list_one_nomarker], [list_empty_7] and [list_one_minus_1] likewise,
      with one or no update and the marker 3, none, 7 and -1. *)

Definition demo_unmarshal_Update (data : RawMessage) (u : Update) : result Update :=
  let tagged t :=
    Ok {| Update_UpdateType := t; Update_Timestamp := 1234567890;
          Update_DebugRaw := Update_DebugRaw u |} in
  if String.eqb data "upd_bot_started" then tagged "bot_started"
  else if String.eqb data "upd_created" then tagged "message_created"
  else if String.eqb data "upd_created_broken" then tagged "message_created"
  else if String.eqb data "upd_edited_plain" then tagged "message_edited"
  else if String.eqb data "upd_poll" then tagged "poll_closed"
  else Err (foreignError "unexpected end of JSON input").

Definition demo_Message (raws : option (list RawMessage)) (text : string)
  : Message string :=
  {| Message_Body := {| MessageBody_RawAttachments := raws;
                        MessageBody_Attachments := [];
                        MessageBody_rest := text |};
     Message_rest := "sender 100" |}.

Definition demo_unmarshal_Message (data : RawMessage) (um : Update * Message string)
  : result (Update * Message string) :=
  match demo_unmarshal_Update data (fst um) with
  | Err err => Err err
  | Ok u =>
      if String.eqb data "upd_created" then
        Ok (u, demo_Message (Some ["att_image"; "att_poll_a"; "att_image"]) "hello")
      else if String.eqb data "upd_created_broken" then
        Ok (u, demo_Message (Some ["att_image"; "att_image_broken"; "att_poll_a"]) "hello")
      else if String.eqb data "upd_edited_plain" then
        Ok (u, demo_Message None "edited")
      else Err (foreignError "cannot unmarshal")
  end.

Definition demo_unmarshal_PlainUpdate (k : PlainUpdateKind) (data : RawMessage)
    (uv : Update * string) : result (Update * string) :=
  match demo_unmarshal_Update data (fst uv) with
  | Err err => Err err
  | Ok u => Ok (u, "chat 1 user 100")
  end.

Definition demo_unmarshal_Attachment (data : RawMessage) (a : Attachment)
  : result Attachment :=
  if String.eqb data "att_image" then Ok {| Attachment_Type := "image" |}
  else if String.eqb data "att_image_broken" then Ok {| Attachment_Type := "image" |}
  else if String.eqb data "att_poll_a" then Ok {| Attachment_Type := "poll" |}
  else if String.eqb data "att_poll_b" then Ok {| Attachment_Type := "poll" |}
  else Err (foreignError "invalid character").

Definition demo_unmarshal_TypedAttachment (k : AttachmentKind) (data : RawMessage)
    (v : string) : result string :=
  if String.eqb data "att_image" then Ok "url img.jpg"
  else Err (foreignError "cannot unmarshal").

Definition demo_unmarshal_UpdateList (data : RawMessage) (l : UpdateList)
  : result UpdateList :=
  if String.eqb data "list_two_5" then
    Ok {| UpdateList_Updates := ["upd_poll"; "upd_bot_started"];
          UpdateList_Marker := Some 5 |}
  else if String.eqb data "list_one_3" then
    Ok {| UpdateList_Updates := ["upd_bot_started"]; UpdateList_Marker := Some 3 |}
  else if String.eqb data "list_one_nomarker" then
    Ok {| UpdateList_Updates := ["upd_bot_started"]; UpdateList_Marker := None |}
  else if String.eqb data "list_empty_7" then
    Ok {| UpdateList_Updates := []; UpdateList_Marker := Some 7 |}
  else if String.eqb data "list_one_minus_1" then
    Ok {| UpdateList_Updates := ["upd_bot_started"]; UpdateList_Marker := Some (-1) |}
  else Err (foreignError "invalid character").

#[local] Program Instance demo_Wire : Wire string := {|
  zero := "";
  TypeMessageCallback := "message_callback";
  TypeMessageCreated := "message_created";
  TypeMessageRemoved := "message_removed";
  TypeMessageEdited := "message_edited";
  TypeBotAdded := "bot_added";
  TypeBotRemoved := "bot_removed";
  TypeUserAdded := "user_added";
  TypeUserRemoved := "user_removed";
  TypeBotStarted := "bot_started";
  TypeChatTitleChanged := "chat_title_changed";
  AttachmentAudio := "audio";
  AttachmentContact := "contact";
  AttachmentFile := "file";
  AttachmentImage := "image";
  AttachmentKeyboard := "inline_keyboard";
  AttachmentLocation := "location";
  AttachmentShare := "share";
  AttachmentSticker := "sticker";
  AttachmentVideo := "video";
  unmarshal_Update := demo_unmarshal_Update;
  unmarshal_MessageCreatedUpdate := demo_unmarshal_Message;
  unmarshal_MessageEditedUpdate := demo_unmarshal_Message;
  unmarshal_PlainUpdate := demo_unmarshal_PlainUpdate;
  unmarshal_Attachment := demo_unmarshal_Attachment;
  unmarshal_TypedAttachment := demo_unmarshal_TypedAttachment;
  unmarshal_UpdateList := demo_unmarshal_UpdateList;
  decode_Error := fun data => Ok data;
  Seconds_int := fun d => d / Second;
  Duration_String := fun d => pretty (d / Second) ++ "s"
|}.
Next Obligation. by apply (bool_decide_unpack _). Qed.
Next Obligation. by apply (bool_decide_unpack _). Qed.

Definition demo_client : client :=
  {| key := "token"; version := "1.2.5"; httpClient_Timeout := 30 * Second |}.

Definition demo_Api : Api :=
  {| api_client := demo_client; timeout := 30 * Second; pause := Second;
     debug := false |}.

Definition demo_body (data : RawMessage) : ReadCloser :=
  {| ReadAll := Ok data; Close := None |}.

(** An environment from a list of [Do] outcomes (a network error once the
    list is used up) in which the context is never done. *)
Definition demo_Env (script : list DoOutcome) : Env :=
  {| env_Do := fun n => nth n script (DoOtherError "connection refused");
     env_Done := fun _ => false;
     env_NewRequest := fun _ _ _ => None |}.

Definition demo_created_constructor : string -> UpdateInterface string :=
  fun debugRaw => MessageCreatedUpdate (Update_with_DebugRaw debugRaw) zero_Message.

Definition demo_created_envelope : Update :=
  {| Update_UpdateType := "message_created"; Update_Timestamp := 1234567890;
     Update_DebugRaw := "" |}.

Definition demo_image : AttachmentInterface string :=
  TypedAttachment PhotoAttachment "url img.jpg".

Definition demo_poll : AttachmentInterface string :=
  BaseAttachment {| Attachment_Type := "poll" |}.

(** ** More ways to read a run and the tables *)

(** The tag constant that [attachmentTypeMap] pairs with a typed
    attachment struct. *)
Definition attachment_tag `{W : Wire Fields} (k : AttachmentKind) : AttachmentType :=
  match k with
  | AudioAttachment => AttachmentAudio
  | ContactAttachment => AttachmentContact
  | FileAttachment => AttachmentFile
  | PhotoAttachment => AttachmentImage
  | InlineKeyboardAttachment => AttachmentKeyboard
  | LocationAttachment => AttachmentLocation
  | ShareAttachment => AttachmentShare
  | StickerAttachment => AttachmentSticker
  | VideoAttachment => AttachmentVideo
  end.

(** How many times the channel was closed. *)
Definition closes {Fields} (tr : list (@Event Fields)) : nat :=
  length (omap (fun e => match e with EvCloseChan => Some tt | _ => None end) tr).

(** The updates that the n-th call of [Do] brought and that decode, in
    order; none when the call brought no batch. *)
Definition call_updates `{W : Wire Fields} (env : Env) (a : Api) (n : nat)
  : list (UpdateInterface Fields) :=
  match outcome_batch (env_Do env n) with
  | Some l => decoded a (UpdateList_Updates l)
  | None => []
  end.

(** The same for the calls numbered from [i] up to [j], [j] left out. *)
Definition fetched `{W : Wire Fields} (env : Env) (a : Api) (i j : nat)
  : list (UpdateInterface Fields) :=
  concat (map (call_updates env a) (seq i (j - i))).

(** The query that [requestReader] sends for a poll with the parameters
    [params]. *)
Definition poll_query `{W : Wire Fields} (a : Api) (params : UpdatesParams) : Values :=
  Values_Set "v" (version (api_client a))
    (Values_Set "access_token" (key (api_client a)) (getUpdates_values params)).

(** What a query of the retrieval loop carries: the limit of 50, no
    [types], the credentials of the client, the long-poll timeout when it
    is positive, and as [marker] a positive cursor [c] that is a marker
    reported by the endpoint ([c] zero: no [marker]). *)
Definition loop_query `{W : Wire Fields} (env : Env) (a : Api) (q : Values) : Prop :=
  q !! "limit" = Some ["50"] /\
  q !! "types" = None /\
  q !! "access_token" = Some [key (api_client a)] /\
  q !! "v" = Some [version (api_client a)] /\
  q !! "timeout"
  = (if 0 <? timeout a then Some [pretty (Seconds_int (timeout a))] else None) /\
  exists c,
    (c = 0 \/ exists k, response_marker env k = Some c) /\
    q !! "marker" = (if 0 <? c then Some [pretty c] else None).

(** ** Building a client: [newClient], [New], [NewWithConfig] *)

Definition defaultTimeout : Duration := 30 * Second.
Definition defaultPause : Duration := 1 * Second.
Definition defaultAPIURL : string := "https://botapi.max.ru/".
(** The constant [version] of api.go. *)
Definition const_version : string := "1.2.5".

(** A product of two [int64], as Go computes it: it wraps around. *)
Definition wrap_int64 (z : Z) : Z := (z + 2 ^ 63) mod 2 ^ 64 - 2 ^ 63.

(** [configservice.ConfigInterface], by what its methods return.  The
    interface is declared outside the embedded files; these are the six
    methods that [NewWithConfig] calls, each at most once. *)
Record Config : Type := {
  BotTokenCheckString : string;
  GetHttpBotAPITimeOut : Z;
  GetHttpBotAPIUrl : string;
  GetHttpBotAPIVersion : string;
  GetDebugLogMode : bool;
  GetDebugLogChat : Z
}.

(** The three errors of the two constructors: [fmt.Errorf("config is
    nil")], the package variable [ErrEmptyToken], and
    [fmt.Errorf("%w: %v", ErrInvalidURL, err)] with the error of
    [url.Parse]. *)
Inductive new_error : Type :=
| ConfigIsNil
| EmptyToken
| InvalidURL (cause : error).

Record debugs : Type := {
  debugs_client : client;
  chat : Z
}.

Record uploads : Type := { uploads_client : client }.
Record subscriptions : Type := { subscriptions_client : client }.

Definition newDebugs (cl : client) (chat : Z) : debugs :=
  {| debugs_client := cl; chat := chat |}.
Definition newUploads (cl : client) : uploads := {| uploads_client := cl |}.
Definition newSubscriptions (cl : client) : subscriptions :=
  {| subscriptions_client := cl |}.

Section Constructors.
(** [*url.URL], [url.Parse] and [os.Getenv]. *)
Variable URL : Type.
Variable url_Parse : string -> result URL.
Variable Getenv : string -> string.

(** What [newClient] returns: the client as the transport above reads it,
    and its [baseURL]. *)
Record client_at : Type := {
  the_client : client;
  baseURL : URL
}.

(** [newClient]; [httpClient] is nil, or points to an [http.Client] with
    the given [Timeout]. *)
Definition newClient (key version : string) (baseURL : URL)
    (httpClient : option Duration) : client_at :=
  let httpClient :=
    match httpClient with
    | None => defaultTimeout
    | Some t => t
    end in
  {| the_client := {| key := key; version := version;
                      httpClient_Timeout := httpClient |};
     baseURL := baseURL |}.

(** The [Api] that a constructor returns, with the base URL of its client
    and the sub-clients whose constructors are in the embedded files. *)
Record NewApi : Type := {
  new_Api : Api;
  new_baseURL : URL;
  new_Debugs : debugs;
  new_Uploads : uploads;
  new_Subscriptions : subscriptions
}.

(** New creates a new Max Bot API client with the provided token. *)
Definition New (token : string) : new_error + NewApi :=
  if String.eqb token "" then inl EmptyToken
  else
    match url_Parse defaultAPIURL with
    | Err err => inl (InvalidURL err)
    | Ok u =>
        let cl := newClient token const_version u (Some defaultTimeout) in
        inr {| new_Api := {| api_client := the_client cl;
                             timeout := defaultTimeout;
                             pause := defaultPause;
                             debug := false |};
               new_baseURL := baseURL cl;
               new_Debugs := newDebugs (the_client cl) 0;
               new_Uploads := newUploads (the_client cl);
               new_Subscriptions := newSubscriptions (the_client cl) |}
    end.

(** NewWithConfig creates a new Max Bot API client from configuration
    service; [cfg] is nil ([None]) or a configuration. *)
Definition NewWithConfig (cfg : option Config) : new_error + NewApi :=
  match cfg with
  | None => inl ConfigIsNil
  | Some cfg =>
      let token := BotTokenCheckString cfg in
      let token := if String.eqb token "" then Getenv "TOKEN" else token in
      if String.eqb token "" then inl EmptyToken
      else
        let timeout := wrap_int64 (GetHttpBotAPITimeOut cfg * Second) in
        let timeout := if timeout <=? 0 then defaultTimeout else timeout in
        let baseURL_ := GetHttpBotAPIUrl cfg in
        let baseURL_ := if String.eqb baseURL_ "" then defaultAPIURL else baseURL_ in
        match url_Parse baseURL_ with
        | Err err => inl (InvalidURL err)
        | Ok u =>
            let apiVersion := GetHttpBotAPIVersion cfg in
            let apiVersion :=
              if String.eqb apiVersion "" then const_version else apiVersion in
            let cl := newClient token apiVersion u (Some timeout) in
            inr {| new_Api := {| api_client := the_client cl;
                                 timeout := timeout;
                                 pause := defaultPause;
                                 debug := GetDebugLogMode cfg |};
                   new_baseURL := baseURL cl;
                   new_Debugs := newDebugs (the_client cl) (GetDebugLogChat cfg);
                   new_Uploads := newUploads (the_client cl);
                   new_Subscriptions := newSubscriptions (the_client cl) |}
        end
  end.

(** The configuration with the token set and no other setting. *)
Definition token_only (token : string) : Config :=
  {| BotTokenCheckString := token; GetHttpBotAPITimeOut := 0;
     GetHttpBotAPIUrl := ""; GetHttpBotAPIVersion := "";
     GetDebugLogMode := false; GetDebugLogChat := 0 |}.
End Constructors.

Arguments the_client {URL} _.
Arguments baseURL {URL} _.
Arguments new_Api {URL} _.
Arguments new_baseURL {URL} _.
Arguments new_Debugs {URL} _.
Arguments new_Uploads {URL} _.
Arguments new_Subscriptions {URL} _.
Arguments newClient {URL} key version baseURL httpClient.
Arguments New {URL} url_Parse token.
Arguments NewWithConfig {URL} url_Parse Getenv cfg.

(** ** Debug messages: debugs.go *)

(** [schemes.NewMessageBody], with the two fields that debugs.go reads
    and writes. *)
Record NewMessageBody (Fields : Type) : Type := {
  NewMessageBody_Text : string;
  NewMessageBody_BotToken : string;
  NewMessageBody_rest : Fields
}.
Arguments NewMessageBody_Text {Fields} _.
Arguments NewMessageBody_BotToken {Fields} _.
Arguments NewMessageBody_rest {Fields} _.
Arguments Build_NewMessageBody {Fields} _ _ _.

(** What debugs.go imports besides the transport: the struct
    [schemes.Error] with its field [Code], its decoding from a response
    body ([json.NewDecoder(body).Decode]), the marshalling of a message
    ([json.Marshal] in [request]), and the text of an error
    ([err.Error()]). *)
Class MessageWire (Fields : Type) : Type := {
  SchemesError : Type;
  Error_Code : SchemesError -> string;
  decode_SchemesError : RawMessage -> result SchemesError;
  marshal_NewMessageBody : NewMessageBody Fields -> result RawMessage;
  Error_text : error -> string
}.

(** The calls of [Do] of a run, each with its method, path, query and
    body. *)
Definition requests {Fields} (tr : list (@Event Fields))
  : list (string * string * Values * option RawMessage) :=
  omap (fun e => match e with
                 | EvDo method path q body => Some (method, path, q, body)
                 | _ => None
                 end) tr.

Section Debugs.
Context {Fields : Type} {W : Wire Fields} {MW : MessageWire Fields}.
Variable env : Env.

(** The [error] that [sendMessage] returns: an error of the transport or
    of the decoding, or the decoded [*schemes.Error] itself. *)
Inductive send_error : Type :=
| PlainError (err : error)
| ResultError (result : SchemesError).

(** [json.NewDecoder(body).Decode(result)] on a response body. *)
Definition Decode_SchemesError (body : ReadCloser) : result SchemesError :=
  match ReadAll body with
  | Err err => Err err
  | Ok data => decode_SchemesError data
  end.

(** The query that [sendMessage] builds before it calls [request];
    [int] is 64 bits wide, so [int(chatID)] is [chatID]. *)
Definition sendMessage_values (reset : bool) (chatID userID : Z)
    (message : NewMessageBody Fields) : Values :=
  let values : Values := ∅ in
  let values :=
    if negb (chatID =? 0) then Values_Set "chat_id" (pretty chatID) values
    else values in
  let values :=
    if negb (userID =? 0) then Values_Set "user_id" (pretty userID) values
    else values in
  let values :=
    if reset then Values_Set "access_token" (NewMessageBody_BotToken message) values
    else values in
  values.

Definition sendMessage (d : debugs) (vip reset : bool) (chatID userID : Z)
    (message : NewMessageBody Fields) : M (string * option send_error) :=
  let values := sendMessage_values reset chatID userID message in
  let mode := "messages" in
  let mode := if vip then "notify" else mode in
  bind (request env (debugs_client d) MethodPost mode (Some values) reset
          (Some (marshal_NewMessageBody message)))
    (fun r =>
       match r with
       | Err err => ret ("heir", Some (PlainError err))
       | Ok body =>
           match Decode_SchemesError body with
           | Err err =>
               (* Message sent without errors *)
               ret ("err", Some (PlainError err))
           | Ok result =>
               if String.eqb (Error_Code result) "" then
                 if String.eqb mode "notify" then ret ("ok", Some (ResultError result))
                 else ret ("", None)
               else ret ("", Some (ResultError result))
           end
       end).

(** [upd.GetDebugRaw()] *)
Definition GetDebugRaw (upd : UpdateInterface Fields) : string :=
  Update_DebugRaw (envelope upd).

(** Send sends a message to a chat. *)
Definition Send (d : debugs) (upd : UpdateInterface Fields)
  : M (string * option send_error) :=
  sendMessage d false false (chat d) 0
    {| NewMessageBody_Text := GetDebugRaw upd; NewMessageBody_BotToken := "";
       NewMessageBody_rest := zero |}.

Definition SendErr (d : debugs) (err : error) : M (string * option send_error) :=
  sendMessage d false false (chat d) 0
    {| NewMessageBody_Text := Error_text err; NewMessageBody_BotToken := "";
       NewMessageBody_rest := zero |}.
End Debugs.

Arguments PlainError {Fields MW} err.
Arguments ResultError {Fields MW} result.

(** A stand-in for the messages of the examples: a reply body is the code
    of the [schemes.Error] it carries, [ok] for the empty code; a message
    is marshalled to its text. *)
#[local] Instance demo_MessageWire : MessageWire string := {|
  SchemesError := string;
  Error_Code := fun code => code;
  decode_SchemesError := fun data =>
    if String.eqb data "ok" then Ok ""
    else if String.eqb data "not json" then Err (foreignError "invalid character")
    else Ok data;
  marshal_NewMessageBody := fun message => Ok (NewMessageBody_Text message);
  Error_text := fun _ => "error"
|}.

(** Stand-ins for [url.Parse] and [os.Getenv]: a text parses when it
    starts with http, and the variable TOKEN holds [env-token]. *)
Definition demo_url_Parse (text : string) : result string :=
  if String.prefix "http" text then Ok text
  else Err (foreignError "first path segment in URL cannot contain colon").

Definition demo_Getenv (name : string) : string :=
  if String.eqb name "TOKEN" then "env-token" else "".

(** An environment like [demo_Env] in which the context is done from the
    [n]-th [select] on. *)
Definition demo_Env_cancelled (script : list DoOutcome) (n : nat) : Env :=
  {| env_Do := fun k => nth k script (DoOtherError "connection refused");
     env_Done := fun k => (n <=? k)%nat;
     env_NewRequest := fun _ _ _ => None |}.

(** The configuration of the test of [NewWithConfig] in api_test.go. *)
Definition demo_Config : Config :=
  {| BotTokenCheckString := "test_token"; GetHttpBotAPITimeOut := 10;
     GetHttpBotAPIUrl := "https://test.com/"; GetHttpBotAPIVersion := "1.0";
     GetDebugLogMode := true; GetDebugLogChat := 123 |}.

Definition demo_debugs : debugs := newDebugs demo_client 123.

Definition demo_created : UpdateInterface string :=
  MessageCreatedUpdate demo_created_envelope (demo_Message None "hello").

(** * Properties *)

(** ** The two tag tables *)

Section DecoderFacts.
Context {Fields : Type} {W : Wire Fields}.

Lemma updateTypeMap_lookup (t : UpdateGoType) :
  exists constructor,
    updateTypeMap !! update_tag t = Some constructor /\
    forall debugRaw,
      TypeOf (constructor debugRaw) = t /\
      envelope (constructor debugRaw) = Update_with_DebugRaw debugRaw.
Proof.
  pose proof update_tags_NoDup as Hnd.
  destruct t as [| |k]; [| |destruct k]; eexists; (split;
    [apply elem_of_list_to_map_1; [exact Hnd |
       repeat first [apply list_elem_of_here | apply list_elem_of_further]]
    | intros debugRaw; split; reflexivity]).
Qed.

Lemma updateTypeMap_lookup_None (tag : UpdateType) :
  updateTypeMap !! tag = None <-> tag ∉ update_tags.
Proof. unfold updateTypeMap. rewrite <- not_elem_of_list_to_map. reflexivity. Qed.

Lemma updateTypeMap_lookup_Some (tag : UpdateType) constructor :
  updateTypeMap !! tag = Some constructor ->
  exists t, tag = update_tag t /\
    forall debugRaw,
      TypeOf (constructor debugRaw) = t /\
      envelope (constructor debugRaw) = Update_with_DebugRaw debugRaw.
Proof.
  intros Hl. exists (TypeOf (constructor "")).
  apply elem_of_list_to_map_2 in Hl.
  repeat (apply elem_of_cons in Hl; destruct Hl as [Hl|Hl];
          [injection Hl as -> ->; split; [reflexivity|];
           intros; split; reflexivity|]).
  by apply elem_of_nil in Hl.
Qed.

Lemma attachmentTypeMap_lookup_None (tag : AttachmentType) :
  attachmentTypeMap !! tag = None <-> tag ∉ attachment_tags.
Proof. unfold attachmentTypeMap. rewrite <- not_elem_of_list_to_map. reflexivity. Qed.

Lemma Unmarshal_update_TypeOf data (u v : UpdateInterface Fields) :
  Unmarshal_update data u = Ok v -> TypeOf v = TypeOf u.
Proof.
  destruct u as [e m|e m|k e f]; cbn;
    [destruct (unmarshal_MessageCreatedUpdate data (e, m)) as [[??]|]
    |destruct (unmarshal_MessageEditedUpdate data (e, m)) as [[??]|]
    |destruct (unmarshal_PlainUpdate k data (e, f)) as [[??]|]];
    intros [= <-]; reflexivity.
Qed.

End DecoderFacts.

(** ** Resolving the attachments of a message *)

Section ResolverFacts.
Context {Fields : Type} {W : Wire Fields}.
Implicit Types (a : Api) (body : MessageBody Fields) (m : Message Fields).
Implicit Types (atts : list (AttachmentInterface Fields)) (raws : list RawMessage).

Lemma append_Attachments_nil body : append_Attachments body [] = body.
Proof. destruct body. unfold append_Attachments. cbn. by rewrite app_nil_r. Qed.

Lemma append_Attachments_cons body att atts :
  append_Attachments (append_Attachment body att) atts
  = append_Attachments body (att :: atts).
Proof.
  unfold append_Attachments, append_Attachment. cbn.
  by rewrite <- app_assoc.
Qed.

(** The loop run on raw payloads that all decode appends the decoded
    attachments, in the order of the payloads, and returns no error. *)
Lemma range_RawAttachments_all a raws atts body :
  all_decode a raws atts ->
  range_RawAttachments a raws body = (append_Attachments body atts, None).
Proof.
  intros Hall. revert body.
  induction Hall as [|raw att raws atts Hraw _ IH]; intros body; cbn.
  - by rewrite append_Attachments_nil.
  - rewrite Hraw, IH. by rewrite append_Attachments_cons.
Qed.

(** The loop stops at the first payload that fails, with the error of that
    payload wrapped. *)
Lemma range_RawAttachments_first_failure a pre raw post atts err body :
  all_decode a pre atts ->
  bytesToProperAttachment a raw = Err err ->
  range_RawAttachments a (pre ++ raw :: post) body
  = (append_Attachments body atts,
     Some (wrapError "failed to process attachment" err)).
Proof.
  intros Hall Hraw. revert body.
  induction Hall as [|raw' att pre atts Hraw' _ IH]; intros body; cbn.
  - by rewrite Hraw, append_Attachments_nil.
  - rewrite Hraw', IH. by rewrite append_Attachments_cons.
Qed.

(** Either every payload decodes, or there is a first one that fails. *)
Lemma all_decode_or_first_failure a raws :
  (exists atts, all_decode a raws atts) \/
  (exists pre raw post atts err,
      raws = (pre ++ raw :: post)%list /\ all_decode a pre atts /\
      bytesToProperAttachment a raw = Err err).
Proof.
  induction raws as [|raw raws IH].
  - left. exists []. constructor.
  - destruct (bytesToProperAttachment a raw) as [att|err] eqn:Hraw.
    + destruct IH as [[atts Hall]|(pre & raw' & post & atts & err & -> & Hall & Hfail)].
      * left. exists (att :: atts). by constructor.
      * right. exists (raw :: pre), raw', post, (att :: atts), err.
        split; [reflexivity|]. split; [by constructor | assumption].
    + right. exists [], raw, raws, [], err.
      split; [reflexivity|]. split; [constructor | assumption].
Qed.

Lemma all_decode_no_failure a raws atts raw :
  all_decode a raws atts -> raw ∈ raws ->
  is_Ok (bytesToProperAttachment a raw) = true.
Proof.
  intros Hall. induction Hall as [|raw' att raws atts Hraw' _ IH]; intros Hin.
  - by apply elem_of_nil in Hin.
  - apply elem_of_cons in Hin as [->|Hin]; [by rewrite Hraw' | auto].
Qed.

Lemma all_decode_length a raws atts :
  all_decode a raws atts -> length atts = length raws.
Proof. intros Hall. symmetry. exact (Forall2_length _ _ _ Hall). Qed.

Lemma process_Message_all a m atts :
  all_decode a (default [] (MessageBody_RawAttachments (Message_Body m))) atts ->
  process_Message a m
  = (Message_with_Attachments m (MessageBody_Attachments (Message_Body m) ++ atts), None).
Proof.
  unfold process_Message.
  destruct m as [[[raws|] atts0 brest] rest]; cbn; intros Hall.
  - by rewrite (range_RawAttachments_all _ _ _ _ Hall).
  - inversion Hall; subst. unfold Message_with_Attachments; cbn.
    by rewrite app_nil_r.
Qed.

Lemma process_Message_first_failure a m pre raw post atts err :
  MessageBody_RawAttachments (Message_Body m) = Some (pre ++ raw :: post)%list ->
  all_decode a pre atts ->
  bytesToProperAttachment a raw = Err err ->
  snd (process_Message a m) = Some (wrapError "failed to process attachment" err).
Proof.
  intros Hraws Hall Hraw. unfold process_Message. rewrite Hraws.
  by rewrite (range_RawAttachments_first_failure _ _ _ _ _ _ _ Hall Hraw).
Qed.

Lemma processMessageAttachments_all a (update : UpdateInterface Fields) atts :
  all_decode a (raw_attachments update) atts ->
  processMessageAttachments a update
  = (with_Attachments update (resolved_attachments update ++ atts), None).
Proof.
  destruct update as [e m|e m|k e v]; cbn; intros Hall.
  - by rewrite (process_Message_all _ _ _ Hall).
  - by rewrite (process_Message_all _ _ _ Hall).
  - reflexivity.
Qed.

Lemma processMessageAttachments_first_failure a (update : UpdateInterface Fields)
    pre raw post atts err :
  raw_attachments update = (pre ++ raw :: post)%list ->
  all_decode a pre atts ->
  bytesToProperAttachment a raw = Err err ->
  snd (processMessageAttachments a update)
  = Some (wrapError "failed to process attachment" err).
Proof.
  intros Hraws Hall Hraw.
  assert (Hm : forall m,
             default [] (MessageBody_RawAttachments (Message_Body m))
             = (pre ++ raw :: post)%list ->
             snd (process_Message a m)
             = Some (wrapError "failed to process attachment" err)).
  { intros m Hm. apply (process_Message_first_failure _ _ pre raw post atts); auto.
    destruct (MessageBody_RawAttachments (Message_Body m)); cbn in Hm.
    - by rewrite Hm.
    - by destruct pre. }
  destruct update as [e m|e m|k e v]; cbn in *.
  - specialize (Hm m Hraws). by destruct (process_Message a m).
  - specialize (Hm m Hraws). by destruct (process_Message a m).
  - by destruct pre.
Qed.

End ResolverFacts.

(** ** The decoder *)

Section DecoderClaims.
Context {Fields : Type} {W : Wire Fields}.
Implicit Types (a : Api) (data : RawMessage).

(** C4, as the code has it.  When the envelope of an attachment payload
    decodes and its type tag is none of the nine tags of
    [attachmentTypeMap], [bytesToProperAttachment] returns no error and
    yields the fallback variant: the bare envelope as decoded from the
    payload, which holds the original tag and nothing else. *)
Theorem bytesToProperAttachment_unknown_tag a data (base : Attachment) :
  unmarshal_Attachment data zero_Attachment = Ok base ->
  GetAttachmentType base ∉ attachment_tags ->
  bytesToProperAttachment a data = Ok (BaseAttachment base) /\
  base = {| Attachment_Type := GetAttachmentType base |}.
Proof.
  intros Hbase Htag. unfold bytesToProperAttachment. rewrite Hbase.
  apply attachmentTypeMap_lookup_None in Htag. rewrite Htag.
  split; [reflexivity | by destruct base].
Qed.

(** C7.  For a message-created or message-edited update whose body
    carries N raw attachment payloads that all decode, the resolver
    returns no error and appends exactly N decoded attachments to the
    resolved list of the body, the i-th being the decoding of the i-th
    payload; an update of any other variant is returned as it came, with
    no error. *)
Theorem processMessageAttachments_in_order a (e : Update) (m : Message Fields)
    raws (atts : list (AttachmentInterface Fields)) :
  MessageBody_RawAttachments (Message_Body m) = Some raws ->
  all_decode a raws atts ->
  length atts = length raws /\
  processMessageAttachments a (MessageCreatedUpdate e m)
  = (MessageCreatedUpdate e
       (Message_with_Attachments m
          (MessageBody_Attachments (Message_Body m) ++ atts)), None) /\
  processMessageAttachments a (MessageEditedUpdate e m)
  = (MessageEditedUpdate e
       (Message_with_Attachments m
          (MessageBody_Attachments (Message_Body m) ++ atts)), None) /\
  forall k e' v,
    processMessageAttachments a (PlainUpdate k e' v) = (PlainUpdate k e' v, None).
Proof.
  intros Hraws Hall. split; [exact (all_decode_length _ _ _ Hall)|].
  assert (Hm : all_decode a
                 (default [] (MessageBody_RawAttachments (Message_Body m))) atts)
    by (by rewrite Hraws).
  repeat split.
  - exact (processMessageAttachments_all a (MessageCreatedUpdate e m) atts Hm).
  - exact (processMessageAttachments_all a (MessageEditedUpdate e m) atts Hm).
Qed.

(** Once the envelope and the typed struct are decoded, the outcome of
    [bytesToProperUpdate] is that of the resolver. *)
Lemma bytesToProperUpdate_stages a data base constructor (v : UpdateInterface Fields) :
  unmarshal_Update data zero_Update = Ok base ->
  updateTypeMap !! GetUpdateType base = Some constructor ->
  Unmarshal_update data (constructor (if debug a then data else "")) = Ok v ->
  bytesToProperUpdate a data
  = match processMessageAttachments a v with
    | (_, Some err) => Err (wrapError "failed to process message attachments" err)
    | (update, None) => Ok update
    end.
Proof.
  intros Hbase Hmap Htyped. unfold bytesToProperUpdate.
  by rewrite Hbase, Hmap, Htyped.
Qed.

(** What a successful [bytesToProperUpdate] went through. *)
Lemma bytesToProperUpdate_Ok_inv a data (u : UpdateInterface Fields) :
  bytesToProperUpdate a data = Ok u ->
  exists base constructor v,
    unmarshal_Update data zero_Update = Ok base /\
    updateTypeMap !! GetUpdateType base = Some constructor /\
    Unmarshal_update data (constructor (if debug a then data else "")) = Ok v /\
    processMessageAttachments a v = (u, None).
Proof.
  unfold bytesToProperUpdate.
  destruct (unmarshal_Update data zero_Update) as [base|] eqn:Hbase; [|done].
  destruct (updateTypeMap !! GetUpdateType base) as [constructor|] eqn:Hmap; [|done].
  destruct (Unmarshal_update data _) as [v|] eqn:Htyped; [|done].
  destruct (processMessageAttachments a v) as [u' [err|]] eqn:Hproc; [done|].
  intros [= <-]. by exists base, constructor, v.
Qed.

Lemma processMessageAttachments_TypeOf a (v : UpdateInterface Fields) :
  TypeOf (fst (processMessageAttachments a v)) = TypeOf v.
Proof.
  destruct v as [e m|e m|k e f]; cbn; [destruct (process_Message a m)..|]; reflexivity.
Qed.

Lemma with_Attachments_TypeOf (v : UpdateInterface Fields) atts :
  TypeOf (with_Attachments v atts) = TypeOf v.
Proof. by destruct v. Qed.

(** The tag of the envelope is the tag that [updateTypeMap] pairs with the
    Go type of the decoded update. *)
Lemma bytesToProperUpdate_tag_matches a data (u : UpdateInterface Fields) :
  bytesToProperUpdate a data = Ok u ->
  exists base,
    unmarshal_Update data zero_Update = Ok base /\
    GetUpdateType base = update_tag (TypeOf u).
Proof.
  intros (base & constructor & v & Hbase & Hmap & Htyped & Hproc)%bytesToProperUpdate_Ok_inv.
  exists base. split; [assumption|].
  destruct (updateTypeMap_lookup_Some _ _ Hmap) as (t & -> & Ht).
  f_equal. pose proof (processMessageAttachments_TypeOf a v) as Hty.
  rewrite Hproc in Hty. cbn in Hty. rewrite Hty.
  rewrite (Unmarshal_update_TypeOf _ _ _ Htyped). symmetry. apply Ht.
Qed.

Lemma bytesToProperUpdate_decodes a (t : UpdateGoType) data base constructor
    (v : UpdateInterface Fields) atts :
  unmarshal_Update data zero_Update = Ok base ->
  GetUpdateType base = update_tag t ->
  updateTypeMap !! update_tag t = Some constructor ->
  Unmarshal_update data (constructor (if debug a then data else "")) = Ok v ->
  all_decode a (raw_attachments v) atts ->
  bytesToProperUpdate a data
  = Ok (with_Attachments v (resolved_attachments v ++ atts)) /\
  TypeOf (with_Attachments v (resolved_attachments v ++ atts)) = t.
Proof.
  intros Hbase Htag Hmap Htyped Hall. split.
  - rewrite <- Htag in Hmap.
    rewrite (bytesToProperUpdate_stages _ _ _ _ _ Hbase Hmap Htyped).
    by rewrite (processMessageAttachments_all _ _ _ Hall).
  - rewrite with_Attachments_TypeOf, (Unmarshal_update_TypeOf _ _ _ Htyped).
    destruct (updateTypeMap_lookup t) as (c & Hc & Ht).
    assert (c = constructor) as -> by congruence. apply Ht.
Qed.

(** C5.  Every Go type [t] of the closed update set has its tag in
    [updateTypeMap].  When the envelope of a payload bears that tag and the
    payload is well formed (it decodes into the struct of that type, to
    [v], and the raw attachments of [v] decode), [bytesToProperUpdate]
    succeeds with an update of type [t] whose fields are those of [v], the
    resolved attachments appended.  And whenever [bytesToProperUpdate]
    succeeds, the tag on the envelope is the tag of the type of the update
    it returns. *)
Theorem bytesToProperUpdate_closed_set a :
  (forall (t : UpdateGoType), exists constructor,
      updateTypeMap (Fields := Fields) !! update_tag t = Some constructor) /\
  (forall (t : UpdateGoType) data base constructor (v : UpdateInterface Fields) atts,
      unmarshal_Update data zero_Update = Ok base ->
      GetUpdateType base = update_tag t ->
      updateTypeMap !! update_tag t = Some constructor ->
      Unmarshal_update data (constructor (if debug a then data else "")) = Ok v ->
      all_decode a (raw_attachments v) atts ->
      bytesToProperUpdate a data
      = Ok (with_Attachments v (resolved_attachments v ++ atts)) /\
      TypeOf (with_Attachments v (resolved_attachments v ++ atts)) = t) /\
  (forall data (u : UpdateInterface Fields),
      bytesToProperUpdate a data = Ok u ->
      exists base,
        unmarshal_Update data zero_Update = Ok base /\
        GetUpdateType base = update_tag (TypeOf u)).
Proof.
  split; [|split].
  - intros t. destruct (updateTypeMap_lookup t) as (c & Hc & _). by exists c.
  - intros. by eapply bytesToProperUpdate_decodes.
  - intros. by eapply bytesToProperUpdate_tag_matches.
Qed.

(** C8.  Take a payload whose envelope and typed struct decode, to [v].
    Either every raw attachment of [v] decodes and the whole update is
    returned with all of them resolved, or [bytesToProperUpdate] fails
    with the error of the first raw attachment that does not decode,
    wrapped twice with context; and if any raw attachment of [v] fails to
    decode, the result is an error.  No update with a part of its
    attachments resolved is returned. *)
Theorem bytesToProperUpdate_all_or_nothing a data base constructor
    (v : UpdateInterface Fields) :
  unmarshal_Update data zero_Update = Ok base ->
  updateTypeMap !! GetUpdateType base = Some constructor ->
  Unmarshal_update data (constructor (if debug a then data else "")) = Ok v ->
  ((exists atts,
       all_decode a (raw_attachments v) atts /\
       bytesToProperUpdate a data
       = Ok (with_Attachments v (resolved_attachments v ++ atts)))
   \/
   (exists pre raw post atts err,
       raw_attachments v = (pre ++ raw :: post)%list /\
       all_decode a pre atts /\
       bytesToProperAttachment a raw = Err err /\
       bytesToProperUpdate a data
       = Err (wrapError "failed to process message attachments"
                (wrapError "failed to process attachment" err))))
  /\
  (forall raw,
      raw ∈ raw_attachments v ->
      is_Ok (bytesToProperAttachment a raw) = false ->
      is_Ok (bytesToProperUpdate a data) = false).
Proof.
  intros Hbase Hmap Htyped.
  pose proof (bytesToProperUpdate_stages _ _ _ _ _ Hbase Hmap Htyped) as Hst.
  assert (Hdich :
    (exists atts,
        all_decode a (raw_attachments v) atts /\
        bytesToProperUpdate a data
        = Ok (with_Attachments v (resolved_attachments v ++ atts)))
    \/
    (exists pre raw post atts err,
        raw_attachments v = (pre ++ raw :: post)%list /\
        all_decode a pre atts /\
        bytesToProperAttachment a raw = Err err /\
        bytesToProperUpdate a data
        = Err (wrapError "failed to process message attachments"
                 (wrapError "failed to process attachment" err)))).
  { destruct (all_decode_or_first_failure a (raw_attachments v))
      as [[atts Hall]|(pre & raw & post & atts & err & Hraws & Hall & Hfail)].
    - left. exists atts. split; [assumption|].
      by rewrite Hst, (processMessageAttachments_all _ _ _ Hall).
    - right. exists pre, raw, post, atts, err. repeat (split; [assumption|]).
      pose proof (processMessageAttachments_first_failure
                    _ _ _ _ _ _ _ Hraws Hall Hfail) as Hsnd.
      rewrite Hst. destruct (processMessageAttachments a v) as [u' o].
      cbn in Hsnd. by subst o. }
  split; [exact Hdich|].
  intros raw Hin Hraw.
  destruct Hdich as [(atts & Hall & _)|(pre & raw' & post & atts & err & _ & _ & _ & ->)].
  - pose proof (all_decode_no_failure _ _ _ _ Hall Hin) as Hok. congruence.
  - reflexivity.
Qed.

End DecoderClaims.

(** ** The decoder on the example codec *)

(** C4 as stated fails: the fallback variant does not keep the raw bytes.
    No function can recover the payload from what
    [bytesToProperAttachment] returns, since two different payloads with
    the same unknown tag give the same fallback value. *)
Lemma bytesToProperAttachment_forgets_bytes :
  ~ (exists raw_of : AttachmentInterface string -> RawMessage,
        forall data base,
          unmarshal_Attachment data zero_Attachment = Ok base ->
          GetAttachmentType base ∉ attachment_tags ->
          exists att,
            bytesToProperAttachment demo_Api data = Ok att /\ raw_of att = data).
Proof.
  intros [raw_of H].
  assert (Htag : GetAttachmentType {| Attachment_Type := "poll" |}
                 ∉ attachment_tags (W := demo_Wire))
    by (by apply (bool_decide_unpack _)).
  destruct (H "att_poll_a" {| Attachment_Type := "poll" |} eq_refl Htag)
    as (att1 & E1 & R1).
  destruct (H "att_poll_b" {| Attachment_Type := "poll" |} eq_refl Htag)
    as (att2 & E2 & R2).
  vm_compute in E1, E2. injection E1 as <-. injection E2 as <-.
  rewrite R1 in R2. discriminate R2.
Qed.

(** The fallback on an example: the tag poll is in no table, and the
    payload comes back as the bare envelope with that tag. *)
Lemma bytesToProperAttachment_unknown_tag_witness :
  unmarshal_Attachment "att_poll_a" zero_Attachment
  = Ok {| Attachment_Type := "poll" |} /\
  (GetAttachmentType {| Attachment_Type := "poll" |}
     ∉ attachment_tags (W := demo_Wire)) /\
  bytesToProperAttachment demo_Api "att_poll_a"
  = Ok (BaseAttachment {| Attachment_Type := "poll" |}).
Proof.
  assert (Hbase : unmarshal_Attachment "att_poll_a" zero_Attachment
                  = Ok {| Attachment_Type := "poll" |}) by reflexivity.
  assert (Htag : GetAttachmentType {| Attachment_Type := "poll" |}
                 ∉ attachment_tags (W := demo_Wire))
    by (apply (bool_decide_unpack _); vm_compute; exact I).
  split; [exact Hbase|]. split; [exact Htag|].
  exact (proj1 (bytesToProperAttachment_unknown_tag
                  demo_Api "att_poll_a" _ Hbase Htag)).
Defined.

(** Three raw attachments, the second with an unknown tag, resolve to
    three attachments in the same order. *)
Lemma processMessageAttachments_in_order_witness :
  let m := demo_Message (Some ["att_image"; "att_poll_a"; "att_image"]) "hello" in
  let atts := [demo_image; demo_poll; demo_image] in
  length atts = 3%nat /\
  processMessageAttachments demo_Api (MessageCreatedUpdate demo_created_envelope m)
  = (MessageCreatedUpdate demo_created_envelope (Message_with_Attachments m atts),
     None).
Proof.
  intros m atts.
  assert (Hall : all_decode demo_Api ["att_image"; "att_poll_a"; "att_image"] atts)
    by (repeat constructor).
  destruct (processMessageAttachments_in_order
              demo_Api demo_created_envelope m _ atts eq_refl Hall)
    as (Hlen & Hcreated & _).
  split; [exact Hlen | exact Hcreated].
Defined.

(** A message-created payload decodes to a message-created update with
    its three attachments resolved, and its envelope bears that tag. *)
Lemma bytesToProperUpdate_closed_set_witness :
  let v := MessageCreatedUpdate demo_created_envelope
             (demo_Message (Some ["att_image"; "att_poll_a"; "att_image"]) "hello") in
  let atts := [demo_image; demo_poll; demo_image] in
  bytesToProperUpdate demo_Api "upd_created" = Ok (with_Attachments v atts) /\
  TypeOf (with_Attachments v atts) = TMessageCreatedUpdate /\
  exists base,
    unmarshal_Update "upd_created" zero_Update = Ok base /\
    GetUpdateType base = TypeMessageCreated.
Proof.
  intros v atts.
  destruct (bytesToProperUpdate_closed_set (W := demo_Wire) demo_Api)
    as (_ & Hdecodes & Hmatches).
  assert (Hall : all_decode demo_Api (raw_attachments v) atts)
    by (repeat constructor).
  destruct (Hdecodes TMessageCreatedUpdate "upd_created" demo_created_envelope
              demo_created_constructor v atts
              eq_refl eq_refl eq_refl eq_refl Hall) as [Hres Hty].
  split; [exact Hres|]. split; [exact Hty|].
  exact (Hmatches "upd_created" _ Hres).
Defined.

(** A message-created payload whose second raw attachment does not
    decode is rejected as a whole. *)
Lemma bytesToProperUpdate_all_or_nothing_witness :
  let v := MessageCreatedUpdate demo_created_envelope
             (demo_Message (Some ["att_image"; "att_image_broken"; "att_poll_a"])
                "hello") in
  unmarshal_Update "upd_created_broken" zero_Update = Ok demo_created_envelope /\
  updateTypeMap !! GetUpdateType demo_created_envelope
  = Some demo_created_constructor /\
  Unmarshal_update "upd_created_broken" (demo_created_constructor "") = Ok v /\
  is_Ok (bytesToProperAttachment demo_Api "att_image_broken") = false /\
  is_Ok (bytesToProperUpdate demo_Api "upd_created_broken") = false.
Proof.
  intros v.
  assert (Hbase : unmarshal_Update "upd_created_broken" zero_Update
                  = Ok demo_created_envelope) by reflexivity.
  assert (Hmap : updateTypeMap !! GetUpdateType demo_created_envelope
                 = Some demo_created_constructor) by reflexivity.
  assert (Htyped : Unmarshal_update "upd_created_broken"
                     (demo_created_constructor
                        (if debug demo_Api then "upd_created_broken" else ""))
                   = Ok v) by reflexivity.
  assert (Hraw : is_Ok (bytesToProperAttachment demo_Api "att_image_broken") = false)
    by reflexivity.
  repeat (split; [assumption|]).
  refine (proj2 (bytesToProperUpdate_all_or_nothing
                   demo_Api "upd_created_broken" _ _ v Hbase Hmap Htyped)
                "att_image_broken" _ Hraw).
  apply list_elem_of_further, list_elem_of_here.
Defined.

(** ** The transport and one fetch *)

Ltac run_M :=
  unfold getUpdates, request, requestReader, httpClient_Do, createTimeoutError,
    deferred_Close, select_Done, emit, bind, ret in *; cbn in *.

Section FetchFacts.
Context {Fields : Type} {W : Wire Fields}.
Variable env : Env.
Implicit Types (a : Api) (w : World (Fields := Fields)).

(** No error that [request] returns is the pointer [errLongPollTimeout]:
    a timeout is reported through a struct that [createTimeoutError]
    allocates anew. *)
Lemma request_never_errLongPollTimeout (cl : client) method path query reset body w err w' :
  request env cl method path query reset body w = (Err err, w') ->
  eq_errLongPollTimeout err = false.
Proof.
  destruct body as [[data|e]|]; run_M.
  2: { intros [= <- <-]. reflexivity. }
  all: destruct (env_NewRequest env _ _ _); [intros [= <- <-]; reflexivity|];
    destruct (env_Do env (do_calls w)) as [[|] msg|msg|code rbody]; cbn;
    try (intros [= <- <-]; reflexivity);
    destruct (negb (code =? StatusOK)); [|discriminate];
    destruct (ReadAll rbody) as [d|]; [destruct (decode_Error d)|];
    destruct (Close rbody); cbn; intros [= <- <-]; reflexivity.
Qed.

(** What one fetch does to the world, whatever it returns. *)
Lemma getUpdates_world a params w :
  let w' := snd (getUpdates env a params w) in
  selects w' = selects w /\
  waits (trace w') = waits (trace w) /\
  sent (trace w') = sent (trace w) /\
  (do_calls w <= do_calls w' <= S (do_calls w))%nat.
Proof.
  run_M. destruct (env_NewRequest env _ _ _); cbn; [repeat split; lia|].
  destruct (env_Do env (do_calls w)) as [[|] msg|msg|code rbody]; cbn;
    unfold waits, sent; rewrite ?omap_app; cbn; rewrite ?app_nil_r;
    try (repeat split; lia).
  destruct (negb (code =? StatusOK)).
  - destruct (ReadAll rbody) as [d|]; [destruct (decode_Error d)|];
      destruct (Close rbody); cbn; rewrite ?omap_app; cbn; rewrite ?app_nil_r;
      repeat split; lia.
  - cbn. destruct (ReadAll rbody) as [d|];
      [destruct (unmarshal_UpdateList d zero_UpdateList)|];
      destruct (Close rbody); cbn; rewrite ?omap_app; cbn; rewrite ?app_nil_r;
      repeat split; lia.
Qed.

(** A fetch that returns a batch made one call, and the batch is the one
    that the outcome of that call carries. *)
Lemma getUpdates_Ok_inv a params w l w' :
  getUpdates env a params w = (Ok l, w') ->
  do_calls w' = S (do_calls w) /\
  outcome_batch (env_Do env (do_calls w)) = Some l.
Proof.
  run_M. destruct (env_NewRequest env _ _ _); cbn; [discriminate|].
  unfold outcome_batch.
  destruct (env_Do env (do_calls w)) as [[|] msg|msg|code rbody]; cbn;
    try discriminate.
  destruct (code =? StatusOK); cbn.
  - destruct (ReadAll rbody) as [d|];
      [destruct (unmarshal_UpdateList d zero_UpdateList)|];
      destruct (Close rbody); cbn; intros [= <- <-]; cbn; auto.
  - destruct (ReadAll rbody) as [d|]; [destruct (decode_Error d)|];
      destruct (Close rbody); cbn; discriminate.
Qed.

(** A fetch whose request is accepted makes one call and returns what the
    outcome of that call carries: its batch, or an error. *)
Lemma getUpdates_spec a params w :
  (forall method path query, env_NewRequest env method path query = None) ->
  exists r w',
    getUpdates env a params w = (r, w') /\
    do_calls w' = S (do_calls w) /\
    selects w' = selects w /\
    waits (trace w') = waits (trace w) /\
    match outcome_batch (env_Do env (do_calls w)) with
    | Some l => r = Ok l
    | None => exists err, r = Err (wrapError "failed to get updates" err)
              \/ r = Err (wrapError "failed to read response body" err)
              \/ r = Err (wrapError "failed to unmarshal updates" err)
    end.
Proof.
  intros Hnew.
  destruct (getUpdates env a params w) as [r w'] eqn:Hget. exists r, w'.
  split; [reflexivity|].
  pose proof (getUpdates_world a params w) as Hw. rewrite Hget in Hw. cbn in Hw.
  destruct Hw as (Hsel & Hwaits & _ & _).
  assert (Hcalls : do_calls w' = S (do_calls w) /\
    match outcome_batch (env_Do env (do_calls w)) with
    | Some l => r = Ok l
    | None => exists err, r = Err (wrapError "failed to get updates" err)
              \/ r = Err (wrapError "failed to read response body" err)
              \/ r = Err (wrapError "failed to unmarshal updates" err)
    end).
  { clear Hsel Hwaits. revert Hget. run_M. rewrite Hnew. unfold outcome_batch.
    destruct (env_Do env (do_calls w)) as [[|] msg|msg|code rbody]; cbn;
      try (intros [= <- <-]; cbn; eauto).
    destruct (code =? StatusOK); cbn.
    - destruct (ReadAll rbody) as [d|e];
        [destruct (unmarshal_UpdateList d zero_UpdateList) as [l|e]|];
        destruct (Close rbody); cbn; intros [= <- <-]; cbn; eauto 6.
    - destruct (ReadAll rbody) as [d|e]; [destruct (decode_Error d)|];
        destruct (Close rbody); cbn; intros [= <- <-]; cbn; eauto. }
  tauto.
Qed.

(** A request timeout at the transport comes back from [getUpdates] as an
    error: the [TimeoutError] that [requestReader] allocated, wrapped. *)
Lemma getUpdates_request_timeout a params w msg :
  (forall method path query, env_NewRequest env method path query = None) ->
  env_Do env (do_calls w) = DoUrlError true msg ->
  fst (getUpdates env a params w)
  = Err (wrapError "failed to get updates"
           (TimeoutErrorPtr (S (allocs w)) "GET updates"
              ("request timeout exceeded (" ++
                 Duration_String (httpClient_Timeout (api_client a)) ++ ")"))) /\
  allocs (snd (getUpdates env a params w)) = S (allocs w).
Proof.
  intros Hnew Hdo. run_M. rewrite Hnew, Hdo. cbn. split; reflexivity.
Qed.

End FetchFacts.

(** ** Retrying a fetch *)

Section RetryFacts.
Context {Fields : Type} {W : Wire Fields}.
Variable env : Env.
Implicit Types (a : Api) (w : World (Fields := Fields)).

Lemma retry_loop_Ok a params n attempt lastErr w l w1 :
  getUpdates env a params w = (Ok l, w1) ->
  retry_loop env a params (S n) attempt lastErr w = (Ok l, w1).
Proof. intros Hget. cbn. unfold bind. by rewrite Hget. Qed.

Lemma retry_loop_Err_wait a params n attempt lastErr w err w1 :
  getUpdates env a params w = (Err err, w1) ->
  (attempt <? maxRetries - 1) = true ->
  env_Done env (selects w1) = false ->
  retry_loop env a params (S n) attempt lastErr w
  = retry_loop env a params n (attempt + 1) (Some err) (after_wait env attempt err w1).
Proof.
  intros Hget Hlt Hdone. cbn [retry_loop]. unfold bind at 1. rewrite Hget, Hlt.
  unfold after_wait, bind, select_Done, emit. cbn. by rewrite Hdone.
Qed.

Lemma retry_loop_Err_cancelled a params n attempt lastErr w err w1 :
  getUpdates env a params w = (Err err, w1) ->
  (attempt <? maxRetries - 1) = true ->
  env_Done env (selects w1) = true ->
  retry_loop env a params (S n) attempt lastErr w
  = (Err ctxErr, after_wait env attempt err w1).
Proof.
  intros Hget Hlt Hdone. cbn [retry_loop]. unfold bind at 1. rewrite Hget, Hlt.
  unfold after_wait, bind, select_Done, emit. cbn. by rewrite Hdone.
Qed.

Lemma after_wait_cancelled attempt lastErr w :
  env_Done env (selects w) = true ->
  do_calls (after_wait env attempt lastErr w) = do_calls w /\
  waits (trace (after_wait env attempt lastErr w)) = waits (trace w).
Proof.
  intros Hdone. unfold after_wait, select_Done, emit. cbn. rewrite Hdone.
  unfold waits. rewrite !omap_app. cbn. by rewrite !app_nil_r.
Qed.

Lemma retry_loop_Err_last a params n attempt lastErr w err w1 :
  getUpdates env a params w = (Err err, w1) ->
  (attempt <? maxRetries - 1) = false ->
  retry_loop env a params (S n) attempt lastErr w
  = retry_loop env a params n (attempt + 1) (Some err) w1.
Proof.
  intros Hget Hlt. cbn [retry_loop]. unfold bind at 1. by rewrite Hget, Hlt.
Qed.

(** Whatever the transport and the context do, the loop with [n]
    iterations left makes at most [n] calls of [Do], and the waits that
    elapse in it are the first few of [backoff attempt n]. *)
Lemma retry_loop_bounds a params n attempt lastErr w r w' :
  retry_loop env a params n attempt lastErr w = (r, w') ->
  (do_calls w <= do_calls w' <= n + do_calls w)%nat /\
  exists ws,
    waits (trace w') = (waits (trace w) ++ ws)%list /\
    ws `prefix_of` backoff attempt n.
Proof.
  revert attempt lastErr w. induction n as [|n IH]; intros attempt lastErr w.
  - cbn. unfold ret. intros [= <- <-]. split; [lia|].
    exists []. by rewrite app_nil_r.
  - cbn [retry_loop backoff]. unfold bind at 1.
    pose proof (getUpdates_world env a params w) as (_ & Hw1 & _ & Hc1).
    destruct (getUpdates env a params w) as [[l|e1] w1]; cbn in Hw1, Hc1.
    { unfold ret. intros [= <- <-]. split; [lia|].
      exists []. rewrite app_nil_r. split; [done | apply prefix_nil]. }
    destruct (attempt <? maxRetries - 1).
    + unfold bind at 1, emit at 1. unfold bind at 1, select_Done at 1.
      cbn [selects trace].
      destruct (env_Done env (selects w1)).
      { unfold ret. intros [= <- <-]. cbn. split; [lia|].
        exists []. unfold waits in *. rewrite !omap_app. cbn.
        rewrite !app_nil_r. split; [done | apply prefix_nil]. }
      intros Hrec. apply IH in Hrec as [Hc (ws & Hws & Hpre)]. cbn in Hc.
      split; [lia|]. exists (Z.shiftl 1 attempt * Second :: ws). split.
      * rewrite Hws. unfold waits in *. cbn. rewrite !omap_app. cbn.
        rewrite app_nil_r, Hw1, <- app_assoc. reflexivity.
      * by apply prefix_cons.
    + intros Hrec. apply IH in Hrec as [Hc (ws & Hws & Hpre)].
      split; [lia|]. exists ws. split; [by rewrite Hws, Hw1 | exact Hpre].
Qed.

(** One call of [getUpdatesWithRetry] makes at most three calls of [Do],
    and the waits that elapse in it are none, 1s, or 1s and then 2s. *)
Lemma getUpdatesWithRetry_bounds a params w r w' :
  getUpdatesWithRetry env a params w = (r, w') ->
  (do_calls w <= do_calls w' <= 3 + do_calls w)%nat /\
  exists ws,
    waits (trace w') = (waits (trace w) ++ ws)%list /\
    ws `prefix_of` [Second; 2 * Second].
Proof.
  unfold getUpdatesWithRetry. cbn zeta. intros Hr.
  exact (retry_loop_bounds a _ _ _ _ _ _ _ Hr).
Qed.

Lemma after_wait_world attempt lastErr w :
  env_Done env (selects w) = false ->
  do_calls (after_wait env attempt lastErr w) = do_calls w /\
  selects (after_wait env attempt lastErr w) = S (selects w) /\
  allocs (after_wait env attempt lastErr w) = allocs w /\
  waits (trace (after_wait env attempt lastErr w))
  = (waits (trace w) ++ [Z.shiftl 1 attempt * Second])%list.
Proof.
  intros Hdone. unfold after_wait, select_Done, emit. cbn. rewrite Hdone.
  unfold waits. rewrite !omap_app. cbn. by rewrite app_nil_r.
Qed.

End RetryFacts.

Section RetryScenarios.
Context {Fields : Type} {W : Wire Fields}.
Variable env : Env.
Hypothesis NewRequest_ok :
  forall method path query, env_NewRequest env method path query = None.
Implicit Types (a : Api) (w : World (Fields := Fields)).

Lemma other_failure_no_batch (o : DoOutcome) :
  other_failure o = true -> outcome_batch (Fields := Fields) o = None.
Proof.
  destruct o as [t msg|msg|code body]; cbn; try reflexivity.
  by destruct (code =? StatusOK).
Qed.

(** A fetch that fails, as [getUpdates_spec] gives it. *)
Lemma getUpdates_failure a params w :
  outcome_batch (env_Do env (do_calls w)) = None ->
  exists err w',
    getUpdates env a params w = (Err err, w') /\
    do_calls w' = S (do_calls w) /\
    selects w' = selects w /\
    waits (trace w') = waits (trace w).
Proof.
  intros Hout.
  destruct (getUpdates_spec env a params w NewRequest_ok)
    as (r & w' & Hget & Hcalls & Hsel & Hwaits & Hr).
  rewrite Hout in Hr. destruct Hr as [err Hr].
  destruct Hr as [Hr|[Hr|Hr]]; subst r; eauto 10.
Qed.

Lemma getUpdates_success a params w l :
  outcome_batch (env_Do env (do_calls w)) = Some l ->
  exists w',
    getUpdates env a params w = (Ok l, w') /\
    do_calls w' = S (do_calls w) /\
    selects w' = selects w /\
    waits (trace w') = waits (trace w).
Proof.
  intros Hout.
  destruct (getUpdates_spec env a params w NewRequest_ok)
    as (r & w' & Hget & Hcalls & Hsel & Hwaits & Hr).
  rewrite Hout in Hr. subst r. eauto 10.
Qed.

Lemma retry_success_at_once a params w l :
  outcome_batch (env_Do env (do_calls w)) = Some l ->
  exists w',
    getUpdatesWithRetry env a params w = (Ok l, w') /\
    do_calls w' = S (do_calls w) /\
    waits (trace w') = waits (trace w).
Proof.
  intros H0.
  unfold getUpdatesWithRetry. cbn zeta. change (Z.to_nat maxRetries) with 3%nat.
  generalize (Some (default zero_UpdatesParams params)). clear params. intros params.
  destruct (getUpdates_success a params w l H0) as (w1 & Hget & Hc & _ & Hw).
  exists w1. split; [|by split].
  by apply retry_loop_Ok.
Qed.

Lemma retry_two_failures_then_success a params w l :
  outcome_batch (env_Do env (do_calls w)) = None ->
  outcome_batch (env_Do env (S (do_calls w))) = None ->
  outcome_batch (env_Do env (S (S (do_calls w)))) = Some l ->
  env_Done env (selects w) = false ->
  env_Done env (S (selects w)) = false ->
  exists w',
    getUpdatesWithRetry env a params w = (Ok l, w') /\
    do_calls w' = S (S (S (do_calls w))) /\
    waits (trace w') = (waits (trace w) ++ [Second; 2 * Second])%list.
Proof.
  intros H0 H1 H2 D0 D1.
  unfold getUpdatesWithRetry. cbn zeta. change (Z.to_nat maxRetries) with 3%nat.
  generalize (Some (default zero_UpdatesParams params)). clear params. intros params.
  destruct (getUpdates_failure a params w H0) as (e1 & w1 & Hget1 & Hc1 & Hs1 & Hw1).
  rewrite <- Hs1 in D0.
  destruct (after_wait_world env 0 e1 w1 D0) as (Hc1' & Hs1' & _ & Hw1').
  set (w1' := after_wait env 0 e1 w1) in *.
  rewrite <- Hc1, <- Hc1' in H1.
  destruct (getUpdates_failure a params w1' H1) as (e2 & w2 & Hget2 & Hc2 & Hs2 & Hw2).
  rewrite Hs1 in Hs1'. rewrite <- Hs1', <- Hs2 in D1.
  destruct (after_wait_world env (0 + 1) e2 w2 D1) as (Hc2' & Hs2' & _ & Hw2').
  set (w2' := after_wait env (0 + 1) e2 w2) in *.
  rewrite <- Hc1, <- Hc1', <- Hc2, <- Hc2' in H2.
  destruct (getUpdates_success a params w2' l H2) as (w3 & Hget3 & Hc3 & Hs3 & Hw3).
  exists w3. split; [|split].
  - rewrite (retry_loop_Err_wait env a params _ 0 None w e1 w1 Hget1 eq_refl D0).
    fold w1'.
    rewrite (retry_loop_Err_wait env a params _ (0 + 1) _ w1' e2 w2 Hget2 eq_refl D1).
    fold w2'. by apply retry_loop_Ok.
  - congruence.
  - rewrite Hw3, Hw2', Hw2, Hw1', Hw1, <- app_assoc. reflexivity.
Qed.

Lemma retry_three_failures a params w :
  outcome_batch (env_Do env (do_calls w)) = None ->
  outcome_batch (env_Do env (S (do_calls w))) = None ->
  outcome_batch (env_Do env (S (S (do_calls w)))) = None ->
  env_Done env (selects w) = false ->
  env_Done env (S (selects w)) = false ->
  exists err w',
    getUpdatesWithRetry env a params w
    = (Err (wrapError "failed after 3 attempts" err), w') /\
    do_calls w' = S (S (S (do_calls w))) /\
    selects w' = S (S (selects w)) /\
    waits (trace w') = (waits (trace w) ++ [Second; 2 * Second])%list.
Proof.
  intros H0 H1 H2 D0 D1.
  unfold getUpdatesWithRetry. cbn zeta. change (Z.to_nat maxRetries) with 3%nat.
  generalize (Some (default zero_UpdatesParams params)). clear params. intros params.
  destruct (getUpdates_failure a params w H0) as (e1 & w1 & Hget1 & Hc1 & Hs1 & Hw1).
  rewrite <- Hs1 in D0.
  destruct (after_wait_world env 0 e1 w1 D0) as (Hc1' & Hs1' & _ & Hw1').
  set (w1' := after_wait env 0 e1 w1) in *.
  rewrite <- Hc1, <- Hc1' in H1.
  destruct (getUpdates_failure a params w1' H1) as (e2 & w2 & Hget2 & Hc2 & Hs2 & Hw2).
  rewrite Hs1 in Hs1'. rewrite <- Hs1', <- Hs2 in D1.
  destruct (after_wait_world env (0 + 1) e2 w2 D1) as (Hc2' & Hs2' & _ & Hw2').
  set (w2' := after_wait env (0 + 1) e2 w2) in *.
  rewrite <- Hc1, <- Hc1', <- Hc2, <- Hc2' in H2.
  destruct (getUpdates_failure a params w2' H2) as (e3 & w3 & Hget3 & Hc3 & Hs3 & Hw3).
  exists e3, w3. split; [|split; [|split]].
  - rewrite (retry_loop_Err_wait env a params _ 0 None w e1 w1 Hget1 eq_refl D0).
    fold w1'.
    rewrite (retry_loop_Err_wait env a params _ (0 + 1) _ w1' e2 w2 Hget2 eq_refl D1).
    fold w2'.
    rewrite (retry_loop_Err_last env a params _ (0 + 1 + 1) _ w2' e3 w3 Hget3 eq_refl).
    reflexivity.
  - congruence.
  - congruence.
  - rewrite Hw3, Hw2', Hw2, Hw1', Hw1, <- app_assoc. reflexivity.
Qed.

Lemma retry_cancelled_in_first_wait a params w :
  outcome_batch (env_Do env (do_calls w)) = None ->
  env_Done env (selects w) = true ->
  exists w',
    getUpdatesWithRetry env a params w = (Err ctxErr, w') /\
    do_calls w' = S (do_calls w) /\
    waits (trace w') = waits (trace w).
Proof.
  intros H0 D0.
  unfold getUpdatesWithRetry. cbn zeta. change (Z.to_nat maxRetries) with 3%nat.
  generalize (Some (default zero_UpdatesParams params)). clear params. intros params.
  destruct (getUpdates_failure a params w H0) as (e1 & w1 & Hget1 & Hc1 & Hs1 & Hw1).
  rewrite <- Hs1 in D0.
  destruct (after_wait_cancelled env 0 e1 w1 D0) as (Hc1' & Hw1').
  exists (after_wait env 0 e1 w1). split; [|split].
  - exact (retry_loop_Err_cancelled env a params _ 0 None w e1 w1 Hget1 eq_refl D0).
  - congruence.
  - congruence.
Qed.

Lemma retry_cancelled_in_second_wait a params w :
  outcome_batch (env_Do env (do_calls w)) = None ->
  outcome_batch (env_Do env (S (do_calls w))) = None ->
  env_Done env (selects w) = false ->
  env_Done env (S (selects w)) = true ->
  exists w',
    getUpdatesWithRetry env a params w = (Err ctxErr, w') /\
    do_calls w' = S (S (do_calls w)) /\
    waits (trace w') = (waits (trace w) ++ [Second])%list.
Proof.
  intros H0 H1 D0 D1.
  unfold getUpdatesWithRetry. cbn zeta. change (Z.to_nat maxRetries) with 3%nat.
  generalize (Some (default zero_UpdatesParams params)). clear params. intros params.
  destruct (getUpdates_failure a params w H0) as (e1 & w1 & Hget1 & Hc1 & Hs1 & Hw1).
  rewrite <- Hs1 in D0.
  destruct (after_wait_world env 0 e1 w1 D0) as (Hc1' & Hs1' & _ & Hw1').
  set (w1' := after_wait env 0 e1 w1) in *.
  rewrite <- Hc1, <- Hc1' in H1.
  destruct (getUpdates_failure a params w1' H1) as (e2 & w2 & Hget2 & Hc2 & Hs2 & Hw2).
  rewrite Hs1 in Hs1'. rewrite <- Hs1', <- Hs2 in D1.
  destruct (after_wait_cancelled env (0 + 1) e2 w2 D1) as (Hc2' & Hw2').
  exists (after_wait env (0 + 1) e2 w2). split; [|split].
  - rewrite (retry_loop_Err_wait env a params _ 0 None w e1 w1 Hget1 eq_refl D0).
    fold w1'.
    exact (retry_loop_Err_cancelled env a params _ (0 + 1) _ w1' e2 w2 Hget2 eq_refl D1).
  - congruence.
  - rewrite Hw2', Hw2, Hw1', Hw1. reflexivity.
Qed.

End RetryScenarios.

(** ** The retrieval loop *)

Section LoopFacts.
Context {Fields : Type} {W : Wire Fields}.
Variable env : Env.
Implicit Types (a : Api) (w : World (Fields := Fields)).

Lemma range_Updates_do_calls a updates w :
  do_calls (snd (range_Updates env a updates w)) = do_calls w.
Proof.
  revert w. induction updates as [|raw rest IH]; intros w; cbn; [reflexivity|].
  destruct (bytesToProperUpdate a raw) as [u|]; [|apply IH].
  unfold bind, select_Done. cbn.
  destruct (env_Done env (selects w)); cbn; [reflexivity|].
  by rewrite IH.
Qed.

(** A payload that does not decode is passed over: the loop behaves as on
    the batch without it. *)
Lemma range_Updates_skip a pre data post w err :
  bytesToProperUpdate a data = Err err ->
  range_Updates env a (pre ++ data :: post) w = range_Updates env a (pre ++ post) w.
Proof.
  intros Hdata. revert w. induction pre as [|raw pre IH]; intros w; cbn.
  - by rewrite Hdata.
  - destruct (bytesToProperUpdate a raw) as [u|]; [|apply IH].
    unfold bind. destruct (select_Done env (EvSend u) w) as [[|] w1]; [reflexivity|].
    apply IH.
Qed.

(** While the context is not done the loop sends every update that
    decodes, in the order of the batch, and falls through. *)
Lemma range_Updates_sends a updates w :
  (forall n, env_Done env n = false) ->
  fst (range_Updates env a updates w) = false /\
  sent (trace (snd (range_Updates env a updates w)))
  = (sent (trace w) ++ decoded a updates)%list.
Proof.
  intros Hdone. revert w.
  induction updates as [|raw rest IH]; intros w; cbn.
  - by rewrite app_nil_r.
  - unfold decoded. cbn. fold (decoded a rest).
    destruct (bytesToProperUpdate a raw) as [u|]; [|apply IH].
    unfold bind, select_Done. rewrite Hdone.
    match goal with |- context [range_Updates env a rest ?w1] =>
      destruct (IH w1) as [IH1 IH2] end.
    split; [exact IH1|]. rewrite IH2. cbn. unfold sent at 1.
    rewrite omap_app. cbn. by rewrite <- app_assoc.
Qed.

Lemma retry_loop_do_calls a params n attempt lastErr w :
  (do_calls w <= do_calls (snd (retry_loop env a params n attempt lastErr w)))%nat.
Proof.
  revert attempt lastErr w. induction n as [|n IH]; intros attempt lastErr w.
  - cbn. lia.
  - cbn [retry_loop]. unfold bind at 1.
    pose proof (getUpdates_world env a params w) as (_ & _ & _ & Hle).
    destruct (getUpdates env a params w) as [[l|err] w1]; cbn in Hle |- *; [lia|].
    destruct (attempt <? maxRetries - 1).
    + unfold bind, emit, select_Done. cbn.
      destruct (env_Done env (selects w1)); cbn; [lia|].
      match goal with |- context [retry_loop env a params n ?x ?y ?w2] =>
        pose proof (IH x y w2) as IH' end.
      cbn in IH'. lia.
    + pose proof (IH (attempt + 1) (Some err) w1). lia.
Qed.

(** A batch that [getUpdatesWithRetry] returns is the batch carried by the
    outcome of one of the calls it made. *)
Lemma retry_loop_Ok_inv a params n attempt lastErr w l w' :
  retry_loop env a params n attempt lastErr w = (Ok l, w') ->
  exists k, (do_calls w <= k < do_calls w')%nat /\
            outcome_batch (env_Do env k) = Some l.
Proof.
  revert attempt lastErr w. induction n as [|n IH]; intros attempt lastErr w.
  - cbn. unfold ret. discriminate.
  - cbn [retry_loop]. unfold bind at 1.
    pose proof (getUpdates_world env a params w) as (_ & _ & _ & Hle).
    destruct (getUpdates env a params w) as [[l1|err] w1] eqn:Hget; cbn in Hle.
    + unfold ret. intros [= -> ->].
      destruct (getUpdates_Ok_inv env a params w l w' Hget) as [Hc Hout].
      exists (do_calls w). split; [lia | assumption].
    + destruct (attempt <? maxRetries - 1).
      * unfold bind, emit, select_Done. cbn.
        destruct (env_Done env (selects w1)); cbn; [unfold ret; discriminate|].
        intros Hrec. apply IH in Hrec as (k & Hk & Hout). cbn in Hk.
        exists k. split; [lia | assumption].
      * intros Hrec. apply IH in Hrec as (k & Hk & Hout).
        exists k. split; [lia | assumption].
Qed.

Lemma drain_once_error a marker w err w1 :
  getUpdatesWithRetry env a (Some (GetUpdates_params a marker)) w = (Err err, w1) ->
  drain_once env a marker w = (Break, snd (emit (EvFailedLog err) w1)).
Proof. intros Hget. unfold drain_once, bind. by rewrite Hget. Qed.

Lemma drain_once_empty a marker w l w1 :
  getUpdatesWithRetry env a (Some (GetUpdates_params a marker)) w = (Ok l, w1) ->
  UpdateList_Updates l = [] ->
  drain_once env a marker w = (Break, w1).
Proof. intros Hget Hnil. unfold drain_once, bind. by rewrite Hget, Hnil. Qed.

Lemma drain_once_delivered a marker w l w1 w2 :
  getUpdatesWithRetry env a (Some (GetUpdates_params a marker)) w = (Ok l, w1) ->
  UpdateList_Updates l <> [] ->
  range_Updates env a (UpdateList_Updates l) w1 = (false, w2) ->
  drain_once env a marker w
  = (Next (match UpdateList_Marker l with Some m => m | None => marker end), w2).
Proof.
  intros Hget Hne Hrange. unfold drain_once, bind. rewrite Hget.
  destruct (UpdateList_Updates l) as [|raw rest] eqn:Hl; [done|].
  cbn [length Nat.eqb]. by rewrite Hrange.
Qed.

(** What a pass through the inner loop does to the cursor: it keeps it, or
    sets it to a marker reported in answer to a call made in this pass. *)
Lemma drain_once_cursor a marker w flow w' :
  drain_once env a marker w = (flow, w') ->
  (do_calls w <= do_calls w')%nat /\
  match flow with
  | Next m =>
      m = marker \/
      exists k, (do_calls w <= k < do_calls w')%nat /\ response_marker env k = Some m
  | _ => True
  end.
Proof.
  unfold drain_once, bind.
  pose proof (retry_loop_do_calls a (Some (GetUpdates_params a marker))
                (Z.to_nat maxRetries) 0 None w) as Hle.
  change (retry_loop env a (Some (GetUpdates_params a marker))
            (Z.to_nat maxRetries) 0 None w)
    with (getUpdatesWithRetry env a (Some (GetUpdates_params a marker)) w) in Hle.
  destruct (getUpdatesWithRetry env a (Some (GetUpdates_params a marker)) w)
    as [[l|err] w1] eqn:Hget; cbn in Hle.
  - destruct (length (UpdateList_Updates l) =? 0)%nat.
    + unfold ret. intros [= <- <-]. split; [lia | exact I].
    + pose proof (range_Updates_do_calls a (UpdateList_Updates l) w1) as Hr.
      destruct (range_Updates env a (UpdateList_Updates l) w1) as [[|] w2];
        cbn in Hr; unfold ret; intros [= <- <-]; (split; [lia|]); [exact I|].
      destruct (UpdateList_Marker l) as [m|] eqn:Hm; [right | by left].
      unfold getUpdatesWithRetry in Hget.
      apply retry_loop_Ok_inv in Hget as (k & Hk & Hout).
      exists k. split; [lia|]. unfold response_marker. by rewrite Hout.
  - unfold emit, ret. intros [= <- <-]. cbn. split; [lia | exact I].
Qed.

Lemma GetUpdates_step_cursor a (s : LoopState) :
  (do_calls (world s) <= do_calls (world (GetUpdates_step env a s)))%nat /\
  (cursor (GetUpdates_step env a s) = cursor s \/
   exists k,
     (do_calls (world s) <= k < do_calls (world (GetUpdates_step env a s)))%nat /\
     response_marker env k = Some (cursor (GetUpdates_step env a s))).
Proof.
  unfold GetUpdates_step. destruct (phase s).
  - unfold select_Done, emit. destruct (env_Done env (selects (world s))); cbn;
      (split; [lia | by left]).
  - destruct (drain_once env a (cursor s) (world s)) as [flow w'] eqn:Hdrain.
    apply drain_once_cursor in Hdrain as [Hle Hflow].
    destruct flow as [m| |]; cbn; (split; [exact Hle|]); try (by left).
    destruct Hflow as [->|Hk]; [by left | by right].
  - split; [lia | by left].
Qed.

(** Under [markers_nondecreasing] the cursor stays below every marker still
    to come, and a move of the goroutine never lowers it. *)
Lemma GetUpdates_step_monotone a (s : LoopState) :
  markers_nondecreasing env ->
  (forall k x, (do_calls (world s) <= k)%nat ->
               response_marker env k = Some x -> cursor s <= x) ->
  cursor s <= cursor (GetUpdates_step env a s) /\
  (forall k x, (do_calls (world (GetUpdates_step env a s)) <= k)%nat ->
               response_marker env k = Some x ->
               cursor (GetUpdates_step env a s) <= x).
Proof.
  intros [_ Hmono] Hinv.
  destruct (GetUpdates_step_cursor a s) as [Hle [Heq|(k & Hk & Hmark)]].
  - rewrite Heq. split; [lia|]. intros k x Hk. apply Hinv. lia.
  - split.
    + apply (Hinv k); [lia | assumption].
    + intros k' x Hk' Hx. apply (Hmono k k'); [lia | assumption | assumption].
Qed.

Lemma GetUpdates_run_invariant a n w :
  markers_nondecreasing env ->
  forall k x, (do_calls (world (GetUpdates_run env a n w)) <= k)%nat ->
              response_marker env k = Some x ->
              cursor (GetUpdates_run env a n w) <= x.
Proof.
  intros Hm. induction n as [|n IH].
  - intros k x _ Hx. cbn. destruct Hm as [Hpos _]. by apply (Hpos k).
  - unfold GetUpdates_run in *. cbn [Nat.iter].
    apply (GetUpdates_step_monotone a _ Hm IH).
Qed.

(** Only a taken [<-ctx.Done()] case stops the goroutine. *)
Lemma GetUpdates_step_not_Stopped a (s : LoopState) :
  (forall n, env_Done env n = false) ->
  phase s <> Stopped -> phase (GetUpdates_step env a s) <> Stopped.
Proof.
  intros Hdone Hs. unfold GetUpdates_step. destruct (phase s); [| |done].
  - unfold select_Done. rewrite Hdone. cbn. discriminate.
  - unfold drain_once, bind.
    destruct (getUpdatesWithRetry env a _ (world s)) as [[l|err] w1]; cbn;
      [|discriminate].
    destruct (length (UpdateList_Updates l) =? 0)%nat; cbn; [discriminate|].
    pose proof (range_Updates_sends a (UpdateList_Updates l) w1 Hdone) as [Hf _].
    destruct (range_Updates env a (UpdateList_Updates l) w1) as [r w2].
    cbn in Hf. subst r. cbn. discriminate.
Qed.

End LoopFacts.

(** ** The query of a poll request *)

Section QueryFacts.
Context {Fields : Type} {W : Wire Fields}.

Lemma fold_Values_Add_other (k : string) (ts : list string) (values : Values) :
  k <> "types" ->
  fold_left (fun values t => Values_Add "types" t values) ts values !! k
  = values !! k.
Proof.
  intros Hk. revert values. induction ts as [|t ts IH]; intros values; cbn.
  - reflexivity.
  - rewrite IH. unfold Values_Add. by rewrite lookup_insert_ne.
Qed.

Lemma fold_Values_Add_types (ts : list string) (values : Values) :
  fold_left (fun values t => Values_Add "types" t values) ts values !! "types"
  = match ts with
    | [] => values !! "types"
    | _ :: _ => Some (default [] (values !! "types") ++ ts)%list
    end.
Proof.
  revert values. induction ts as [|t ts IH]; intros values; cbn.
  - reflexivity.
  - rewrite IH. unfold Values_Add. rewrite lookup_insert_eq. cbn.
    destruct ts as [|t' ts]; [reflexivity|]. by rewrite <- app_assoc.
Qed.

(** C10.  The query that [getUpdates] builds holds [limit], [timeout] and
    [marker] exactly when the value of the parameter is positive, each
    with the one value printed from it; it holds under [types] the entries
    of [Types], all of them and in order, and no such key when there is
    none; and it holds nothing else.  The first request of the loop, made
    with the cursor at zero, has no [marker]; [requestReader] sends the
    query with [access_token] and [v] set on top. *)
Theorem getUpdates_values_positive_only (params : UpdatesParams) :
  let values := getUpdates_values params in
  values !! "limit"
  = (if 0 <? Limit params then Some [pretty (Limit params)] else None) /\
  values !! "timeout"
  = (if 0 <? Timeout params
     then Some [pretty (Seconds_int (Timeout params))] else None) /\
  values !! "marker"
  = (if 0 <? Marker params then Some [pretty (Marker params)] else None) /\
  values !! "types"
  = (match Types params with [] => None | _ :: _ => Some (Types params) end) /\
  (forall k, k <> "limit" -> k <> "timeout" -> k <> "marker" -> k <> "types" ->
             values !! k = None) /\
  (forall (a : Api) (w : World (Fields := Fields)),
      getUpdates_values (GetUpdates_params a (cursor (GetUpdates_start w)))
        !! "marker" = None) /\
  (forall (env : Env) (a : Api) (w : World (Fields := Fields)),
      (forall method path query, env_NewRequest env method path query = None) ->
      queries (trace (snd (getUpdates env a (Some params) w)))
      = (queries (trace w) ++
           [Values_Set "v" (version (api_client a))
              (Values_Set "access_token" (key (api_client a)) values)])%list).
Proof.
  cbn zeta. unfold getUpdates_values.
  repeat split.
  - rewrite fold_Values_Add_other by done.
    destruct (0 <? Limit params), (0 <? Timeout params), (0 <? Marker params);
      unfold Values_Set; by simplify_map_eq.
  - rewrite fold_Values_Add_other by done.
    destruct (0 <? Limit params), (0 <? Timeout params), (0 <? Marker params);
      unfold Values_Set; by simplify_map_eq.
  - rewrite fold_Values_Add_other by done.
    destruct (0 <? Limit params), (0 <? Timeout params), (0 <? Marker params);
      unfold Values_Set; by simplify_map_eq.
  - rewrite fold_Values_Add_types.
    assert (Hnone : forall (v0 : Values), v0 !! "types" = None ->
              (if 0 <? Marker params
               then Values_Set "marker" (pretty (Marker params)) v0 else v0)
                !! "types" = None).
    { intros v0 H0. destruct (0 <? Marker params); [|done].
      unfold Values_Set. by rewrite lookup_insert_ne. }
    rewrite Hnone.
    + by destruct (Types params).
    + destruct (0 <? Limit params), (0 <? Timeout params);
        unfold Values_Set; by simplify_map_eq.
  - intros k H1 H2 H3 H4. rewrite fold_Values_Add_other by done.
    destruct (0 <? Limit params), (0 <? Timeout params), (0 <? Marker params);
      unfold Values_Set; by simplify_map_eq.
  - intros a w. cbn. destruct (0 <? timeout a); unfold Values_Set; by simplify_map_eq.
  - intros env a w Hnew. run_M. rewrite Hnew.
    destruct (env_Do env (do_calls w)) as [[|] msg|msg|code rbody]; cbn;
      unfold queries; rewrite ?omap_app; cbn; try reflexivity.
    destruct (negb (code =? StatusOK)).
    + destruct (ReadAll rbody) as [d|]; [destruct (decode_Error d)|];
        destruct (Close rbody); cbn; rewrite ?omap_app; cbn;
        rewrite ?app_nil_r; reflexivity.
    + cbn. destruct (ReadAll rbody) as [d|];
        [destruct (unmarshal_UpdateList d zero_UpdateList)|];
        destruct (Close rbody); cbn; rewrite ?omap_app; cbn;
        rewrite ?app_nil_r; reflexivity.
Qed.

End QueryFacts.

(** ** The webhook handler *)

Section HandlerFacts.
Context {Fields : Type} {W : Wire Fields}.
Implicit Types (a : Api) (updates : Chan (Fields := Fields)) (r : Request).

(** C9.  The handler answers 405 to a method other than POST, 400 when
    the body cannot be read, 400 when the body does not decode, 503 when
    the body decodes and the channel has no room, and 200 otherwise; only
    in the last case does the channel change, by the decoded update sent
    on it.  The send is the case of a [select] with a default, so the
    handler always returns: one of the five answers is given in every
    case. *)
Theorem GetHandler_responses a updates r :
  (Method r <> MethodPost ->
   GetHandler a updates r
   = (http_Error "Method not allowed" StatusMethodNotAllowed, updates)) /\
  (Method r = MethodPost ->
   forall err, Body r = Err err ->
   GetHandler a updates r
   = (http_Error "Failed to read request body" StatusBadRequest, updates)) /\
  (Method r = MethodPost ->
   forall body err, Body r = Ok body -> bytesToProperUpdate a body = Err err ->
   GetHandler a updates r
   = (http_Error "Failed to parse update" StatusBadRequest, updates)) /\
  (Method r = MethodPost ->
   forall body update, Body r = Ok body -> bytesToProperUpdate a body = Ok update ->
   chan_room updates = O ->
   GetHandler a updates r
   = (http_Error "Updates channel is full" StatusServiceUnavailable, updates)) /\
  (Method r = MethodPost ->
   forall body update n, Body r = Ok body -> bytesToProperUpdate a body = Ok update ->
   chan_room updates = S n ->
   GetHandler a updates r
   = ({| StatusCode := StatusOK; ResponseBody := "" |},
      {| chan_sent := (chan_sent updates ++ [update])%list; chan_room := n |})) /\
  (exists response updates',
      GetHandler a updates r = (response, updates') /\
      StatusCode response ∈ [StatusOK; StatusBadRequest; StatusMethodNotAllowed;
                             StatusServiceUnavailable] /\
      (StatusCode response <> StatusOK -> updates' = updates)).
Proof.
  unfold GetHandler, chan_send.
  destruct (String.eqb_spec (Method r) MethodPost) as [Hm|Hm]; cbn.
  - repeat split; try done.
    + intros _ err ->. reflexivity.
    + intros _ body err -> ->. reflexivity.
    + intros _ body update -> -> ->. reflexivity.
    + intros _ body update n -> -> ->. reflexivity.
    + destruct (Body r) as [body|err]; [|eexists _, _; split; [done|]; set_solver].
      destruct (bytesToProperUpdate a body) as [update|err];
        [|eexists _, _; split; [done|]; set_solver].
      destruct (chan_room updates); eexists _, _; (split; [done|]); set_solver.
  - repeat split; try done.
    eexists _, _; split; [done|]; set_solver.
Qed.

End HandlerFacts.

(** ** The claims on fetching and on the loop *)

Section LoopClaims.
Context {Fields : Type} {W : Wire Fields}.
Variable env : Env.
Implicit Types (a : Api) (w : World (Fields := Fields)).

(** C1, where the code departs from it.  When the transport reports a
    request timeout, [getUpdates] does not return an empty list: the error
    it gets is a [TimeoutError] allocated for this request, not the
    pointer [errLongPollTimeout], so it returns the error wrapped.
    [getUpdatesWithRetry] counts it as a failed attempt: three timeouts
    in a row use up the three attempts, with waits of 1s and 2s, and the
    call fails. *)
Theorem request_timeout_is_a_failed_attempt a params w msg0 msg1 msg2 :
  (forall method path query, env_NewRequest env method path query = None) ->
  env_Do env (do_calls w) = DoUrlError true msg0 ->
  env_Do env (S (do_calls w)) = DoUrlError true msg1 ->
  env_Do env (S (S (do_calls w))) = DoUrlError true msg2 ->
  env_Done env (selects w) = false ->
  env_Done env (S (selects w)) = false ->
  fst (getUpdates env a params w)
  = Err (wrapError "failed to get updates"
           (TimeoutErrorPtr (S (allocs w)) "GET updates"
              ("request timeout exceeded (" ++
                 Duration_String (httpClient_Timeout (api_client a)) ++ ")"))) /\
  exists err w',
    getUpdatesWithRetry env a params w
    = (Err (wrapError "failed after 3 attempts" err), w') /\
    do_calls w' = S (S (S (do_calls w))) /\
    waits (trace w') = (waits (trace w) ++ [Second; 2 * Second])%list.
Proof.
  intros Hnew H0 H1 H2 D0 D1. split.
  - exact (proj1 (getUpdates_request_timeout env a params w msg0 Hnew H0)).
  - destruct (retry_three_failures env Hnew a params w) as (err & w' & Hr & Hc & _ & Hw);
      try assumption; try (by rewrite ?H0, ?H1, ?H2).
    by exists err, w'.
Qed.

(** C2, as the code has it.  [getUpdatesWithRetry] makes at most three
    attempts and waits 1s after the first failure and 2s after the second
    (doubling); there is no wait of 4s and no fourth attempt.  Given two
    failures in a row that are not request timeouts and then a success, it
    makes exactly two retries, with waits of 1s and 2s, and returns the
    batch.  Given three such failures it returns an error after those two
    waits; the loop logs it, leaves the inner loop with the cursor
    unchanged and goes back to wait for the next tick.  A wait that is cut
    short by cancellation ends the call at once with the context's
    error. *)
Theorem getUpdatesWithRetry_backoff a params w :
  (forall method path query, env_NewRequest env method path query = None) ->
  other_failure (env_Do env (do_calls w)) = true ->
  (* never more than three attempts, never a third wait *)
  (forall r w',
      getUpdatesWithRetry env a params w = (r, w') ->
      (do_calls w' <= 3 + do_calls w)%nat /\
      exists ws,
        waits (trace w') = (waits (trace w) ++ ws)%list /\
        ws `prefix_of` [Second; 2 * Second]) /\
  (* two failures, then a success *)
  (forall l,
      other_failure (env_Do env (S (do_calls w))) = true ->
      outcome_batch (env_Do env (S (S (do_calls w)))) = Some l ->
      env_Done env (selects w) = false ->
      env_Done env (S (selects w)) = false ->
      exists w',
        getUpdatesWithRetry env a params w = (Ok l, w') /\
        do_calls w' = S (S (S (do_calls w))) /\
        waits (trace w') = (waits (trace w) ++ [Second; 2 * Second])%list) /\
  (* three failures *)
  (other_failure (env_Do env (S (do_calls w))) = true ->
   other_failure (env_Do env (S (S (do_calls w)))) = true ->
   env_Done env (selects w) = false ->
   env_Done env (S (selects w)) = false ->
   (exists err w',
       getUpdatesWithRetry env a params w
       = (Err (wrapError "failed after 3 attempts" err), w') /\
       do_calls w' = S (S (S (do_calls w))) /\
       waits (trace w') = (waits (trace w) ++ [Second; 2 * Second])%list) /\
   (forall marker,
       let s := GetUpdates_step env a
                  {| phase := AtDrain; cursor := marker; world := w |} in
       phase s = AtSelect /\ cursor s = marker /\
       do_calls (world s) = S (S (S (do_calls w))))) /\
  (* cancelled in the first wait *)
  (env_Done env (selects w) = true ->
   exists w',
     getUpdatesWithRetry env a params w = (Err ctxErr, w') /\
     do_calls w' = S (do_calls w) /\
     waits (trace w') = waits (trace w)) /\
  (* cancelled in the second wait *)
  (other_failure (env_Do env (S (do_calls w))) = true ->
   env_Done env (selects w) = false ->
   env_Done env (S (selects w)) = true ->
   exists w',
     getUpdatesWithRetry env a params w = (Err ctxErr, w') /\
     do_calls w' = S (S (do_calls w)) /\
     waits (trace w') = (waits (trace w) ++ [Second])%list).
Proof.
  intros Hnew H0%(other_failure_no_batch (Fields := Fields)).
  split; [|split; [|split; [|split]]].
  - intros r w' Hr.
    destruct (getUpdatesWithRetry_bounds env a params w r w' Hr) as [Hc Hws].
    split; [lia | exact Hws].
  - intros l H1%(other_failure_no_batch (Fields := Fields)) H2 D0 D1.
    by apply retry_two_failures_then_success.
  - intros H1%(other_failure_no_batch (Fields := Fields))
           H2%(other_failure_no_batch (Fields := Fields)) D0 D1.
    split.
    { destruct (retry_three_failures env Hnew a params w H0 H1 H2 D0 D1)
        as (err & w' & Hr & Hc & _ & Hw).
      by exists err, w'. }
    intros marker.
    destruct (retry_three_failures env Hnew a (Some (GetUpdates_params a marker)) w
                H0 H1 H2 D0 D1) as (err & w' & Hr & Hc & _ & _).
    unfold GetUpdates_step. cbn [phase cursor world].
    rewrite (drain_once_error env a marker w _ w' Hr). cbn. auto.
  - intros D0. by apply retry_cancelled_in_first_wait.
  - intros H1%(other_failure_no_batch (Fields := Fields)) D0 D1.
    by apply retry_cancelled_in_second_wait.
Qed.

(** C3, as the code has it.  The cursor starts at zero.  A pass through
    the inner loop that fetched a batch with at least one update and
    pushed it without being cancelled sets the cursor to the marker of the
    batch when it has one, and keeps the cursor when it has none; a batch
    with no update ends the inner loop before the marker is looked at.
    When the markers that the endpoint reports never decrease and are
    never negative, no move of the goroutine lowers the cursor. *)
Theorem cursor_adopted_and_monotone a w :
  cursor (GetUpdates_start w) = 0 /\
  (forall marker w0 l w1 w2,
      getUpdatesWithRetry env a (Some (GetUpdates_params a marker)) w0 = (Ok l, w1) ->
      UpdateList_Updates l <> [] ->
      range_Updates env a (UpdateList_Updates l) w1 = (false, w2) ->
      GetUpdates_step env a {| phase := AtDrain; cursor := marker; world := w0 |}
      = {| phase := AtDrain;
           cursor := match UpdateList_Marker l with Some m => m | None => marker end;
           world := w2 |}) /\
  (forall marker w0 l w1,
      getUpdatesWithRetry env a (Some (GetUpdates_params a marker)) w0 = (Ok l, w1) ->
      UpdateList_Updates l = [] ->
      GetUpdates_step env a {| phase := AtDrain; cursor := marker; world := w0 |}
      = {| phase := AtSelect; cursor := marker; world := w1 |}) /\
  (markers_nondecreasing env ->
   forall n m, (n <= m)%nat ->
               cursor (GetUpdates_run env a n w) <= cursor (GetUpdates_run env a m w)).
Proof.
  split; [reflexivity|]. split; [|split].
  - intros marker w0 l w1 w2 Hget Hne Hrange. unfold GetUpdates_step. cbn.
    by rewrite (drain_once_delivered env a marker w0 l w1 w2 Hget Hne Hrange).
  - intros marker w0 l w1 Hget Hnil. unfold GetUpdates_step. cbn.
    by rewrite (drain_once_empty env a marker w0 l w1 Hget Hnil).
  - intros Hm n m Hle. induction Hle as [|m Hle IH]; [lia|].
    etransitivity; [exact IH|].
    change (GetUpdates_run env a (S m) w)
      with (GetUpdates_step env a (GetUpdates_run env a m w)).
    apply (GetUpdates_step_monotone env a _ Hm).
    by apply GetUpdates_run_invariant.
Qed.

(** C6.  When the envelope of an update payload decodes and its tag is
    none of the ten tags of [updateTypeMap], decoding fails with an error
    that names the tag.  In the loop that payload alone is passed over:
    the batch is handled as if the payload were not in it, so every other
    payload that decodes is still pushed, in order; and the goroutine
    stops only when a [<-ctx.Done()] case is taken. *)
Theorem unknown_update_type_skipped a data base :
  unmarshal_Update data zero_Update = Ok base ->
  GetUpdateType base ∉ update_tags ->
  bytesToProperUpdate a data
  = Err (errorString ("unknown update type: " ++ GetUpdateType base)) /\
  (forall pre post w,
      range_Updates env a (pre ++ data :: post) w
      = range_Updates env a (pre ++ post) w) /\
  ((forall n, env_Done env n = false) ->
   (forall pre post w,
       fst (range_Updates env a (pre ++ data :: post) w) = false /\
       sent (trace (snd (range_Updates env a (pre ++ data :: post) w)))
       = (sent (trace w) ++ decoded a pre ++ decoded a post)%list) /\
   (forall n w, phase (GetUpdates_run env a n w) <> Stopped)).
Proof.
  intros Hbase Htag.
  assert (Herr : bytesToProperUpdate a data
                 = Err (errorString ("unknown update type: " ++ GetUpdateType base))).
  { unfold bytesToProperUpdate. rewrite Hbase.
    apply updateTypeMap_lookup_None in Htag. by rewrite Htag. }
  split; [exact Herr|]. split.
  - intros pre post w. by apply (range_Updates_skip env a pre data post w _ Herr).
  - intros Hdone. split.
    + intros pre post w.
      rewrite (range_Updates_skip env a pre data post w _ Herr).
      destruct (range_Updates_sends env a (pre ++ post) w Hdone) as [Hf Hs].
      split; [exact Hf|]. rewrite Hs. unfold decoded. by rewrite omap_app.
    + intros n w. induction n as [|n IH]; [discriminate|].
      change (GetUpdates_run env a (S n) w)
        with (GetUpdates_step env a (GetUpdates_run env a n w)).
      by apply GetUpdates_step_not_Stopped.
Qed.

End LoopClaims.

(** ** Fetching and the loop on the example codec *)

(** Three request timeouts in a row: the first fetch returns the wrapped
    [TimeoutError] at address 1, and the call fails after three attempts
    and waits of 1s and 2s. *)
Lemma request_timeout_is_a_failed_attempt_witness :
  let env := demo_Env [DoUrlError true "deadline"; DoUrlError true "deadline";
                       DoUrlError true "deadline"] in
  fst (getUpdates env demo_Api None init_World)
  = Err (wrapError "failed to get updates"
           (TimeoutErrorPtr 1 "GET updates" "request timeout exceeded (30s)")) /\
  exists err w',
    getUpdatesWithRetry env demo_Api None init_World
    = (Err (wrapError "failed after 3 attempts" err), w') /\
    do_calls w' = 3%nat /\
    waits (trace w') = [Second; 2 * Second].
Proof.
  intros env.
  exact (request_timeout_is_a_failed_attempt env demo_Api None init_World
           "deadline" "deadline" "deadline"
           (fun _ _ _ => eq_refl) eq_refl eq_refl eq_refl eq_refl eq_refl).
Defined.

(** C2 as stated fails: after three failures in a row the call has
    returned an error, having waited 1s and 2s and made three calls; the
    success that would come fourth is never asked for, and no wait of 4s
    takes place. *)
Lemma getUpdatesWithRetry_gives_up_after_three :
  let env := demo_Env [DoOtherError "connection refused";
                       DoOtherError "connection refused";
                       DoOtherError "connection refused";
                       DoResponse 200 (demo_body "list_one_3")] in
  let r := getUpdatesWithRetry env demo_Api None init_World in
  ~ (exists batch,
        fst r = Ok batch /\
        waits (trace (snd r)) = [Second; 2 * Second; 4 * Second]) /\
  is_Ok (fst r) = false /\
  waits (trace (snd r)) = [Second; 2 * Second] /\
  do_calls (snd r) = 3%nat.
Proof.
  intros env r.
  assert (Hr : is_Ok (fst r) = false) by (vm_compute; reflexivity).
  split; [|split; [exact Hr|split; vm_compute; reflexivity]].
  intros (batch & Hbatch & _). rewrite Hbatch in Hr. discriminate Hr.
Qed.

(** A refused connection, a 500 response and then a batch: two retries,
    waits of 1s and 2s, and the batch is returned. *)
Lemma getUpdatesWithRetry_backoff_witness :
  let env := demo_Env [DoOtherError "connection refused";
                       DoResponse 500 (demo_body "overloaded");
                       DoResponse 200 (demo_body "list_one_3")] in
  exists w',
    getUpdatesWithRetry env demo_Api None init_World
    = (Ok {| UpdateList_Updates := ["upd_bot_started"];
             UpdateList_Marker := Some 3 |}, w') /\
    do_calls w' = 3%nat /\
    waits (trace w') = [Second; 2 * Second].
Proof.
  intros env.
  exact (proj1 (proj2 (getUpdatesWithRetry_backoff env demo_Api None init_World
                         (fun _ _ _ => eq_refl) eq_refl))
           _ eq_refl eq_refl eq_refl eq_refl).
Defined.

(** C3 as stated fails.  A batch that is fetched with success and
    carries the marker 7 but no update leaves the cursor at 0; and a
    marker below zero, though the markers reported never decrease, lowers
    the cursor from its start. *)
Lemma cursor_not_set_from_empty_batch :
  let env := demo_Env [DoResponse 200 (demo_body "list_empty_7")] in
  let env' := demo_Env [DoResponse 200 (demo_body "list_one_minus_1")] in
  fst (getUpdatesWithRetry env demo_Api (Some (GetUpdates_params demo_Api 0))
         (world (GetUpdates_run env demo_Api 1 init_World)))
  = Ok {| UpdateList_Updates := []; UpdateList_Marker := Some 7 |} /\
  cursor (GetUpdates_run env demo_Api 2 init_World) = 0 /\
  cursor (GetUpdates_run env demo_Api 8 init_World) = 0 /\
  (forall i j x y, (i <= j)%nat ->
     response_marker env' i = Some x -> response_marker env' j = Some y -> x <= y) /\
  cursor (GetUpdates_run env' demo_Api 1 init_World) = 0 /\
  cursor (GetUpdates_run env' demo_Api 2 init_World) = -1.
Proof.
  intros env env'.
  split; [vm_compute; reflexivity|].
  split; [vm_compute; reflexivity|].
  split; [vm_compute; reflexivity|].
  split; [|split; vm_compute; reflexivity].
  assert (Hm : forall i x, response_marker env' i = Some x -> x = -1).
  { intros [|[|i]] x; vm_compute; congruence. }
  intros i j x y _ Hx%Hm Hy%Hm. lia.
Qed.

(** The markers 5 and 7, in this order, never decrease. *)
Lemma demo_markers_nondecreasing :
  markers_nondecreasing
    (demo_Env [DoResponse 200 (demo_body "list_two_5");
               DoResponse 200 (demo_body "list_empty_7")]).
Proof.
  assert (Hm : forall i x,
    response_marker
      (demo_Env [DoResponse 200 (demo_body "list_two_5");
                 DoResponse 200 (demo_body "list_empty_7")]) i = Some x ->
    (i = 0%nat /\ x = 5) \/ (i = 1%nat /\ x = 7)).
  { intros [|[|[|i]]] x; vm_compute; intros [= <-] || intros [=]; auto. }
  split.
  - intros i x [[_ ->]|[_ ->]]%Hm; lia.
  - intros i j x y Hle [[-> ->]|[-> ->]]%Hm [[-> ->]|[-> ->]]%Hm; lia.
Defined.

(** A batch of two updates with the marker 5, then an empty batch with
    the marker 7: the cursor goes from 0 to 5 and is not lowered. *)
Lemma cursor_adopted_and_monotone_witness :
  let env := demo_Env [DoResponse 200 (demo_body "list_two_5");
                       DoResponse 200 (demo_body "list_empty_7")] in
  cursor (GetUpdates_run env demo_Api 1 init_World) = 0 /\
  cursor (GetUpdates_run env demo_Api 2 init_World) = 5 /\
  cursor (GetUpdates_run env demo_Api 2 init_World)
  <= cursor (GetUpdates_run env demo_Api 6 init_World).
Proof.
  intros env.
  split; [reflexivity|]. split; [vm_compute; reflexivity|].
  refine (proj2 (proj2 (proj2 (cursor_adopted_and_monotone env demo_Api init_World)))
            demo_markers_nondecreasing 2%nat 6%nat _).
  repeat constructor.
Defined.

(** A batch of a payload with the unknown tag poll_closed and a
    bot-started payload: the first is rejected by name, the second is
    pushed. *)
Lemma unknown_update_type_skipped_witness :
  let env := demo_Env [] in
  bytesToProperUpdate demo_Api "upd_poll"
  = Err (errorString "unknown update type: poll_closed") /\
  sent (trace (snd (range_Updates env demo_Api
                      ([] ++ "upd_poll" :: ["upd_bot_started"]) init_World)))
  = decoded demo_Api ["upd_bot_started"] /\
  decoded demo_Api ["upd_bot_started"]
  = [PlainUpdate BotStartedUpdate
       {| Update_UpdateType := "bot_started"; Update_Timestamp := 1234567890;
          Update_DebugRaw := "" |} "chat 1 user 100"].
Proof.
  intros env.
  assert (Htag : GetUpdateType
                   {| Update_UpdateType := "poll_closed";
                      Update_Timestamp := 1234567890; Update_DebugRaw := "" |}
                 ∉ update_tags (W := demo_Wire))
    by (apply (bool_decide_unpack _); vm_compute; exact I).
  destruct (unknown_update_type_skipped (W := demo_Wire) env demo_Api "upd_poll"
              {| Update_UpdateType := "poll_closed";
                 Update_Timestamp := 1234567890; Update_DebugRaw := "" |}
              eq_refl Htag)
    as (Herr & _ & Hloop).
  split; [exact Herr|]. split; [|reflexivity].
  exact (proj2 (proj1 (Hloop (fun _ => eq_refl)) [] ["upd_bot_started"] init_World)).
Defined.

(** The handler on a GET, on a body that is not JSON, on a channel
    without room, and on a channel with room for one update. *)
Lemma GetHandler_responses_witness :
  let full := {| chan_sent := []; chan_room := 0 |} in
  let free := {| chan_sent := []; chan_room := 1 |} in
  let update := PlainUpdate BotStartedUpdate
                  {| Update_UpdateType := "bot_started";
                     Update_Timestamp := 1234567890; Update_DebugRaw := "" |}
                  "chat 1 user 100" in
  GetHandler demo_Api free {| Method := "GET"; Body := Ok "upd_bot_started" |}
  = (http_Error "Method not allowed" 405, free) /\
  GetHandler demo_Api free {| Method := "POST"; Body := Ok "not json" |}
  = (http_Error "Failed to parse update" 400, free) /\
  GetHandler demo_Api full {| Method := "POST"; Body := Ok "upd_bot_started" |}
  = (http_Error "Updates channel is full" 503, full) /\
  GetHandler demo_Api free {| Method := "POST"; Body := Ok "upd_bot_started" |}
  = ({| StatusCode := 200; ResponseBody := "" |},
     {| chan_sent := [update]; chan_room := 0 |}).
Proof.
  intros full free update.
  split; [|split; [|split]].
  - apply (proj1 (GetHandler_responses (W := demo_Wire) demo_Api free
                    {| Method := "GET"; Body := Ok "upd_bot_started" |})).
    discriminate.
  - exact (proj1 (proj2 (proj2 (GetHandler_responses (W := demo_Wire) demo_Api free
                    {| Method := "POST"; Body := Ok "not json" |})))
             eq_refl "not json" (wrapError "failed to unmarshal base update"
                                   (foreignError "unexpected end of JSON input"))
             eq_refl eq_refl).
  - exact (proj1 (proj2 (proj2 (proj2 (GetHandler_responses (W := demo_Wire) demo_Api full
                    {| Method := "POST"; Body := Ok "upd_bot_started" |}))))
             eq_refl "upd_bot_started" update eq_refl eq_refl eq_refl).
  - exact (proj1 (proj2 (proj2 (proj2 (proj2 (GetHandler_responses (W := demo_Wire) demo_Api free
                    {| Method := "POST"; Body := Ok "upd_bot_started" |})))))
             eq_refl "upd_bot_started" update 0%nat eq_refl eq_refl eq_refl).
Defined.

(** * Further properties of the client *)

(** ** More on the decoder *)

Section DecoderMore.
Context {Fields : Type} {W : Wire Fields}.
Implicit Types (a : Api) (data : RawMessage).

Lemma attachmentTypeMap_lookup (k : AttachmentKind) :
  attachmentTypeMap !! attachment_tag k
  = Some (fun _ : unit => TypedAttachment (Fields := Fields) k zero).
Proof.
  pose proof attachment_tags_NoDup as Hnd.
  destruct k; (apply elem_of_list_to_map_1; [exact Hnd |
    repeat first [apply list_elem_of_here | apply list_elem_of_further]]).
Qed.

(** X1.  When the envelope of an attachment payload bears the tag of one
    of the nine typed structs, [bytesToProperAttachment] decodes the
    payload a second time, into that struct: it returns the typed
    attachment of that kind, or the error of the second decoding wrapped
    with the tag.  It never falls back to the bare envelope for such a
    tag. *)
Theorem bytesToProperAttachment_known_tag a data (base : Attachment)
    (k : AttachmentKind) :
  unmarshal_Attachment data zero_Attachment = Ok base ->
  GetAttachmentType base = attachment_tag k ->
  bytesToProperAttachment a data
  = match unmarshal_TypedAttachment k data zero with
    | Ok v => Ok (TypedAttachment k v)
    | Err err =>
        Err (wrapError ("failed to unmarshal attachment of type " ++ attachment_tag k)
               err)
    end /\
  forall b, bytesToProperAttachment a data <> Ok (BaseAttachment b).
Proof.
  intros Hbase Htag.
  assert (Hres : bytesToProperAttachment a data
    = match unmarshal_TypedAttachment k data zero with
      | Ok v => Ok (TypedAttachment k v)
      | Err err =>
          Err (wrapError ("failed to unmarshal attachment of type " ++ attachment_tag k)
                 err)
      end).
  { unfold bytesToProperAttachment. rewrite Hbase, Htag, attachmentTypeMap_lookup.
    cbn. by destruct (unmarshal_TypedAttachment k data zero). }
  split; [exact Hres|].
  intros b. rewrite Hres. by destruct (unmarshal_TypedAttachment k data zero).
Qed.

(** X2.  Every error of [bytesToProperUpdate] is one of four, and tells
    the stage that failed: the envelope did not decode; the tag is not in
    [updateTypeMap]; the payload did not decode into the struct of its
    tag; or a raw attachment of the decoded message did not decode.  In
    each case the cause is the error of that stage. *)
Theorem bytesToProperUpdate_errors a data (err : error) :
  bytesToProperUpdate a data = Err err ->
  (exists cause,
      unmarshal_Update data zero_Update = Err cause /\
      err = wrapError "failed to unmarshal base update" cause) \/
  (exists base,
      unmarshal_Update data zero_Update = Ok base /\
      (GetUpdateType base ∉ update_tags) /\
      err = errorString ("unknown update type: " ++ GetUpdateType base)) \/
  (exists base constructor cause,
      unmarshal_Update data zero_Update = Ok base /\
      updateTypeMap !! GetUpdateType base = Some constructor /\
      Unmarshal_update data (constructor (if debug a then data else "")) = Err cause /\
      err = wrapError ("failed to unmarshal update of type " ++ GetUpdateType base)
              cause) \/
  (exists base constructor (v : UpdateInterface Fields) raw cause,
      unmarshal_Update data zero_Update = Ok base /\
      updateTypeMap !! GetUpdateType base = Some constructor /\
      Unmarshal_update data (constructor (if debug a then data else "")) = Ok v /\
      (raw ∈ raw_attachments v) /\
      bytesToProperAttachment a raw = Err cause /\
      err = wrapError "failed to process message attachments"
              (wrapError "failed to process attachment" cause)).
Proof.
  intros Herr.
  destruct (unmarshal_Update data zero_Update) as [base|cause] eqn:Hbase.
  2: { left. exists cause. split; [reflexivity|].
       unfold bytesToProperUpdate in Herr. rewrite Hbase in Herr. congruence. }
  right.
  destruct (updateTypeMap !! GetUpdateType base) as [constructor|] eqn:Hmap.
  2: { left. exists base. split; [reflexivity|].
       split; [by apply updateTypeMap_lookup_None|].
       unfold bytesToProperUpdate in Herr. rewrite Hbase, Hmap in Herr. congruence. }
  right.
  destruct (Unmarshal_update data (constructor (if debug a then data else "")))
    as [v|cause] eqn:Htyped.
  2: { left. exists base, constructor, cause. repeat (split; [done|]).
       unfold bytesToProperUpdate in Herr. rewrite Hbase, Hmap, Htyped in Herr.
       congruence. }
  right.
  destruct (bytesToProperUpdate_all_or_nothing a data base constructor v
              Hbase Hmap Htyped)
    as [[(atts & _ & Hok)|(pre & raw & post & atts & cause & Hraws & _ & Hraw & Hres)] _].
  - congruence.
  - exists base, constructor, v, raw, cause. repeat (split; [done|]).
    split; [rewrite Hraws; set_solver|]. split; [exact Hraw | congruence].
Qed.

(** X3.  [processMessageAttachments] changes nothing of an update but the
    resolved list of its body, and that list only grows: what it leaves
    behind, with or without an error, is the update it was given with the
    decodings of the first few raw attachments appended, in order.  The
    raw attachments themselves stay in the body. *)
Theorem processMessageAttachments_only_appends a (update : UpdateInterface Fields) :
  exists atts,
    fst (processMessageAttachments a update)
    = with_Attachments update (resolved_attachments update ++ atts) /\
    all_decode a (take (length atts) (raw_attachments update)) atts /\
    raw_attachments (fst (processMessageAttachments a update))
    = raw_attachments update /\
    envelope (fst (processMessageAttachments a update)) = envelope update /\
    (snd (processMessageAttachments a update) = None ->
     length atts = length (raw_attachments update)).
Proof.
  destruct (all_decode_or_first_failure a (raw_attachments update))
    as [[atts Hall]|(pre & raw & post & atts & err & Hraws & Hall & Hfail)].
  - exists atts. rewrite (processMessageAttachments_all _ _ _ Hall). cbn.
    pose proof (all_decode_length _ _ _ Hall) as Hlen.
    rewrite Hlen, firstn_all. split; [reflexivity|]. split; [exact Hall|].
    split; [by destruct update|]. split; [by destruct update | done].
  - exists atts.
    pose proof (all_decode_length _ _ _ Hall) as Hlen.
    assert (Htake : take (length atts) (raw_attachments update) = pre).
    { rewrite Hraws, Hlen. by rewrite take_app_length. }
    rewrite Htake.
    assert (Hfst : fst (processMessageAttachments a update)
                   = with_Attachments update (resolved_attachments update ++ atts)).
    { destruct update as [e m|e m|k e v]; cbn in *.
      - unfold process_Message.
        destruct (MessageBody_RawAttachments (Message_Body m)) as [raws|] eqn:Hr;
          cbn in Hraws; [|by destruct pre].
        subst raws.
        rewrite (range_RawAttachments_first_failure _ _ _ _ _ _ _ Hall Hfail).
        cbn. unfold Message_with_Attachments, append_Attachments. cbn.
        by rewrite Hr.
      - unfold process_Message.
        destruct (MessageBody_RawAttachments (Message_Body m)) as [raws|] eqn:Hr;
          cbn in Hraws; [|by destruct pre].
        subst raws.
        rewrite (range_RawAttachments_first_failure _ _ _ _ _ _ _ Hall Hfail).
        cbn. unfold Message_with_Attachments, append_Attachments. cbn.
        by rewrite Hr.
      - by destruct pre. }
    split; [exact Hfst|]. split; [exact Hall|]. rewrite Hfst.
    split; [by destruct update|]. split; [by destruct update|].
    rewrite (processMessageAttachments_first_failure _ _ _ _ _ _ _ Hraws Hall Hfail).
    discriminate.
Qed.

End DecoderMore.

(** ** More on the transport *)

Section TransportMore.
Context {Fields : Type} {W : Wire Fields}.
Variable env : Env.
Implicit Types (cl : client) (w : World (Fields := Fields)).

(** X4.  Whatever query the caller hands over, the query that
    [requestReader] sends has [v] set to the client's version and, unless
    [reset] is set, [access_token] set to the client's key, each with that
    one value; every other key goes out as the caller gave it.  One call of
    [Do] is made, with that query. *)
Theorem requestReader_sends_credentials cl method path (query : option Values)
    reset body w :
  (forall q, env_NewRequest env method path q = None) ->
  exists q,
    queries (trace (snd (requestReader env cl method path query reset body w)))
    = (queries (trace w) ++ [q])%list /\
    do_calls (snd (requestReader env cl method path query reset body w))
    = S (do_calls w) /\
    q !! "v" = Some [version cl] /\
    q !! "access_token"
    = (if reset then default ∅ query !! "access_token" else Some [key cl]) /\
    (forall k, k <> "v" -> k <> "access_token" -> q !! k = default ∅ query !! k).
Proof.
  intros Hnew.
  exists (Values_Set "v" (version cl)
            (if negb reset then Values_Set "access_token" (key cl) (default ∅ query)
             else default ∅ query)).
  split; [|split; [|split; [|split]]].
  - run_M. rewrite Hnew.
    destruct (env_Do env (do_calls w)) as [[|] msg|msg|code rbody]; cbn;
      unfold queries; rewrite ?omap_app; cbn; try reflexivity.
    destruct (negb (code =? StatusOK)); cbn; [|by rewrite ?omap_app].
    destruct (ReadAll rbody) as [d|]; [destruct (decode_Error d)|];
      destruct (Close rbody); cbn; rewrite ?omap_app; cbn;
      rewrite ?app_nil_r; reflexivity.
  - run_M. rewrite Hnew.
    destruct (env_Do env (do_calls w)) as [[|] msg|msg|code rbody]; cbn;
      try reflexivity.
    destruct (negb (code =? StatusOK)); cbn; [|reflexivity].
    destruct (ReadAll rbody) as [d|]; [destruct (decode_Error d)|];
      destruct (Close rbody); reflexivity.
  - unfold Values_Set. by rewrite lookup_insert_eq.
  - unfold Values_Set. rewrite lookup_insert_ne by done.
    destruct reset; cbn; [reflexivity | by rewrite lookup_insert_eq].
  - intros k Hv Ht. unfold Values_Set. rewrite lookup_insert_ne by done.
    destruct reset; cbn; [reflexivity | by rewrite lookup_insert_ne].
Qed.

(** X5.  What [request] hands back.  A body comes back only from a
    response with status 200, and it is the body of that response, not
    read and not closed.  A request body that cannot be marshalled ends
    the call before anything is sent.  A [TimeoutError] comes back only
    when [Do] failed with a timeout, and it is a struct allocated for this
    request, named after its method and path: no error of [request] is the
    pointer [errLongPollTimeout]. *)
Theorem request_results cl method path (query : option Values) reset
    (body : option (result RawMessage)) w r w' :
  request env cl method path query reset body w = (r, w') ->
  match r with
  | Ok rbody =>
      env_Do env (do_calls w) = DoResponse StatusOK rbody /\
      do_calls w' = S (do_calls w) /\
      exists q data,
        trace w' = (trace w ++ [EvDo method path q data])%list
  | Err err =>
      eq_errLongPollTimeout err = false /\
      (forall cause, body = Some (Err cause) ->
         err = SerializationErrorPtr "marshal" "request body" cause /\ w' = w) /\
      (forall addr op reason, err = TimeoutErrorPtr addr op reason ->
         addr = S (allocs w) /\ allocs w' = S (allocs w) /\
         op = method ++ " " ++ path /\
         exists msg, env_Do env (do_calls w) = DoUrlError true msg)
  end.
Proof.
  intros Hreq. destruct r as [rbody|err].
  - destruct body as [[data|cause]|]; run_M; try discriminate.
    all: destruct (env_NewRequest env _ _ _); [discriminate|];
      destruct (env_Do env (do_calls w)) as [[|] msg|msg|code rbody0]; cbn in *;
      try discriminate;
      destruct (code =? StatusOK) eqn:Hcode; cbn in *;
      [apply Z.eqb_eq in Hcode; subst code; injection Hreq as <- <-; cbn;
       eauto 6
      |destruct (ReadAll rbody0) as [d|]; [destruct (decode_Error d)|];
       destruct (Close rbody0); discriminate].
  - split; [exact (request_never_errLongPollTimeout env _ _ _ _ _ _ _ _ _ Hreq)|].
    split.
    + intros cause ->. cbn in Hreq. unfold ret in Hreq. by injection Hreq as <- <-.
    + intros addr op reason ->.
      destruct body as [[data|cause]|]; run_M; try discriminate.
      all: destruct (env_NewRequest env _ _ _); [discriminate|];
        destruct (env_Do env (do_calls w)) as [[|] msg|msg|code rbody0]; cbn in *;
        try discriminate;
        [injection Hreq as <- <- <- <-; cbn; eauto 6|];
        destruct (negb (code =? StatusOK)); [|discriminate];
        destruct (ReadAll rbody0) as [d|]; [destruct (decode_Error d)|];
        destruct (Close rbody0); discriminate.
Qed.

End TransportMore.

(** ** More on retrying *)

Section RetryMore.
Context {Fields : Type} {W : Wire Fields}.
Variable env : Env.
Hypothesis NewRequest_ok :
  forall method path query, env_NewRequest env method path query = None.
Implicit Types (a : Api) (w : World (Fields := Fields)).

Lemma retry_one_failure_then_success a params w l :
  outcome_batch (env_Do env (do_calls w)) = None ->
  outcome_batch (env_Do env (S (do_calls w))) = Some l ->
  env_Done env (selects w) = false ->
  exists w',
    getUpdatesWithRetry env a params w = (Ok l, w') /\
    do_calls w' = S (S (do_calls w)) /\
    waits (trace w') = (waits (trace w) ++ [Second])%list.
Proof.
  intros H0 H1 D0.
  unfold getUpdatesWithRetry. cbn zeta. change (Z.to_nat maxRetries) with 3%nat.
  generalize (Some (default zero_UpdatesParams params)). clear params. intros params.
  destruct (getUpdates_failure env NewRequest_ok a params w H0)
    as (e1 & w1 & Hget1 & Hc1 & Hs1 & Hw1).
  rewrite <- Hs1 in D0.
  destruct (after_wait_world env 0 e1 w1 D0) as (Hc1' & Hs1' & _ & Hw1').
  set (w1' := after_wait env 0 e1 w1) in *.
  rewrite <- Hc1, <- Hc1' in H1.
  destruct (getUpdates_success env NewRequest_ok a params w1' l H1)
    as (w2 & Hget2 & Hc2 & Hs2 & Hw2).
  exists w2. split; [|split].
  - rewrite (retry_loop_Err_wait env a params _ 0 None w e1 w1 Hget1 eq_refl D0).
    fold w1'. by apply retry_loop_Ok.
  - congruence.
  - rewrite Hw2, Hw1', Hw1. reflexivity.
Qed.

(** The six ways one call of [getUpdatesWithRetry] can go, by the
    outcomes of its calls of [Do] and of its waits. *)
Lemma getUpdatesWithRetry_cases a params w :
  let k := do_calls w in
  let s := selects w in
  exists r w',
    getUpdatesWithRetry env a params w = (r, w') /\
    ((exists l, outcome_batch (env_Do env k) = Some l /\ r = Ok l /\
        do_calls w' = S k /\ waits (trace w') = waits (trace w))
     \/
     (outcome_batch (env_Do env k) = None /\ env_Done env s = true /\
        r = Err ctxErr /\
        do_calls w' = S k /\ waits (trace w') = waits (trace w))
     \/
     (exists l, outcome_batch (env_Do env k) = None /\ env_Done env s = false /\
        outcome_batch (env_Do env (S k)) = Some l /\ r = Ok l /\
        do_calls w' = S (S k) /\
        waits (trace w') = (waits (trace w) ++ [Second])%list)
     \/
     (outcome_batch (env_Do env k) = None /\ env_Done env s = false /\
        outcome_batch (env_Do env (S k)) = None /\ env_Done env (S s) = true /\
        r = Err ctxErr /\
        do_calls w' = S (S k) /\
        waits (trace w') = (waits (trace w) ++ [Second])%list)
     \/
     (exists l, outcome_batch (env_Do env k) = None /\ env_Done env s = false /\
        outcome_batch (env_Do env (S k)) = None /\ env_Done env (S s) = false /\
        outcome_batch (env_Do env (S (S k))) = Some l /\ r = Ok l /\
        do_calls w' = S (S (S k)) /\
        waits (trace w') = (waits (trace w) ++ [Second; 2 * Second])%list)
     \/
     (exists cause, outcome_batch (env_Do env k) = None /\ env_Done env s = false /\
        outcome_batch (env_Do env (S k)) = None /\ env_Done env (S s) = false /\
        outcome_batch (env_Do env (S (S k))) = None /\
        r = Err (wrapError "failed after 3 attempts" cause) /\
        do_calls w' = S (S (S k)) /\
        waits (trace w') = (waits (trace w) ++ [Second; 2 * Second])%list)).
Proof.
  cbn zeta.
  destruct (outcome_batch (env_Do env (do_calls w))) as [l0|] eqn:H0.
  { destruct (retry_success_at_once env NewRequest_ok a params w l0 H0)
      as (w' & Hr & Hc & Hw).
    exists (Ok l0), w'. split; [exact Hr|]. left. by exists l0. }
  destruct (env_Done env (selects w)) eqn:D0.
  { destruct (retry_cancelled_in_first_wait env NewRequest_ok a params w H0 D0)
      as (w' & Hr & Hc & Hw).
    exists (Err ctxErr), w'. split; [exact Hr|]. right; left. done. }
  destruct (outcome_batch (env_Do env (S (do_calls w)))) as [l1|] eqn:H1.
  { destruct (retry_one_failure_then_success a params w l1 H0 H1 D0)
      as (w' & Hr & Hc & Hw).
    exists (Ok l1), w'. split; [exact Hr|]. right; right; left. by exists l1. }
  destruct (env_Done env (S (selects w))) eqn:D1.
  { destruct (retry_cancelled_in_second_wait env NewRequest_ok a params w H0 H1 D0 D1)
      as (w' & Hr & Hc & Hw).
    exists (Err ctxErr), w'. split; [exact Hr|]. right; right; right; left. done. }
  destruct (outcome_batch (env_Do env (S (S (do_calls w))))) as [l2|] eqn:H2.
  { destruct (retry_two_failures_then_success env NewRequest_ok a params w l2
                H0 H1 H2 D0 D1) as (w' & Hr & Hc & Hw).
    exists (Ok l2), w'. split; [exact Hr|]. do 4 right; left. by exists l2. }
  destruct (retry_three_failures env NewRequest_ok a params w H0 H1 H2 D0 D1)
    as (cause & w' & Hr & Hc & _ & Hw).
  exists (Err (wrapError "failed after 3 attempts" cause)), w'.
  split; [exact Hr|]. do 5 right. by exists cause.
Qed.

(** X6.  A batch that [getUpdatesWithRetry] returns is the batch of the
    first call of [Do] that brought one: it was call number j+1 for some
    j below 3, the j calls before it brought none, the waits after them
    elapsed and were the first j of 1s and 2s.  So a fetch that succeeds
    at once is returned with no wait. *)
Theorem getUpdatesWithRetry_first_success a params w l w' :
  getUpdatesWithRetry env a params w = (Ok l, w') ->
  exists j,
    (j < 3)%nat /\
    do_calls w' = (S j + do_calls w)%nat /\
    (forall i, (i < j)%nat ->
       outcome_batch (env_Do env (i + do_calls w)) = None /\
       env_Done env (i + selects w) = false) /\
    outcome_batch (env_Do env (j + do_calls w)) = Some l /\
    waits (trace w') = (waits (trace w) ++ take j [Second; 2 * Second])%list.
Proof.
  intros Hr.
  destruct (getUpdatesWithRetry_cases a params w) as (r & w0 & Hr0 & Hcases).
  rewrite Hr in Hr0. injection Hr0 as <- <-.
  destruct Hcases as [(l0 & H0 & [= <-] & Hc & Hw)
                     |[(_ & _ & [=] & _)
                     |[(l1 & H0 & D0 & H1 & [= <-] & Hc & Hw)
                     |[(_ & _ & _ & _ & [=] & _)
                     |[(l2 & H0 & D0 & H1 & D1 & H2 & [= <-] & Hc & Hw)
                     |(cause & _ & _ & _ & _ & _ & [=] & _)]]]]].
  - exists 0%nat. cbn. rewrite app_nil_r. repeat split; try done; lia.
  - exists 1%nat. cbn. repeat split; try done; try lia;
      destruct i as [|i]; try lia; done.
  - exists 2%nat. cbn. repeat split; try done; try lia;
      destruct i as [|[|i]]; try lia; done.
Qed.

(** X7.  [getUpdatesWithRetry] fails in two ways only.  Either a wait was
    cut by cancellation, after a first or a second failed call, and the
    error is the context's; or three calls were made, none brought a
    batch, the waits of 1s and 2s elapsed between them, and the error is
    the third failure wrapped as the failure of three attempts. *)
Theorem getUpdatesWithRetry_failure a params w (err : error) w' :
  getUpdatesWithRetry env a params w = (Err err, w') ->
  (err = ctxErr /\
   exists j,
     (j < 2)%nat /\
     do_calls w' = (S j + do_calls w)%nat /\
     (forall i, (i <= j)%nat ->
        outcome_batch (env_Do env (i + do_calls w)) = None) /\
     env_Done env (j + selects w) = true /\
     waits (trace w') = (waits (trace w) ++ take j [Second; 2 * Second])%list)
  \/
  (exists cause,
      err = wrapError "failed after 3 attempts" cause /\
      do_calls w' = (3 + do_calls w)%nat /\
      (forall i, (i < 3)%nat ->
         outcome_batch (env_Do env (i + do_calls w)) = None) /\
      waits (trace w') = (waits (trace w) ++ [Second; 2 * Second])%list).
Proof.
  intros Hr.
  destruct (getUpdatesWithRetry_cases a params w) as (r & w0 & Hr0 & Hcases).
  rewrite Hr in Hr0. injection Hr0 as <- <-.
  destruct Hcases as [(l0 & _ & [=] & _)
                     |[(H0 & D0 & [= ->] & Hc & Hw)
                     |[(l1 & _ & _ & _ & [=] & _)
                     |[(H0 & D0 & H1 & D1 & [= ->] & Hc & Hw)
                     |[(l2 & _ & _ & _ & _ & _ & [=] & _)
                     |(cause & H0 & D0 & H1 & D1 & H2 & [= ->] & Hc & Hw)]]]]].
  - left. split; [reflexivity|]. exists 0%nat. cbn. rewrite app_nil_r.
    repeat split; try done; try lia. intros i Hi.
    assert (i = 0%nat) as -> by lia. done.
  - left. split; [reflexivity|]. exists 1%nat. cbn.
    repeat split; try done; try lia. intros [|[|i]] Hi; try lia; done.
  - right. exists cause. repeat split; try done.
    intros [|[|[|i]]] Hi; try lia; done.
Qed.

End RetryMore.

(** ** More on the retrieval loop *)

Section LoopMore.
Context {Fields : Type} {W : Wire Fields}.
Variable env : Env.
Implicit Types (a : Api) (w : World (Fields := Fields)) (s : LoopState (Fields := Fields)).

Lemma decoded_cons a raw (rest : list RawMessage) :
  decoded a (raw :: rest)
  = match bytesToProperUpdate a raw with
    | Ok u => u :: decoded a rest
    | Err _ => decoded a rest
    end.
Proof. unfold decoded. cbn. by destruct (bytesToProperUpdate a raw). Qed.

(** X8.  Whatever the context does, the updates that the inner range loop
    pushes are the first few of the updates of the batch that decode, in
    the order of the batch.  When the loop falls through they are all of
    them; when it leaves through [return] the last thing that happened is
    the [<-ctx.Done()] case. *)
Theorem range_Updates_pushes_a_prefix a (updates : list RawMessage) w :
  exists ds,
    sent (trace (snd (range_Updates env a updates w)))
    = (sent (trace w) ++ ds)%list /\
    ds `prefix_of` decoded a updates /\
    (fst (range_Updates env a updates w) = false -> ds = decoded a updates) /\
    (fst (range_Updates env a updates w) = true ->
     last (trace (snd (range_Updates env a updates w))) = Some EvCtxDone).
Proof.
  revert w. induction updates as [|raw rest IH]; intros w.
  - exists []. cbn. rewrite app_nil_r. repeat split; done.
  - cbn [range_Updates]. rewrite decoded_cons.
    destruct (bytesToProperUpdate a raw) as [u|]; [|apply IH].
    unfold bind, select_Done.
    destruct (env_Done env (selects w)); cbn.
    + exists []. unfold sent. rewrite omap_app. cbn. rewrite !app_nil_r.
      split; [done|]. split; [apply prefix_nil|]. split; [done|].
      intros _. apply last_snoc.
    + match goal with |- context [range_Updates env a rest ?w1] =>
        destruct (IH w1) as (ds & Hs & Hp & Hf & Ht) end.
      exists (u :: ds). rewrite Hs. cbn. unfold sent at 1. rewrite omap_app. cbn.
      rewrite <- app_assoc. split; [done|].
      split; [by apply prefix_cons|]. split; [|exact Ht].
      intros Hfalse. by rewrite (Hf Hfalse).
Qed.

Lemma closes_app (tr1 tr2 : list (@Event Fields)) :
  closes (tr1 ++ tr2) = (closes tr1 + closes tr2)%nat.
Proof. unfold closes. by rewrite omap_app, length_app. Qed.

Lemma getUpdates_closes a params w :
  closes (trace (snd (getUpdates env a params w))) = closes (trace w).
Proof.
  run_M. destruct (env_NewRequest env _ _ _); cbn; [reflexivity|].
  destruct (env_Do env (do_calls w)) as [[|] msg|msg|code rbody]; cbn;
    unfold closes in *; rewrite ?omap_app, ?length_app; cbn; try lia.
  destruct (negb (code =? StatusOK)).
  - destruct (ReadAll rbody) as [d|]; [destruct (decode_Error d)|];
      destruct (Close rbody); cbn; unfold closes in *; rewrite ?omap_app, ?length_app; cbn; lia.
  - cbn. destruct (ReadAll rbody) as [d|];
      [destruct (unmarshal_UpdateList d zero_UpdateList)|];
      destruct (Close rbody); cbn; unfold closes in *; rewrite ?omap_app, ?length_app; cbn; lia.
Qed.

Lemma retry_loop_closes a params n attempt lastErr w :
  closes (trace (snd (retry_loop env a params n attempt lastErr w)))
  = closes (trace w).
Proof.
  revert attempt lastErr w. induction n as [|n IH]; intros attempt lastErr w.
  - reflexivity.
  - cbn [retry_loop]. unfold bind at 1.
    pose proof (getUpdates_closes a params w) as Hc.
    destruct (getUpdates env a params w) as [[l|err] w1]; cbn in Hc |- *; [done|].
    destruct (attempt <? maxRetries - 1).
    + unfold bind, emit, select_Done. cbn.
      destruct (env_Done env (selects w1)); cbn.
      * unfold closes in *. rewrite ?omap_app, ?length_app. cbn. lia.
      * rewrite IH. cbn. unfold closes in *. rewrite ?omap_app, ?length_app. cbn. lia.
    + by rewrite IH.
Qed.

Lemma range_Updates_closes a updates w :
  closes (trace (snd (range_Updates env a updates w))) = closes (trace w).
Proof.
  revert w. induction updates as [|raw rest IH]; intros w; cbn; [reflexivity|].
  destruct (bytesToProperUpdate a raw) as [u|]; [|apply IH].
  unfold bind, select_Done. cbn.
  destruct (env_Done env (selects w)); cbn.
  - unfold closes in *. rewrite ?omap_app, ?length_app. cbn. lia.
  - rewrite IH. cbn. unfold closes in *. rewrite ?omap_app, ?length_app. cbn. lia.
Qed.

(** A pass through the inner loop does not close the channel, and when it
    ends by [return] the last thing that happened is the [<-ctx.Done()]
    case. *)
Lemma drain_once_closes a marker w :
  closes (trace (snd (drain_once env a marker w))) = closes (trace w) /\
  (fst (drain_once env a marker w) = Return ->
   last (trace (snd (drain_once env a marker w))) = Some EvCtxDone).
Proof.
  unfold drain_once, bind.
  pose proof (retry_loop_closes a (Some (GetUpdates_params a marker))
                (Z.to_nat maxRetries) 0 None w) as Hc.
  change (retry_loop env a (Some (GetUpdates_params a marker))
            (Z.to_nat maxRetries) 0 None w)
    with (getUpdatesWithRetry env a (Some (GetUpdates_params a marker)) w) in Hc.
  destruct (getUpdatesWithRetry env a (Some (GetUpdates_params a marker)) w)
    as [[l|err] w1]; cbn in Hc.
  - destruct (length (UpdateList_Updates l) =? 0)%nat; cbn; [done|].
    pose proof (range_Updates_closes a (UpdateList_Updates l) w1) as Hr.
    destruct (range_Updates_pushes_a_prefix a (UpdateList_Updates l) w1)
      as (_ & _ & _ & _ & Ht).
    destruct (range_Updates env a (UpdateList_Updates l) w1) as [[|] w2];
      cbn in *; (split; [congruence|]); [auto | discriminate].
  - unfold emit. cbn. unfold closes in *. rewrite ?omap_app, ?length_app. cbn. split; [lia | discriminate].
Qed.

(** The state of the channel, by the phase of the goroutine. *)
Lemma GetUpdates_step_closes a s :
  match phase s with
  | Stopped =>
      closes (trace (world s)) = 1%nat /\
      exists tr, trace (world s) = (tr ++ [EvCtxDone; EvCloseChan])%list
  | _ => closes (trace (world s)) = 0%nat
  end ->
  match phase (GetUpdates_step env a s) with
  | Stopped =>
      closes (trace (world (GetUpdates_step env a s))) = 1%nat /\
      exists tr,
        trace (world (GetUpdates_step env a s))
        = (tr ++ [EvCtxDone; EvCloseChan])%list
  | _ => closes (trace (world (GetUpdates_step env a s))) = 0%nat
  end.
Proof.
  unfold GetUpdates_step. destruct (phase s) eqn:Hp.
  - intros Hc. unfold select_Done, emit.
    destruct (env_Done env (selects (world s))); cbn.
    + unfold closes in *. rewrite ?omap_app, ?length_app. cbn. split; [lia|].
      exists (trace (world s)). by rewrite <- app_assoc.
    + unfold closes in *. rewrite ?omap_app, ?length_app. cbn. lia.
  - intros Hc.
    destruct (drain_once_closes a (cursor s) (world s)) as [Hcl Hret].
    destruct (drain_once env a (cursor s) (world s)) as [[m| |] w1]; cbn in *;
      try lia.
    unfold emit. cbn. unfold closes in *. rewrite ?omap_app, ?length_app. cbn. split; [lia|].
    specialize (Hret eq_refl).
    destruct (trace w1) as [|e tr] using rev_ind; [discriminate|].
    rewrite last_snoc in Hret. injection Hret as ->.
    exists tr. by rewrite <- app_assoc.
  - rewrite Hp. done.
Qed.

Lemma GetUpdates_run_Stopped a n m w :
  phase (GetUpdates_run env a n w) = Stopped -> (n <= m)%nat ->
  GetUpdates_run env a m w = GetUpdates_run env a n w.
Proof.
  intros Hs Hle. induction Hle as [|m Hle IH]; [reflexivity|].
  change (GetUpdates_run env a (S m) w)
    with (GetUpdates_step env a (GetUpdates_run env a m w)).
  rewrite IH. unfold GetUpdates_step. by rewrite Hs.
Qed.

(** X9.  The goroutine of [GetUpdates] closes its channel once, when it
    returns, and it returns only after a [<-ctx.Done()] case was taken:
    while it runs the channel is open; once it has returned, the last two
    things that happened are that case and the close, and nothing happens
    any more (in particular no send on the closed channel). *)
Theorem GetUpdates_closes_once a n w :
  closes (trace w) = 0%nat ->
  (phase (GetUpdates_run env a n w) <> Stopped ->
   closes (trace (world (GetUpdates_run env a n w))) = 0%nat) /\
  (phase (GetUpdates_run env a n w) = Stopped ->
   closes (trace (world (GetUpdates_run env a n w))) = 1%nat /\
   (exists tr,
       trace (world (GetUpdates_run env a n w))
       = (tr ++ [EvCtxDone; EvCloseChan])%list) /\
   forall m, (n <= m)%nat ->
             GetUpdates_run env a m w = GetUpdates_run env a n w).
Proof.
  intros Hw.
  assert (Hinv : match phase (GetUpdates_run env a n w) with
    | Stopped =>
        closes (trace (world (GetUpdates_run env a n w))) = 1%nat /\
        exists tr, trace (world (GetUpdates_run env a n w))
                   = (tr ++ [EvCtxDone; EvCloseChan])%list
    | _ => closes (trace (world (GetUpdates_run env a n w))) = 0%nat
    end).
  { induction n as [|n IH]; [exact Hw|].
    change (GetUpdates_run env a (S n) w)
      with (GetUpdates_step env a (GetUpdates_run env a n w)).
    by apply GetUpdates_step_closes. }
  split.
  - intros Hp. by destruct (phase (GetUpdates_run env a n w)).
  - intros Hp. rewrite Hp in Hinv. destruct Hinv as [Hc Htr].
    split; [exact Hc|]. split; [exact Htr|].
    intros m Hm. by apply GetUpdates_run_Stopped.
Qed.

End LoopMore.

(** ** The loop from end to end *)

Section LoopEndToEnd.
Context {Fields : Type} {W : Wire Fields}.
Variable env : Env.
Implicit Types (a : Api) (w : World (Fields := Fields)) (s : LoopState (Fields := Fields)).

Lemma GetUpdates_run_do_calls a n w :
  (do_calls w <= do_calls (world (GetUpdates_run env a n w)))%nat.
Proof.
  induction n as [|n IH]; [cbn; lia|].
  change (GetUpdates_run env a (S n) w)
    with (GetUpdates_step env a (GetUpdates_run env a n w)).
  pose proof (GetUpdates_step_cursor env a (GetUpdates_run env a n w)) as [Hle _].
  lia.
Qed.

(** X10.  The cursor of the loop is never made up: at every moment it is
    zero, or a marker that the endpoint reported in answer to one of the
    calls made so far. *)
Theorem GetUpdates_cursor_provenance a n w :
  cursor (GetUpdates_run env a n w) = 0 \/
  exists k,
    (do_calls w <= k < do_calls (world (GetUpdates_run env a n w)))%nat /\
    response_marker env k = Some (cursor (GetUpdates_run env a n w)).
Proof.
  induction n as [|n IH]; [by left|].
  change (GetUpdates_run env a (S n) w)
    with (GetUpdates_step env a (GetUpdates_run env a n w)).
  pose proof (GetUpdates_run_do_calls a n w) as Hn.
  destruct (GetUpdates_step_cursor env a (GetUpdates_run env a n w))
    as [Hle [Heq|(k & Hk & Hm)]].
  - rewrite Heq. destruct IH as [IH|(k & Hk & Hm)]; [by left|].
    right. exists k. split; [lia | exact Hm].
  - right. exists k. split; [lia | exact Hm].
Qed.

Lemma queries_app (tr1 tr2 : list (@Event Fields)) :
  queries (tr1 ++ tr2) = (queries tr1 ++ queries tr2)%list.
Proof. unfold queries. by rewrite omap_app. Qed.

(** One fetch sends no query, or the query of its parameters. *)
Lemma getUpdates_queries a (params : UpdatesParams) w :
  queries (trace (snd (getUpdates env a (Some params) w))) = queries (trace w) \/
  queries (trace (snd (getUpdates env a (Some params) w)))
  = (queries (trace w) ++ [poll_query a params])%list.
Proof.
  run_M. destruct (env_NewRequest env _ _ _); cbn; [by left|]. right.
  destruct (env_Do env (do_calls w)) as [[|] msg|msg|code rbody]; cbn;
    unfold queries, poll_query; rewrite ?omap_app; cbn; try reflexivity.
  destruct (negb (code =? StatusOK)).
  - destruct (ReadAll rbody) as [d|]; [destruct (decode_Error d)|];
      destruct (Close rbody); cbn; unfold queries, poll_query; rewrite ?omap_app; cbn;
      rewrite ?app_nil_r; reflexivity.
  - cbn. destruct (ReadAll rbody) as [d|];
      [destruct (unmarshal_UpdateList d zero_UpdateList)|];
      destruct (Close rbody); cbn; unfold queries, poll_query; rewrite ?omap_app; cbn;
      rewrite ?app_nil_r; reflexivity.
Qed.

Lemma retry_loop_queries (Q : Values -> Prop) a (params : UpdatesParams)
    n attempt lastErr w :
  Q (poll_query a params) ->
  Forall Q (queries (trace w)) ->
  Forall Q (queries (trace (snd (retry_loop env a (Some params) n attempt lastErr w)))).
Proof.
  intros HQ. revert attempt lastErr w.
  induction n as [|n IH]; intros attempt lastErr w Hw; [exact Hw|].
  cbn [retry_loop]. unfold bind at 1.
  assert (Hw1 : Forall Q (queries (trace (snd (getUpdates env a (Some params) w))))).
  { destruct (getUpdates_queries a params w) as [->| ->]; [exact Hw|].
    apply Forall_app. split; [exact Hw | by constructor]. }
  destruct (getUpdates env a (Some params) w) as [[l|err] w1]; cbn in Hw1 |- *;
    [exact Hw1|].
  destruct (attempt <? maxRetries - 1).
  - unfold bind, emit, select_Done. cbn.
    destruct (env_Done env (selects w1)); cbn.
    + unfold queries in *. rewrite ?omap_app. cbn. by rewrite ?app_nil_r.
    + apply IH. cbn. unfold queries in *. rewrite ?omap_app. cbn. by rewrite ?app_nil_r.
  - by apply IH.
Qed.

Lemma range_Updates_queries a updates w :
  queries (trace (snd (range_Updates env a updates w))) = queries (trace w).
Proof.
  revert w. induction updates as [|raw rest IH]; intros w; cbn; [reflexivity|].
  destruct (bytesToProperUpdate a raw) as [u|]; [|apply IH].
  unfold bind, select_Done. cbn.
  destruct (env_Done env (selects w)); cbn.
  - unfold queries in *. rewrite ?omap_app. cbn. by rewrite ?app_nil_r.
  - rewrite IH. cbn. unfold queries in *. rewrite ?omap_app. cbn. by rewrite ?app_nil_r.
Qed.

Lemma poll_query_loop_query a (c : Z) :
  (c = 0 \/ exists k, response_marker env k = Some c) ->
  loop_query env a (poll_query a (GetUpdates_params a c)).
Proof.
  intros Hc. unfold loop_query, poll_query, getUpdates_values, GetUpdates_params.
  cbn. unfold Values_Set.
  repeat split.
  - destruct (0 <? timeout a), (0 <? c); by simplify_map_eq.
  - destruct (0 <? timeout a), (0 <? c); by simplify_map_eq.
  - destruct (0 <? timeout a), (0 <? c); by simplify_map_eq.
  - destruct (0 <? timeout a), (0 <? c); by simplify_map_eq.
  - destruct (0 <? timeout a), (0 <? c); by simplify_map_eq.
  - exists c. split; [exact Hc|].
    destruct (0 <? timeout a), (0 <? c); by simplify_map_eq.
Qed.

Lemma drain_once_queries a (c : Z) w :
  (c = 0 \/ exists k, response_marker env k = Some c) ->
  Forall (loop_query env a) (queries (trace w)) ->
  Forall (loop_query env a) (queries (trace (snd (drain_once env a c w)))).
Proof.
  intros Hc Hw. unfold drain_once, bind.
  pose proof (retry_loop_queries (loop_query env a) a (GetUpdates_params a c)
                (Z.to_nat maxRetries) 0 None w (poll_query_loop_query a c Hc) Hw)
    as Hq.
  change (retry_loop env a (Some (GetUpdates_params a c))
            (Z.to_nat maxRetries) 0 None w)
    with (getUpdatesWithRetry env a (Some (GetUpdates_params a c)) w) in Hq.
  destruct (getUpdatesWithRetry env a (Some (GetUpdates_params a c)) w)
    as [[l|err] w1]; cbn in Hq.
  - destruct (length (UpdateList_Updates l) =? 0)%nat; cbn; [exact Hq|].
    pose proof (range_Updates_queries a (UpdateList_Updates l) w1) as Hr.
    destruct (range_Updates env a (UpdateList_Updates l) w1) as [[|] w2];
      cbn in *; by rewrite Hr.
  - unfold emit. cbn. unfold queries in *. rewrite ?omap_app. cbn. by rewrite ?app_nil_r.
Qed.

(** X11.  Every query that the loop sends asks for at most 50 updates,
    names no [types], carries the key and the version of the client and
    the long-poll timeout, and as [marker] the cursor when it is positive,
    which is then a marker that the endpoint reported; with the cursor at
    zero there is no [marker]. *)
Theorem GetUpdates_queries a n w :
  Forall (loop_query env a) (queries (trace w)) ->
  Forall (loop_query env a) (queries (trace (world (GetUpdates_run env a n w)))).
Proof.
  intros Hw. induction n as [|n IH]; [exact Hw|].
  change (GetUpdates_run env a (S n) w)
    with (GetUpdates_step env a (GetUpdates_run env a n w)).
  assert (Hc : cursor (GetUpdates_run env a n w) = 0 \/
               exists k, response_marker env k
                         = Some (cursor (GetUpdates_run env a n w))).
  { destruct (GetUpdates_cursor_provenance a n w) as [H0|(k & _ & Hk)];
      [by left | right; by exists k]. }
  unfold GetUpdates_step. destruct (phase (GetUpdates_run env a n w)).
  - unfold select_Done, emit.
    destruct (env_Done env (selects (world (GetUpdates_run env a n w)))); cbn;
      unfold queries in *; rewrite ?omap_app; cbn; by rewrite ?app_nil_r.
  - pose proof (drain_once_queries a _ _ Hc IH) as Hd.
    destruct (drain_once env a (cursor (GetUpdates_run env a n w))
                (world (GetUpdates_run env a n w))) as [[m| |] w1]; cbn in *;
      try exact Hd.
    unfold emit. cbn. unfold queries in *. rewrite ?omap_app. cbn. by rewrite ?app_nil_r.
  - exact IH.
Qed.

Lemma fetched_refl a (i : nat) : fetched env a i i = [].
Proof. unfold fetched. by rewrite Nat.sub_diag. Qed.

Lemma fetched_one a (i : nat) : fetched env a i (S i) = call_updates env a i.
Proof.
  unfold fetched. replace (S i - i)%nat with 1%nat by lia. cbn.
  by rewrite app_nil_r.
Qed.

Lemma fetched_app a (i j k : nat) :
  (i <= j)%nat -> (j <= k)%nat ->
  fetched env a i k = (fetched env a i j ++ fetched env a j k)%list.
Proof.
  intros Hij Hjk. unfold fetched.
  replace (k - i)%nat with ((j - i) + (k - j))%nat by lia.
  rewrite seq_app, map_app, concat_app.
  by replace (i + (j - i))%nat with j by lia.
Qed.

(** What one fetch returns is what its call of [Do] brought, and it pushes
    nothing. *)
Lemma getUpdates_fetched a params w r w' :
  getUpdates env a params w = (r, w') ->
  sent (trace w') = sent (trace w) /\
  (do_calls w <= do_calls w')%nat /\
  fetched env a (do_calls w) (do_calls w')
  = match r with
    | Ok l => decoded a (UpdateList_Updates l)
    | Err _ => []
    end.
Proof.
  intros Hget.
  pose proof (getUpdates_world env a params w) as (_ & _ & Hs & Hc).
  rewrite Hget in Hs, Hc. cbn in Hs, Hc.
  split; [exact Hs|]. split; [lia|].
  destruct r as [l|err].
  - destruct (getUpdates_Ok_inv env a params w l w' Hget) as [Hc' Hout].
    rewrite Hc', fetched_one. unfold call_updates. by rewrite Hout.
  - assert (Haux : do_calls w' = do_calls w \/
                   (do_calls w' = S (do_calls w) /\
                    outcome_batch (env_Do env (do_calls w)) = None)).
    { clear Hs Hc. revert Hget. run_M.
      destruct (env_NewRequest env _ _ _); cbn.
      { intros [= <- <-]. by left. }
      unfold outcome_batch.
      destruct (env_Do env (do_calls w)) as [[|] msg|msg|code rbody]; cbn;
        try (intros [= <- <-]; right; by split).
      destruct (code =? StatusOK); cbn.
      - destruct (ReadAll rbody) as [d|];
          [destruct (unmarshal_UpdateList d zero_UpdateList)|];
          destruct (Close rbody); cbn; intros Hq;
          first [discriminate Hq | injection Hq as <- <-; right; by split].
      - destruct (ReadAll rbody) as [d|]; [destruct (decode_Error d)|];
          destruct (Close rbody); cbn; intros [= <- <-]; right; by split. }
    destruct Haux as [->|[-> Hout]]; [apply fetched_refl|].
    rewrite fetched_one. unfold call_updates. by rewrite Hout.
Qed.

Lemma retry_loop_fetched a params n attempt lastErr w r w' :
  retry_loop env a params n attempt lastErr w = (r, w') ->
  sent (trace w') = sent (trace w) /\
  (do_calls w <= do_calls w')%nat /\
  fetched env a (do_calls w) (do_calls w')
  = match r with
    | Ok l => decoded a (UpdateList_Updates l)
    | Err _ => []
    end.
Proof.
  revert attempt lastErr w. induction n as [|n IH]; intros attempt lastErr w.
  - cbn. unfold ret. intros [= <- <-]. split; [done|]. split; [lia|].
    apply fetched_refl.
  - cbn [retry_loop]. unfold bind at 1.
    destruct (getUpdates env a params w) as [r1 w1] eqn:Hget.
    apply getUpdates_fetched in Hget as (Hs1 & Hc1 & Hf1).
    destruct r1 as [l|err].
    { unfold ret. intros [= <- <-]. by split. }
    destruct (attempt <? maxRetries - 1).
    + unfold bind, emit, select_Done. cbn.
      destruct (env_Done env (selects w1)); cbn.
      * unfold ret. intros [= <- <-]. cbn. split; [|split; [lia | exact Hf1]].
        rewrite <- Hs1. unfold sent. rewrite !omap_app. cbn. by rewrite !app_nil_r.
      * intros Hrec. apply IH in Hrec as (Hs & Hc & Hf). cbn in Hs, Hc, Hf.
        split; [|split; [lia|]].
        -- rewrite Hs, <- Hs1. unfold sent. rewrite !omap_app. cbn.
           by rewrite !app_nil_r.
        -- rewrite (fetched_app a _ (do_calls w1)) by lia. by rewrite Hf1, Hf.
    + intros Hrec. apply IH in Hrec as (Hs & Hc & Hf).
      split; [congruence|]. split; [lia|].
      rewrite (fetched_app a _ (do_calls w1)) by lia. by rewrite Hf1, Hf.
Qed.

Lemma drain_once_fetched a marker w :
  (forall n, env_Done env n = false) ->
  sent (trace (snd (drain_once env a marker w)))
  = (sent (trace w)
       ++ fetched env a (do_calls w) (do_calls (snd (drain_once env a marker w))))%list.
Proof.
  intros Hdone. unfold drain_once, bind.
  destruct (getUpdatesWithRetry env a (Some (GetUpdates_params a marker)) w)
    as [r w1] eqn:Hget.
  unfold getUpdatesWithRetry in Hget.
  apply retry_loop_fetched in Hget as (Hs & Hc & Hf).
  destruct r as [l|err].
  - destruct (Nat.eqb_spec (length (UpdateList_Updates l)) 0) as [Hlen|Hlen].
    + pose proof Hlen as Hnil. apply length_zero_iff_nil in Hnil.
      rewrite Hnil in Hf. unfold ret. cbn [snd fst do_calls trace].
      rewrite Hf, Hs. unfold decoded. cbn. by rewrite app_nil_r.
    + pose proof (range_Updates_sends env a (UpdateList_Updates l) w1 Hdone)
        as [Hfalse Hsent].
      pose proof (range_Updates_do_calls env a (UpdateList_Updates l) w1) as Hcalls.
      destruct (range_Updates env a (UpdateList_Updates l) w1) as [ret_ w2].
      cbn [fst snd] in Hfalse, Hsent, Hcalls. subst ret_.
      unfold ret. cbn [snd fst do_calls trace].
      by rewrite Hsent, Hs, Hcalls, Hf.
  - unfold emit, ret. cbn [snd fst do_calls trace]. rewrite Hf, app_nil_r, <- Hs.
    unfold sent. rewrite omap_app. cbn. by rewrite app_nil_r.
Qed.

(** X12.  While the context is not done, nothing is lost, doubled or
    reordered between the transport and the channel: what the loop has
    pushed is, call after call, every update of every batch brought by a
    call of [Do] that decodes, in the order of the batch. *)
Theorem GetUpdates_delivers_all a n w :
  (forall k, env_Done env k = false) ->
  sent (trace (world (GetUpdates_run env a n w)))
  = (sent (trace w)
       ++ fetched env a (do_calls w)
            (do_calls (world (GetUpdates_run env a n w))))%list.
Proof.
  intros Hdone. induction n as [|n IH].
  - cbn. by rewrite fetched_refl, app_nil_r.
  - change (GetUpdates_run env a (S n) w)
      with (GetUpdates_step env a (GetUpdates_run env a n w)).
    pose proof (GetUpdates_run_do_calls a n w) as Hn.
    pose proof (GetUpdates_step_cursor env a (GetUpdates_run env a n w)) as [Hle _].
    rewrite (fetched_app a _ (do_calls (world (GetUpdates_run env a n w)))) by lia.
    rewrite app_assoc, <- IH. clear IH Hn Hle.
    set (s := GetUpdates_run env a n w).
    unfold GetUpdates_step. destruct (phase s).
    + unfold select_Done. rewrite Hdone. cbn -[fetched sent].
      rewrite fetched_refl, app_nil_r. unfold sent. rewrite omap_app. cbn.
      by rewrite app_nil_r.
    + pose proof (drain_once_fetched a (cursor s) (world s) Hdone) as Hd.
      pose proof (GetUpdates_step_not_Stopped env a
                    {| phase := AtDrain; cursor := cursor s; world := world s |}
                    Hdone) as Hns.
      unfold GetUpdates_step in Hns. cbn -[fetched sent] in Hns.
      destruct (drain_once env a (cursor s) (world s)) as [[m| |] w1];
        cbn -[fetched sent] in *;
        try exact Hd.
      exfalso. by apply Hns.
    + by rewrite fetched_refl, app_nil_r.
Qed.

End LoopEndToEnd.

(** ** The constructors *)

Section ConstructorFacts.
Variable URL : Type.
Variable url_Parse : string -> result URL.
Variable Getenv : string -> string.

Lemma wrap_int64_range (z : Z) : - 2 ^ 63 <= wrap_int64 z < 2 ^ 63.
Proof.
  unfold wrap_int64. change (2 ^ 63) with 9223372036854775808.
  change (2 ^ 64) with 18446744073709551616.
  Z.div_mod_to_equations. lia.
Qed.

Lemma wrap_int64_small (z : Z) :
  - 2 ^ 63 <= z < 2 ^ 63 -> wrap_int64 z = z.
Proof.
  unfold wrap_int64. change (2 ^ 63) with 9223372036854775808.
  change (2 ^ 64) with 18446744073709551616.
  intros Hz. Z.div_mod_to_equations. lia.
Qed.

Lemma wrap_int64_over (z : Z) :
  2 ^ 63 <= z < 2 ^ 64 -> wrap_int64 z = z - 2 ^ 64.
Proof.
  unfold wrap_int64. change (2 ^ 63) with 9223372036854775808.
  change (2 ^ 64) with 18446744073709551616.
  intros Hz. Z.div_mod_to_equations. lia.
Qed.

Lemma eqb_empty (s : string) : String.eqb s "" = false <-> s <> "".
Proof. by rewrite String.eqb_neq. Qed.

(** What [NewWithConfig] went through when it returns a client. *)
Lemma NewWithConfig_inr (cfg : option Config) (h : NewApi URL) :
  NewWithConfig url_Parse Getenv cfg = inr h ->
  exists c token text u,
    cfg = Some c /\
    token = (if String.eqb (BotTokenCheckString c) "" then Getenv "TOKEN"
             else BotTokenCheckString c) /\
    token <> "" /\
    text = (if String.eqb (GetHttpBotAPIUrl c) "" then defaultAPIURL
            else GetHttpBotAPIUrl c) /\
    url_Parse text = Ok u /\
    let t := wrap_int64 (GetHttpBotAPITimeOut c * Second) in
    let t := if t <=? 0 then defaultTimeout else t in
    let cl := {| key := token;
                 version := if String.eqb (GetHttpBotAPIVersion c) ""
                            then const_version else GetHttpBotAPIVersion c;
                 httpClient_Timeout := t |} in
    h = {| new_Api := {| api_client := cl; timeout := t; pause := defaultPause;
                         debug := GetDebugLogMode c |};
           new_baseURL := u;
           new_Debugs := newDebugs cl (GetDebugLogChat c);
           new_Uploads := newUploads cl;
           new_Subscriptions := newSubscriptions cl |}.
Proof.
  destruct cfg as [c|]; [|discriminate]. cbn.
  destruct (String.eqb (if String.eqb (BotTokenCheckString c) "" then Getenv "TOKEN"
                        else BotTokenCheckString c) "") eqn:Htok; [discriminate|].
  apply eqb_empty in Htok.
  destruct (url_Parse (if String.eqb (GetHttpBotAPIUrl c) "" then defaultAPIURL
                       else GetHttpBotAPIUrl c)) as [u|err] eqn:Hurl; [|discriminate].
  intros [= <-]. by eexists c, _, _, u.
Qed.

(** X13.  Every client that [NewWithConfig] returns has a token and a
    version that are not empty, a timeout that is positive and fits an
    [int64] and is the timeout of its HTTP client, a pause of one second,
    sub-clients that share its transport client, and a base URL parsed
    from a text that is not empty. *)
Theorem NewWithConfig_invariants (cfg : option Config) (h : NewApi URL) :
  NewWithConfig url_Parse Getenv cfg = inr h ->
  let cl := api_client (new_Api h) in
  key cl <> "" /\
  version cl <> "" /\
  0 < timeout (new_Api h) < 2 ^ 63 /\
  httpClient_Timeout cl = timeout (new_Api h) /\
  pause (new_Api h) = Second /\
  debugs_client (new_Debugs h) = cl /\
  uploads_client (new_Uploads h) = cl /\
  subscriptions_client (new_Subscriptions h) = cl /\
  exists text, text <> "" /\ url_Parse text = Ok (new_baseURL h).
Proof.
  intros (c & token & text & u & -> & Htoken & Hne & Htext & Hurl & ->)%NewWithConfig_inr.
  cbn. split; [exact Hne|]. split.
  { destruct (String.eqb (GetHttpBotAPIVersion c) "") eqn:Hv; [done|].
    by apply eqb_empty. }
  split.
  { pose proof (wrap_int64_range (GetHttpBotAPITimeOut c * Second)) as Hr.
    destruct (Z.leb_spec (wrap_int64 (GetHttpBotAPITimeOut c * Second)) 0);
      [unfold defaultTimeout, Second; change (2 ^ 63) with 9223372036854775808; lia
      | lia]. }
  repeat (split; [reflexivity|]).
  exists text. split; [|exact Hurl]. subst text.
  destruct (String.eqb (GetHttpBotAPIUrl c) "") eqn:Hu; [done|]. by apply eqb_empty.
Qed.


(** X15.  [NewWithConfig] fails in three ways, tried in this order: with
    "config is nil" exactly when there is no configuration; with
    [ErrEmptyToken] exactly when the configured token and the variable
    TOKEN are both empty, whatever the URL; and wrapping [ErrInvalidURL]
    around the error of [url.Parse] exactly when there is a token and the
    configured URL, or the default one when none is configured, does not
    parse. *)
Theorem NewWithConfig_errors (cfg : option Config) :
  (NewWithConfig url_Parse Getenv cfg = inl ConfigIsNil <-> cfg = None) /\
  (NewWithConfig url_Parse Getenv cfg = inl EmptyToken <->
   exists c, cfg = Some c /\ BotTokenCheckString c = "" /\ Getenv "TOKEN" = "") /\
  (forall cause,
      NewWithConfig url_Parse Getenv cfg = inl (InvalidURL cause) <->
      exists c, cfg = Some c /\
        (BotTokenCheckString c <> "" \/ Getenv "TOKEN" <> "") /\
        url_Parse (if String.eqb (GetHttpBotAPIUrl c) "" then defaultAPIURL
                   else GetHttpBotAPIUrl c) = Err cause).
Proof.
  destruct cfg as [c|]; cbn.
  2: { split; [done|]. split; [|intros cause]; split; try done;
       by intros (c & [=] & _). }
  destruct (String.eqb_spec (BotTokenCheckString c) "") as [Hc|Hc].
  - destruct (String.eqb_spec (Getenv "TOKEN") "") as [He|He].
    + split; [done|]. split.
      * split; [|done]. intros _. by exists c.
      * intros cause. split; [done|].
        intros (c' & [= <-] & [H|H] & _); contradiction.
    + destruct (url_Parse _) as [u|err] eqn:Hurl.
      * split; [done|]. split.
        -- split; [done|]. intros (c' & [= <-] & _ & H). contradiction.
        -- intros cause. split; [done|]. intros (c' & [= <-] & _ & H). congruence.
      * split; [done|]. split.
        -- split; [done|]. intros (c' & [= <-] & _ & H). contradiction.
        -- intros cause. split.
           ++ intros [= ->]. exists c. auto.
           ++ intros (c' & [= <-] & _ & H). congruence.
  - apply eqb_empty in Hc as Hc'. rewrite Hc'.
    destruct (url_Parse _) as [u|err] eqn:Hurl.
    + split; [done|]. split.
      * split; [done|]. intros (c' & [= <-] & H & _). contradiction.
      * intros cause. split; [done|]. intros (c' & [= <-] & _ & H). congruence.
    + split; [done|]. split.
      * split; [done|]. intros (c' & [= <-] & H & _). contradiction.
      * intros cause. split.
        -- intros [= ->]. exists c. auto.
        -- intros (c' & [= <-] & _ & H). congruence.
Qed.

(** X16.  [New] with a token that is not empty builds the client that
    [NewWithConfig] builds from a configuration with that token and no
    other setting: the default URL, a timeout of 30 seconds, the version
    of the package, no debug capture.  With the empty token [New] fails
    with [ErrEmptyToken] and never looks at the environment. *)
Theorem New_as_NewWithConfig (token : string) :
  (token <> "" ->
   New url_Parse token
   = NewWithConfig url_Parse Getenv (Some (token_only token))) /\
  New url_Parse "" = inl EmptyToken.
Proof.
  split; [|reflexivity].
  intros Hne%eqb_empty. unfold New, NewWithConfig. cbn.
  rewrite Hne. cbn. rewrite ?Hne. reflexivity.
Qed.

End ConstructorFacts.

(** ** Debug messages *)

Section DebugsFacts.
Context {Fields : Type} {W : Wire Fields} {MW : MessageWire Fields}.
Variable env : Env.
Implicit Types (d : debugs) (w : World (Fields := Fields))
  (message : NewMessageBody Fields).

Lemma requests_app (tr1 tr2 : list (@Event Fields)) :
  requests (tr1 ++ tr2)%list = (requests tr1 ++ requests tr2)%list.
Proof. unfold requests. apply omap_app. Qed.

(** A body that [request] hands back is the body of a 200 response to
    the one call of [Do] it made. *)
Lemma request_Ok_inv cl method path (query : option Values) reset
    (body : option (result RawMessage)) w rbody w' :
  request env cl method path query reset body w = (Ok rbody, w') ->
  env_Do env (do_calls w) = DoResponse StatusOK rbody.
Proof.
  intros Hreq.
  destruct body as [[data|cause]|]; run_M; try discriminate.
  all: destruct (env_NewRequest env _ _ _); [discriminate|];
    destruct (env_Do env (do_calls w)) as [[|] msg|msg|code rbody0]; cbn in *;
    try discriminate;
    destruct (code =? StatusOK) eqn:Hcode; cbn in *;
    [apply Z.eqb_eq in Hcode; subst code; by injection Hreq as <- <-
    |destruct (ReadAll rbody0) as [x|]; [destruct (decode_Error x)|];
     destruct (Close rbody0); discriminate].
Qed.

(** The ways out of [sendMessage]. *)
Lemma sendMessage_cases d vip reset chatID userID message w s e w' :
  sendMessage env d vip reset chatID userID message w = ((s, e), w') ->
  (exists err,
     request env (debugs_client d) MethodPost (if vip then "notify" else "messages")
       (Some (sendMessage_values reset chatID userID message)) reset
       (Some (marshal_NewMessageBody message)) w = (Err err, w') /\
     s = "heir" /\ e = Some (PlainError err)) \/
  (exists body,
     request env (debugs_client d) MethodPost (if vip then "notify" else "messages")
       (Some (sendMessage_values reset chatID userID message)) reset
       (Some (marshal_NewMessageBody message)) w = (Ok body, w') /\
     ((exists err, Decode_SchemesError body = Err err /\
                   s = "err" /\ e = Some (PlainError err)) \/
      (exists result, Decode_SchemesError body = Ok result /\
         ((Error_Code result = "" /\ vip = true /\
           s = "ok" /\ e = Some (ResultError result)) \/
          (Error_Code result = "" /\ vip = false /\ s = "" /\ e = None) \/
          (Error_Code result <> "" /\ s = "" /\ e = Some (ResultError result)))))).
Proof.
  unfold sendMessage, bind. intros Hsend.
  destruct (request env _ _ _ _ _ _ w) as [[body|err] w1] eqn:Hreq.
  - right. exists body.
    destruct (Decode_SchemesError body) as [result|err] eqn:Hdec.
    + destruct (String.eqb_spec (Error_Code result) "") as [Hcode|Hcode].
      * destruct vip; cbn in Hsend; unfold ret in Hsend;
          injection Hsend as <- <- <-; (split; [reflexivity|]); right;
          exists result; (split; [reflexivity|]); [left | right; left]; done.
      * unfold ret in Hsend. injection Hsend as <- <- <-.
        split; [reflexivity|]. right. exists result. split; [reflexivity|].
        right; right; done.
    + unfold ret in Hsend. injection Hsend as <- <- <-.
      split; [reflexivity|]. left. by exists err.
  - left. exists err. unfold ret in Hsend. by injection Hsend as <- <- <-.
Qed.

(** X17.  The request of [sendMessage], when the message marshals and the
    request can be built: one POST, to [notify] for a vip message and to
    [messages] otherwise, with the marshalled message as its body.  Its
    query carries the client's version; as [access_token] it carries the
    client's key, or, under [reset], the token of the message instead; and
    [chat_id] and [user_id] go out exactly when they are not zero. *)
Theorem sendMessage_request d vip reset chatID userID message w data :
  marshal_NewMessageBody message = Ok data ->
  (forall path q, env_NewRequest env MethodPost path q = None) ->
  exists q,
    requests (trace (snd (sendMessage env d vip reset chatID userID message w)))
    = (requests (trace w) ++
         [(MethodPost, if vip then "notify" else "messages", q, Some data)])%list /\
    do_calls (snd (sendMessage env d vip reset chatID userID message w))
    = S (do_calls w) /\
    q !! "v" = Some [version (debugs_client d)] /\
    q !! "access_token"
    = Some [if reset then NewMessageBody_BotToken message
            else key (debugs_client d)] /\
    q !! "chat_id" = (if chatID =? 0 then None else Some [pretty chatID]) /\
    q !! "user_id" = (if userID =? 0 then None else Some [pretty userID]) /\
    (forall k, q !! k <> None ->
       k = "v" \/ k = "access_token" \/ k = "chat_id" \/ k = "user_id").
Proof.
  intros Hmarshal Hnew.
  exists (Values_Set "v" (version (debugs_client d))
            (if negb reset
             then Values_Set "access_token" (key (debugs_client d))
                    (sendMessage_values reset chatID userID message)
             else sendMessage_values reset chatID userID message)).
  assert (Hrun : forall mode,
    exists r w1,
      request env (debugs_client d) MethodPost mode
        (Some (sendMessage_values reset chatID userID message)) reset
        (Some (marshal_NewMessageBody message)) w = (r, w1) /\
      do_calls w1 = S (do_calls w) /\
      requests (trace w1)
      = (requests (trace w) ++
           [(MethodPost, mode,
             Values_Set "v" (version (debugs_client d))
               (if negb reset
                then Values_Set "access_token" (key (debugs_client d))
                       (sendMessage_values reset chatID userID message)
                else sendMessage_values reset chatID userID message),
             Some data)])%list).
  { intros mode. rewrite Hmarshal. run_M. rewrite Hnew.
    destruct (env_Do env (do_calls w)) as [[|] msg|msg|code rbody]; cbn.
    4: destruct (negb (code =? StatusOK)); cbn.
    4: destruct (ReadAll rbody) as [x|]; [destruct (decode_Error x)|];
      destruct (Close rbody); cbn.
    all: eexists _, _; (split; [reflexivity|]); cbn; (split; [reflexivity|]);
      unfold requests; rewrite ?omap_app; cbn; by rewrite ?app_nil_r. }
  destruct (Hrun (if vip then "notify" else "messages")) as (r & w1 & Hreq & Hdo & Htr).
  assert (Hsnd : snd (sendMessage env d vip reset chatID userID message w) = w1).
  { unfold sendMessage, bind. rewrite Hreq.
    destruct r as [body|err]; [|reflexivity].
    destruct (Decode_SchemesError body) as [result|err]; [|reflexivity].
    destruct (String.eqb (Error_Code result) ""); [|reflexivity].
    destruct vip; reflexivity. }
  rewrite Hsnd. split; [exact Htr|]. split; [exact Hdo|].
  unfold Values_Set, sendMessage_values.
  split; [by rewrite lookup_insert_eq|].
  split; [|split; [|split]].
  - destruct reset; cbn; unfold Values_Set; by simplify_map_eq.
  - destruct reset, (chatID =? 0), (userID =? 0); cbn; unfold Values_Set;
      by simplify_map_eq.
  - destruct reset, (chatID =? 0), (userID =? 0); cbn; unfold Values_Set;
      by simplify_map_eq.
  - intros k Hk.
    destruct (decide (k = "v")) as [|Hv]; [by left|].
    destruct (decide (k = "access_token")) as [|Ht]; [by right; left|].
    destruct (decide (k = "chat_id")) as [|Hc]; [by right; right; left|].
    destruct (decide (k = "user_id")) as [|Hu]; [by right; right; right|].
    exfalso. apply Hk.
    destruct reset, (chatID =? 0), (userID =? 0); cbn; unfold Values_Set;
      by simplify_map_eq.
Qed.

(** X18.  What [sendMessage] returns.  The error is nil only for a
    message that is not vip, answered with status 200 by a body that
    decodes to a [schemes.Error] with an empty code; the text is then
    empty.  A vip message never gives a nil error: on the same success it
    returns the text [ok] together with the decoded value as its error.
    The text [heir] stands for a failed request and [err] for a body that
    does not decode. *)
Theorem sendMessage_results d vip reset chatID userID message w s e w' :
  sendMessage env d vip reset chatID userID message w = ((s, e), w') ->
  (e = None <->
   vip = false /\
   exists body result,
     request env (debugs_client d) MethodPost (if vip then "notify" else "messages")
       (Some (sendMessage_values reset chatID userID message)) reset
       (Some (marshal_NewMessageBody message)) w = (Ok body, w') /\
     Decode_SchemesError body = Ok result /\ Error_Code result = "") /\
  (e = None ->
   s = "" /\ exists body, env_Do env (do_calls w) = DoResponse StatusOK body) /\
  (s = "ok" <->
   vip = true /\
   exists result, e = Some (ResultError result) /\ Error_Code result = "") /\
  (s = "heir" <->
   exists err,
     request env (debugs_client d) MethodPost (if vip then "notify" else "messages")
       (Some (sendMessage_values reset chatID userID message)) reset
       (Some (marshal_NewMessageBody message)) w = (Err err, w')) /\
  (s = "err" <->
   exists body err,
     request env (debugs_client d) MethodPost (if vip then "notify" else "messages")
       (Some (sendMessage_values reset chatID userID message)) reset
       (Some (marshal_NewMessageBody message)) w = (Ok body, w') /\
     Decode_SchemesError body = Err err).
Proof.
  intros Hsend. apply sendMessage_cases in Hsend.
  destruct Hsend as [(err & Hreq & -> & ->)
    |(body & Hreq & [(err & Hdec & -> & ->)
       |(result & Hdec &
          [(Hcode & -> & -> & ->)|[(Hcode & -> & -> & ->)|(Hcode & -> & ->)]])])].
  - repeat split; try done.
    + intros (_ & body & result & Hreq' & _). congruence.
    + intros (_ & result & He & _). discriminate.
    + by exists err.
    + intros (body & err' & Hreq' & _). congruence.
  - repeat split; try done.
    + intros (_ & body' & result & Hreq' & Hdec' & _). congruence.
    + intros (_ & result & He & _). discriminate.
    + intros (err' & Hreq'). congruence.
    + by exists body, err.
  - repeat split; try done.
    + intros (Hvip & _). discriminate.
    + by exists result.
    + intros (err' & Hreq'). congruence.
    + intros (body' & err' & Hreq' & Hdec'). congruence.
  - repeat split; try done.
    + by exists body, result.
    + exists body. by apply request_Ok_inv in Hreq.
    + intros (Hvip & _). discriminate.
    + intros (err' & Hreq'). congruence.
    + intros (body' & err' & Hreq' & Hdec'). congruence.
  - repeat split; try done.
    + intros (_ & body' & result' & Hreq' & Hdec' & Hcode'). congruence.
    + intros (_ & result' & He & Hcode'). congruence.
    + intros (err' & Hreq'). congruence.
    + intros (body' & err' & Hreq' & Hdec'). congruence.
Qed.

(** X19.  [Send] and [SendErr] post to [messages] under the client's own
    key, so neither ever answers [ok]: the text they return is empty, or
    [heir] after a failed request, or [err] after a body that does not
    decode, and with [heir] and [err] the error is never nil.  Each makes
    at most one call of [Do]. *)
Theorem Send_SendErr_results d (m : M (string * option send_error)) w s e w' :
  (exists upd, m = Send env d upd) \/ (exists err, m = SendErr env d err) ->
  m w = ((s, e), w') ->
  (s = "" \/ s = "heir" \/ s = "err") /\
  (s <> "" -> e <> None) /\
  (do_calls w' <= S (do_calls w))%nat /\
  (forall method path q body,
     (method, path, q, body) ∈ requests (trace w') ->
     (method, path, q, body) ∈ requests (trace w) \/
     (method = MethodPost /\ path = "messages" /\
      q !! "access_token" = Some [key (debugs_client d)] /\
      q !! "user_id" = None /\
      q !! "chat_id" = (if chat d =? 0 then None else Some [pretty (chat d)]))).
Proof.
  intros Hm Hrun.
  assert (exists message, m = sendMessage env d false false (chat d) 0 message)
    as [message ->].
  { destruct Hm as [[upd ->]|[err ->]]; eexists; reflexivity. }
  pose proof Hrun as Hcases. apply sendMessage_cases in Hcases.
  assert (Hreq : exists r,
    request env (debugs_client d) MethodPost "messages"
      (Some (sendMessage_values false (chat d) 0 message)) false
      (Some (marshal_NewMessageBody message)) w = (r, w')).
  { destruct Hcases as [(err & Hreq & _)|(body & Hreq & _)]; eauto. }
  destruct Hreq as [r Hreq].
  split; [|split; [|split]].
  - destruct Hcases as [(err & _ & -> & _)
      |(body & _ & [(err & _ & -> & _)
         |(result & _ &
            [(_ & Hvip & _)|[(_ & _ & -> & _)|(_ & -> & _)]])])]; auto.
    discriminate.
  - destruct Hcases as [(err & _ & -> & ->)
      |(body & _ & [(err & _ & -> & ->)
         |(result & _ &
            [(_ & Hvip & _)|[(_ & _ & -> & _)|(_ & -> & _)]])])]; try done.
  - clear Hcases Hrun.
    destruct (marshal_NewMessageBody message) as [data|cause]; run_M.
    2: { injection Hreq as <- <-. lia. }
    destruct (env_NewRequest env _ _ _); [injection Hreq as <- <-; cbn; lia|].
    destruct (env_Do env (do_calls w)) as [[|] msg|msg|code rbody]; cbn in *.
    4: destruct (negb (code =? StatusOK)); cbn in *.
    4: destruct (ReadAll rbody) as [x|]; [destruct (decode_Error x)|];
      destruct (Close rbody); cbn in *.
    all: injection Hreq as <- <-; cbn; lia.
  - clear Hcases Hrun. intros method path q body Hin.
    assert (Htr : trace w' = trace w \/
      exists data tl,
        requests tl = [] /\
        trace w' = (trace w ++
          EvDo MethodPost "messages"
            (Values_Set "v" (version (debugs_client d))
               (Values_Set "access_token" (key (debugs_client d))
                  (sendMessage_values false (chat d) 0 message)))
            data :: tl)%list).
    { destruct (marshal_NewMessageBody message) as [data|cause]; run_M.
      2: { injection Hreq as <- <-. by left. }
      destruct (env_NewRequest env _ _ _); [injection Hreq as <- <-; by left|].
      right.
      destruct (env_Do env (do_calls w)) as [[|] msg|msg|code rbody]; cbn in *.
      4: destruct (negb (code =? StatusOK)); cbn in *.
      4: destruct (ReadAll rbody) as [x|]; [destruct (decode_Error x)|];
        destruct (Close rbody); cbn in *.
      all: injection Hreq as <- <-; cbn; rewrite <- ?app_assoc; cbn;
        eexists _, _; (split; [|reflexivity]); reflexivity. }
    destruct Htr as [Heq|(data & tl & Htl & Heq)]; rewrite Heq in Hin;
      [by left|].
    rewrite requests_app in Hin. cbn in Hin. fold (requests tl) in Hin.
    rewrite Htl in Hin.
    apply elem_of_app in Hin as [Hin|Hin]; [by left|].
    apply list_elem_of_singleton in Hin. injection Hin as -> -> -> ->.
    right. split; [reflexivity|]. split; [reflexivity|].
    unfold Values_Set, sendMessage_values.
    destruct (chat d =? 0); cbn; unfold Values_Set; by simplify_map_eq.
Qed.
End DebugsFacts.

(** ** The further properties on the examples *)

Lemma bytesToProperAttachment_known_tag_witness :
  unmarshal_Attachment "att_image_broken" zero_Attachment
  = Ok {| Attachment_Type := "image" |} /\
  GetAttachmentType {| Attachment_Type := "image" |}
  = attachment_tag (W := demo_Wire) PhotoAttachment /\
  bytesToProperAttachment demo_Api "att_image_broken"
  = Err (wrapError "failed to unmarshal attachment of type image"
           (foreignError "cannot unmarshal")) /\
  forall b, bytesToProperAttachment (W := demo_Wire) demo_Api "att_image_broken"
            <> Ok (BaseAttachment b).
Proof.
  assert (Hbase : unmarshal_Attachment "att_image_broken" zero_Attachment
                  = Ok {| Attachment_Type := "image" |}) by reflexivity.
  assert (Htag : GetAttachmentType {| Attachment_Type := "image" |}
                 = attachment_tag (W := demo_Wire) PhotoAttachment) by reflexivity.
  split; [exact Hbase|]. split; [exact Htag|].
  exact (bytesToProperAttachment_known_tag demo_Api "att_image_broken" _
           PhotoAttachment Hbase Htag).
Defined.

Lemma bytesToProperUpdate_errors_witness :
  bytesToProperUpdate demo_Api "upd_poll"
  = Err (errorString "unknown update type: poll_closed") /\
  ((exists cause,
      unmarshal_Update "upd_poll" zero_Update = Err cause /\
      errorString "unknown update type: poll_closed"
      = wrapError "failed to unmarshal base update" cause) \/
   (exists base,
      unmarshal_Update "upd_poll" zero_Update = Ok base /\
      (GetUpdateType base ∉ update_tags (W := demo_Wire)) /\
      errorString "unknown update type: poll_closed"
      = errorString ("unknown update type: " ++ GetUpdateType base)) \/
   (exists base constructor cause,
      unmarshal_Update "upd_poll" zero_Update = Ok base /\
      updateTypeMap !! GetUpdateType base = Some constructor /\
      Unmarshal_update "upd_poll"
        (constructor (if debug demo_Api then "upd_poll" else "")) = Err cause /\
      errorString "unknown update type: poll_closed"
      = wrapError ("failed to unmarshal update of type " ++ GetUpdateType base)
          cause) \/
   (exists base constructor (v : UpdateInterface string) raw cause,
      unmarshal_Update "upd_poll" zero_Update = Ok base /\
      updateTypeMap !! GetUpdateType base = Some constructor /\
      Unmarshal_update "upd_poll"
        (constructor (if debug demo_Api then "upd_poll" else "")) = Ok v /\
      (raw ∈ raw_attachments v) /\
      bytesToProperAttachment demo_Api raw = Err cause /\
      errorString "unknown update type: poll_closed"
      = wrapError "failed to process message attachments"
          (wrapError "failed to process attachment" cause))).
Proof.
  assert (Herr : bytesToProperUpdate demo_Api "upd_poll"
                 = Err (errorString "unknown update type: poll_closed"))
    by reflexivity.
  split; [exact Herr|].
  exact (bytesToProperUpdate_errors demo_Api "upd_poll" _ Herr).
Defined.

Lemma requestReader_sends_credentials_witness :
  let env := demo_Env [DoResponse 200 (demo_body "list_one_3")] in
  let query : option Values :=
    Some (Values_Set "access_token" "forged" (Values_Set "limit" "50" ∅)) in
  exists q,
    queries (trace (snd (requestReader (W := demo_Wire) env demo_client MethodGet
                           "updates" query false None init_World)))
    = (queries (trace (init_World (Fields := string))) ++ [q])%list /\
    do_calls (snd (requestReader (W := demo_Wire) env demo_client MethodGet
                     "updates" query false None init_World))
    = S (do_calls (init_World (Fields := string))) /\
    q !! "v" = Some [version demo_client] /\
    q !! "access_token" = Some [key demo_client] /\
    (forall k, k <> "v" -> k <> "access_token" -> q !! k = default ∅ query !! k).
Proof.
  intros env query.
  exact (requestReader_sends_credentials (W := demo_Wire) env demo_client
           MethodGet "updates" query false None init_World (fun _ => eq_refl)).
Defined.

Lemma request_results_witness :
  let env := demo_Env [DoUrlError true "deadline"] in
  let run := request (W := demo_Wire) env demo_client MethodGet "updates" None
               false None init_World in
  run = (Err (TimeoutErrorPtr 1 "GET updates" "request timeout exceeded (30s)"),
         snd run) /\
  eq_errLongPollTimeout
    (TimeoutErrorPtr 1 "GET updates" "request timeout exceeded (30s)") = false /\
  (forall cause,
     (None : option (result RawMessage)) = Some (Err cause) ->
     TimeoutErrorPtr 1 "GET updates" "request timeout exceeded (30s)"
     = SerializationErrorPtr "marshal" "request body" cause /\
     snd run = init_World) /\
  (forall addr op reason,
     TimeoutErrorPtr 1 "GET updates" "request timeout exceeded (30s)"
     = TimeoutErrorPtr addr op reason ->
     addr = S (allocs (init_World (Fields := string))) /\
     allocs (snd run) = S (allocs (init_World (Fields := string))) /\
     op = MethodGet ++ " " ++ "updates" /\
     exists msg,
       env_Do env (do_calls (init_World (Fields := string))) = DoUrlError true msg).
Proof.
  intros env run.
  assert (Hrun : run = (Err (TimeoutErrorPtr 1 "GET updates"
                               "request timeout exceeded (30s)"), snd run))
    by reflexivity.
  split; [exact Hrun|].
  exact (request_results (W := demo_Wire) env demo_client MethodGet "updates" None
           false None init_World _ _ Hrun).
Defined.

Lemma getUpdatesWithRetry_first_success_witness :
  let env := demo_Env [DoOtherError "connection refused";
                       DoResponse 200 (demo_body "list_one_3")] in
  let l := {| UpdateList_Updates := ["upd_bot_started"];
              UpdateList_Marker := Some 3 |} in
  let run := getUpdatesWithRetry (W := demo_Wire) env demo_Api None init_World in
  run = (Ok l, snd run) /\
  exists j,
    (j < 3)%nat /\
    do_calls (snd run) = (S j + do_calls (init_World (Fields := string)))%nat /\
    (forall i, (i < j)%nat ->
       outcome_batch (env_Do env (i + do_calls (init_World (Fields := string))))
       = None /\
       env_Done env (i + selects (init_World (Fields := string))) = false) /\
    outcome_batch (env_Do env (j + do_calls (init_World (Fields := string))))
    = Some l /\
    waits (trace (snd run))
    = (waits (trace (init_World (Fields := string)))
         ++ take j [Second; 2 * Second])%list.
Proof.
  intros env l run.
  assert (Hrun : run = (Ok l, snd run)) by reflexivity.
  split; [exact Hrun|].
  exact (getUpdatesWithRetry_first_success (W := demo_Wire) env
           (fun _ _ _ => eq_refl) demo_Api None init_World l (snd run) Hrun).
Defined.

Lemma getUpdatesWithRetry_failure_witness :
  let env := demo_Env_cancelled [DoResponse 500 (demo_body "overloaded")] 1 in
  let run := getUpdatesWithRetry (W := demo_Wire) env demo_Api None init_World in
  run = (Err ctxErr, snd run) /\
  ((ctxErr = ctxErr /\
    exists j,
      (j < 2)%nat /\
      do_calls (snd run) = (S j + do_calls (init_World (Fields := string)))%nat /\
      (forall i, (i <= j)%nat ->
         outcome_batch (env_Do env (i + do_calls (init_World (Fields := string))))
         = None) /\
      env_Done env (j + selects (init_World (Fields := string))) = true /\
      waits (trace (snd run))
      = (waits (trace (init_World (Fields := string)))
           ++ take j [Second; 2 * Second])%list)
   \/
   (exists cause,
      ctxErr = wrapError "failed after 3 attempts" cause /\
      do_calls (snd run) = (3 + do_calls (init_World (Fields := string)))%nat /\
      (forall i, (i < 3)%nat ->
         outcome_batch (env_Do env (i + do_calls (init_World (Fields := string))))
         = None) /\
      waits (trace (snd run))
      = (waits (trace (init_World (Fields := string)))
           ++ [Second; 2 * Second])%list)).
Proof.
  intros env run.
  assert (Hrun : run = (Err ctxErr, snd run)) by reflexivity.
  split; [exact Hrun|].
  exact (getUpdatesWithRetry_failure (W := demo_Wire) env
           (fun _ _ _ => eq_refl) demo_Api None init_World ctxErr (snd run) Hrun).
Defined.

Lemma GetUpdates_closes_once_witness :
  let env := demo_Env_cancelled [DoResponse 200 (demo_body "list_two_5")] 2 in
  let run n := GetUpdates_run (W := demo_Wire) env demo_Api n init_World in
  closes (trace (init_World (Fields := string))) = 0%nat /\
  phase (run 3%nat) <> Stopped /\
  closes (trace (world (run 3%nat))) = 0%nat /\
  phase (run 4%nat) = Stopped /\
  closes (trace (world (run 4%nat))) = 1%nat /\
  (exists tr, trace (world (run 4%nat)) = (tr ++ [EvCtxDone; EvCloseChan])%list) /\
  forall m, (4 <= m)%nat -> run m = run 4%nat.
Proof.
  intros env run.
  assert (Hstart : closes (trace (init_World (Fields := string))) = 0%nat)
    by reflexivity.
  assert (Hrunning : phase (run 3%nat) <> Stopped) by (vm_compute; discriminate).
  assert (Hstopped : phase (run 4%nat) = Stopped) by reflexivity.
  split; [exact Hstart|]. split; [exact Hrunning|].
  split;
    [exact (proj1 (GetUpdates_closes_once (W := demo_Wire) env demo_Api 3
                     init_World Hstart) Hrunning)|].
  split; [exact Hstopped|].
  exact (proj2 (GetUpdates_closes_once (W := demo_Wire) env demo_Api 4
                  init_World Hstart) Hstopped).
Defined.

Lemma GetUpdates_queries_witness :
  let env := demo_Env [DoResponse 200 (demo_body "list_two_5");
                       DoResponse 200 (demo_body "list_empty_7")] in
  Forall (loop_query (W := demo_Wire) env demo_Api)
    (queries (trace (world (GetUpdates_run (W := demo_Wire) env demo_Api 6
                              init_World)))).
Proof.
  intros env.
  exact (GetUpdates_queries (W := demo_Wire) env demo_Api 6 init_World
           (List.Forall_nil _)).
Defined.

Lemma GetUpdates_delivers_all_witness :
  let env := demo_Env [DoResponse 200 (demo_body "list_two_5");
                       DoOtherError "connection refused";
                       DoResponse 200 (demo_body "list_one_3")] in
  let run := GetUpdates_run (W := demo_Wire) env demo_Api 6 init_World in
  sent (trace (world run))
  = (sent (trace (init_World (Fields := string)))
       ++ fetched env demo_Api (do_calls (init_World (Fields := string)))
            (do_calls (world run)))%list.
Proof.
  intros env run.
  exact (GetUpdates_delivers_all (W := demo_Wire) env demo_Api 6 init_World
           (fun _ => eq_refl)).
Defined.

Lemma NewWithConfig_invariants_witness :
  exists h,
    NewWithConfig demo_url_Parse demo_Getenv (Some demo_Config) = inr h /\
    let cl := api_client (new_Api h) in
    key cl <> "" /\
    version cl <> "" /\
    0 < timeout (new_Api h) < 2 ^ 63 /\
    httpClient_Timeout cl = timeout (new_Api h) /\
    pause (new_Api h) = Second /\
    debugs_client (new_Debugs h) = cl /\
    uploads_client (new_Uploads h) = cl /\
    subscriptions_client (new_Subscriptions h) = cl /\
    exists text, text <> "" /\ demo_url_Parse text = Ok (new_baseURL h).
Proof.
  eexists. split; [reflexivity|].
  exact (NewWithConfig_invariants _ demo_url_Parse demo_Getenv (Some demo_Config)
           _ eq_refl).
Defined.


Lemma sendMessage_request_witness :
  let env := demo_Env [DoResponse 200 (demo_body "ok")] in
  let message := {| NewMessageBody_Text := "hi"; NewMessageBody_BotToken := "other";
                    NewMessageBody_rest := "" |} in
  let run := sendMessage (MW := demo_MessageWire) env demo_debugs true true 0 7
               message init_World in
  marshal_NewMessageBody message = Ok "hi" /\
  exists q,
    requests (trace (snd run))
    = (requests (trace (init_World (Fields := string)))
         ++ [(MethodPost, "notify", q, Some "hi")])%list /\
    do_calls (snd run) = S (do_calls (init_World (Fields := string))) /\
    q !! "v" = Some [version (debugs_client demo_debugs)] /\
    q !! "access_token" = Some ["other"] /\
    q !! "chat_id" = None /\
    q !! "user_id" = Some [pretty 7] /\
    (forall k, q !! k <> None ->
       k = "v" \/ k = "access_token" \/ k = "chat_id" \/ k = "user_id").
Proof.
  intros env message run.
  assert (Hmarshal : marshal_NewMessageBody message = Ok "hi") by reflexivity.
  split; [exact Hmarshal|].
  exact (sendMessage_request (MW := demo_MessageWire) env demo_debugs true true
           0 7 message init_World "hi" Hmarshal (fun _ _ => eq_refl)).
Defined.

Lemma sendMessage_results_witness :
  let env := demo_Env [DoResponse 200 (demo_body "ok")] in
  let message := {| NewMessageBody_Text := "hi"; NewMessageBody_BotToken := "other";
                    NewMessageBody_rest := "" |} in
  let run := sendMessage (MW := demo_MessageWire) env demo_debugs true false 123 0
               message init_World in
  run = (("ok", Some (ResultError (MW := demo_MessageWire) "")), snd run) /\
  (Some (ResultError (MW := demo_MessageWire) "") <> None) /\
  ("ok" = "ok" <->
   true = true /\
   exists result,
     Some (ResultError (MW := demo_MessageWire) "") = Some (ResultError result) /\
     Error_Code result = "").
Proof.
  intros env message run.
  assert (Hrun : run = (("ok", Some (ResultError (MW := demo_MessageWire) "")),
                        snd run)) by reflexivity.
  split; [exact Hrun|]. split; [discriminate|].
  exact (proj1 (proj2 (proj2 (sendMessage_results (MW := demo_MessageWire) env
                                demo_debugs true false 123 0 message init_World
                                _ _ _ Hrun)))).
Defined.

Lemma Send_SendErr_results_witness :
  let env := demo_Env [DoResponse 400 (demo_body "chat.denied")] in
  let run := Send (MW := demo_MessageWire) env demo_debugs demo_created init_World in
  fst (fst run) = "heir" /\
  ("heir" = "" \/ "heir" = "heir" \/ "heir" = "err") /\
  ("heir" <> "" -> snd (fst run) <> None) /\
  (do_calls (snd run) <= S (do_calls (init_World (Fields := string))))%nat /\
  (forall method path q body,
     (method, path, q, body) ∈ requests (trace (snd run)) ->
     (method, path, q, body) ∈ requests (trace (init_World (Fields := string))) \/
     (method = MethodPost /\ path = "messages" /\
      q !! "access_token" = Some [key (debugs_client demo_debugs)] /\
      q !! "user_id" = None /\
      q !! "chat_id" = (if chat demo_debugs =? 0 then None
                        else Some [pretty (chat demo_debugs)]))).
Proof.
  intros env run.
  assert (Hrun : run = (("heir", snd (fst run)), snd run)) by reflexivity.
  split; [reflexivity|].
  exact (Send_SendErr_results (MW := demo_MessageWire) env demo_debugs
           (Send env demo_debugs demo_created) init_World _ _ _
           (or_introl (ex_intro _ demo_created eq_refl)) Hrun).
Defined.
